(** * HelperServer: the Nginx helper server of Phusion Passenger

    A shallow embedding of [ext/nginx/HelperServer.cpp] and the proofs of
    the properties its specification states about it, followed by further
    properties of the code: failing reads, the order of a request, the
    thread of a client, and the clients and the shutdown of the server.

    The helper server accepts connections on a Unix socket, checks a
    64-byte password, parses an SCGI header block, checks a session out of
    the application pool, forwards the request body to it and forwards the
    rewritten response back.

    Modelling conventions
    - byte strings ([std::string], [char] buffers) are [list byte];
    - C integers are [Z], with the wrap-around of [unsigned long]
      (64 bits, LP64) and [unsigned int] (32 bits) written out;
    - a descriptor's input is a list of pending events: data chunks in
      arrival order and read errors; [read(2)] returns at most [count]
      bytes of the first chunk and leaves the rest pending;
    - the code runs in a state-and-exception monad over a [World] that holds
      the pending input of each descriptor, [errno] and the trace of the
      externally visible actions in program order; the world survives a
      thrown exception, as it does in C++;
    - reads can fail; what is written to the client or sent to the session
      is recorded in the trace, and these writes do not fail;
    - loops whose number of iterations is bounded by the pending input get
      that bound as fuel; every theorem shows the fuel suffices. *)

From Stdlib Require Import List ZArith Lia Bool String Ascii Strings.Byte DecimalString.
Import ListNotations.

Local Open Scope Z_scope.

(** ** Byte strings *)

Definition bytes := list byte.

Definition lit (s : string) : bytes := list_byte_of_string s.

Definition zlen (b : bytes) : Z := Z.of_nat (List.length b).

Definition bytes_eqb (a b : bytes) : bool :=
  if list_eq_dec byte_eq_dec a b then true else false.

Definition CR : byte := x0d.
Definition LF : byte := x0a.
Definition NUL : byte := x00.
Definition CRLF : bytes := [CR; LF].

(** [#define HELPER_SERVER_PASSWORD_SIZE 64] *)
Definition HELPER_SERVER_PASSWORD_SIZE : Z := 64.

(** ** Machine integers *)

Definition ULONG_MODULUS : Z := 2 ^ 64.
Definition UINT_MODULUS : Z := 2 ^ 32.

Definition to_ulong (z : Z) : Z := z mod ULONG_MODULUS.
Definition to_uint (z : Z) : Z := z mod UINT_MODULUS.

(** ** Descriptors and their pending input *)

Inductive fdsel : Type :=
| ClientFd        (* the accepted connection *)
| SessionStream   (* session->getStream() *)
| AdminPipe.      (* the inherited admin pipe *)

Inductive rd_event : Type :=
| Chunk (data : bytes)
| ReadError (errno : Z).

Definition instream := list rd_event.

(** [read(fd, buf, count)]: the returned size, the bytes stored in [buf], the
    [errno] of a failure, and the input still pending. Size 0 is end of
    file, size -1 an error. *)
Fixpoint sys_read (count : Z) (s : instream) : Z * bytes * Z * instream :=
  match s with
  | [] => (0, [], 0, [])
  | ReadError e :: s' => (-1, [], e, s')
  | Chunk [] :: s' => sys_read count s'
  | Chunk d :: s' =>
      if zlen d <=? count then (zlen d, d, 0, s')
      else (count, firstn (Z.to_nat count) d,
            0, Chunk (skipn (Z.to_nat count) d) :: s')
  end.

(** The bytes a descriptor delivers before its first read error. *)
Fixpoint stream_bytes (s : instream) : bytes :=
  match s with
  | [] => []
  | Chunk d :: s' => d ++ stream_bytes s'
  | ReadError _ :: _ => []
  end.

Fixpoint no_read_error (s : instream) : bool :=
  match s with
  | [] => true
  | Chunk _ :: s' => no_read_error s'
  | ReadError _ :: _ => false
  end.

(** A bound on the number of reads that return data. *)
Fixpoint weight (s : instream) : nat :=
  match s with
  | [] => O
  | Chunk d :: s' => S (List.length d + weight s')
  | ReadError _ :: s' => S (weight s')
  end.

(** ** Collaborators declared outside this file *)

(** [PoolOptions.h]: the fields [handleRequest] sets. *)
Record PoolOptions : Type := mkPoolOptions {
  appRoot : bytes;
  useGlobalQueue : bool;
  environment : bytes;
  spawnMethod : bytes
}.

(** [Exceptions.h], [SpawnException]: [what()] is a C string. *)
Record SpawnException : Type := mkSpawnException {
  what : bytes;
  hasErrorPage : bool;
  getErrorPage : bytes
}.

Inductive exn : Type :=
| SystemException (msg : string) (code : Z)
| IOException (msg : string)
| Spawn (e : SpawnException)
| TracableException (msg : string)    (* any other oxt::tracable_exception *)
| StdException (msg : string)         (* any other std::exception *)
| thread_interrupted                  (* boost::thread_interrupted *)
| UnknownException.                   (* anything else *)

(** [oxt::tracable_exception] is the base of the Passenger exceptions. *)
Definition is_tracable (e : exn) : bool :=
  match e with
  | SystemException _ _ | IOException _ | Spawn _ | TracableException _ => true
  | _ => false
  end.

Definition is_std_exception (e : exn) : bool :=
  match e with
  | StdException _ => true
  | _ => is_tracable e
  end.

(** [StandardApplicationPool]: the settings the constructor of [Server]
    makes. *)
Record Pool : Type := mkPool {
  spawnServerCommand : bytes;
  pool_ruby : bytes;
  pool_max : Z;
  pool_maxPerApp : Z;
  pool_maxIdleTime : Z
}.

(** The fields of a [Client] object. *)
Record Client : Type := mkClient {
  client_number : Z;
  client_pool : Pool;
  client_password : bytes;
  client_serverSocket : Z
}.

(** ** The world and the trace of visible actions *)

Inductive event : Type :=
| EvRead (fd : fdsel) (count size : Z)        (* read(fd, buf, count) = size *)
| EvWrite (fd : fdsel) (data : bytes)         (* MessageChannel::writeRaw *)
| EvLog (msg : string)                        (* P_ERROR *)
| EvCanonicalize (path : bytes)
| EvPoolGet (options : PoolOptions)           (* pool->get(options) *)
| EvSendHeaders (data : bytes)                (* session->sendHeaders *)
| EvSendBodyBlock (data : bytes)              (* session->sendBodyBlock *)
| EvShutdownWriter                            (* session->shutdownWriter *)
| EvAccept
| EvClose (fd : fdsel)
| EvCreateTempDir                             (* createPassengerTempDir() *)
| EvNewPool (p : Pool)                        (* new StandardApplicationPool, set up *)
| EvSocket                                    (* socket(PF_UNIX, SOCK_STREAM, 0) *)
| EvBind (fd : Z) (sun_path : bytes)
| EvListen (fd backlog : Z)
| EvChmod (path : bytes) (mode : Z)
| EvCloseSocket (fd : Z)
| EvNewClient (c : Client)                    (* new Client: its thread is started *)
| EvNewStatusReporter
| EvClearClients.                             (* every client thread interrupted and joined *)

Record World : Type := mkWorld {
  w_client : instream;
  w_session : instream;
  w_admin : instream;
  w_errno : Z;
  w_trace : list event
}.

Definition pending (fd : fdsel) (w : World) : instream :=
  match fd with
  | ClientFd => w_client w
  | SessionStream => w_session w
  | AdminPipe => w_admin w
  end.

Definition set_pending (fd : fdsel) (s : instream) (w : World) : World :=
  match fd with
  | ClientFd => mkWorld s (w_session w) (w_admin w) (w_errno w) (w_trace w)
  | SessionStream => mkWorld (w_client w) s (w_admin w) (w_errno w) (w_trace w)
  | AdminPipe => mkWorld (w_client w) (w_session w) s (w_errno w) (w_trace w)
  end.

Definition set_errno (e : Z) (w : World) : World :=
  mkWorld (w_client w) (w_session w) (w_admin w) e (w_trace w).

Definition emit (ev : event) (w : World) : World :=
  mkWorld (w_client w) (w_session w) (w_admin w) (w_errno w) (w_trace w ++ [ev]).

(** Projections of a trace. *)
Definition body_block (ev : event) : bytes :=
  match ev with EvSendBodyBlock d => d | _ => [] end.

Definition written_to (fd : fdsel) (ev : event) : bytes :=
  match ev with
  | EvWrite ClientFd d => match fd with ClientFd => d | _ => [] end
  | EvWrite SessionStream d => match fd with SessionStream => d | _ => [] end
  | EvWrite AdminPipe d => match fd with AdminPipe => d | _ => [] end
  | _ => []
  end.

(** The request body the session has received. *)
Definition session_body (tr : list event) : bytes := flat_map body_block tr.

(** The bytes the client has received. *)
Definition client_output (tr : list event) : bytes := flat_map (written_to ClientFd) tr.

Definition is_read_of (fd : fdsel) (ev : event) : bool :=
  match ev, fd with
  | EvRead ClientFd _ _, ClientFd => true
  | EvRead SessionStream _ _, SessionStream => true
  | EvRead AdminPipe _ _, AdminPipe => true
  | _, _ => false
  end.

Definition is_pool_get (ev : event) : bool :=
  match ev with EvPoolGet _ => true | _ => false end.

Definition pool_gets (tr : list event) : nat := List.length (filter is_pool_get tr).

(** Kinds of events, by the step that adds them to the trace: a read of one
    descriptor; reads and log entries ([readAndCheckPassword],
    [readAndParseRequestHeaders]); reads of the client and body blocks
    ([sendRequestBody]); reads of the session's stream and writes to the
    client ([forwardResponse]). *)
Definition is_read_event (fd : fdsel) (ev : event) : Prop := is_read_of fd ev = true.

Definition is_quiet_event (ev : event) : Prop :=
  match ev with
  | EvRead _ _ _ | EvLog _ => True
  | _ => False
  end.

Definition is_body_event (ev : event) : Prop :=
  match ev with
  | EvRead ClientFd _ _ | EvSendBodyBlock _ => True
  | _ => False
  end.

Definition is_response_event (ev : event) : Prop :=
  match ev with
  | EvRead SessionStream _ _ | EvWrite ClientFd _ => True
  | _ => False
  end.

(** ** The monad: state plus C++ exceptions *)

Inductive result (A : Type) : Type :=
| Ok (a : A)
| Throw (e : exn)
| OutOfFuel.

Arguments Ok {A} a.
Arguments Throw {A} e.
Arguments OutOfFuel {A}.

Definition M (A : Type) : Type := World -> result A * World.

Definition ret {A} (a : A) : M A := fun w => (Ok a, w).

Definition bind {A B} (m : M A) (k : A -> M B) : M B :=
  fun w =>
    match m w with
    | (Ok a, w') => k a w'
    | (Throw e, w') => (Throw e, w')
    | (OutOfFuel, w') => (OutOfFuel, w')
    end.

Definition throw {A} (e : exn) : M A := fun w => (Throw e, w).

Definition out_of_fuel {A} : M A := fun w => (OutOfFuel, w).

(** [try { m } catch (...) { h e }] *)
Definition try_catch {A} (m : M A) (h : exn -> M A) : M A :=
  fun w =>
    match m w with
    | (Throw e, w') => h e w'
    | r => r
    end.

Declare Scope monad_scope.
Delimit Scope monad_scope with monad.
Notation "x <- m ;; k" := (bind m (fun x => k))
  (at level 61, m at next level, right associativity) : monad_scope.
Notation "m ;; k" := (bind m (fun _ => k))
  (at level 61, right associativity) : monad_scope.
Local Open Scope monad_scope.

Definition trace_event (ev : event) : M unit := fun w => (Ok tt, emit ev w).

Definition get_errno : M Z := fun w => (Ok (w_errno w), w).

(** [syscalls::read(fd, buf, count)]: the size and the contents of [buf]. *)
Definition read_fd (fd : fdsel) (count : Z) : M (Z * bytes) :=
  fun w =>
    match sys_read count (pending fd w) with
    | (size, data, e, s') =>
        let w1 := set_pending fd s' w in
        let w2 := if size =? -1 then set_errno e w1 else w1 in
        (Ok (size, data), emit (EvRead fd count size) w2)
    end.

(** [P_ERROR] writes to the log. [P_DEBUG] and [P_TRACE] are debugging
    output that depends on the log level; they are left out of the trace. *)
Definition P_ERROR (msg : string) : M unit := trace_event (EvLog msg).
Definition P_DEBUG (msg : string) : M unit := ret tt.
Definition P_TRACE (msg : string) : M unit := ret tt.

(** Modelled from the spec: [MessageChannel] ([MessageChannel.h]) is not part
    of this file. [readRaw(buf, size)] reads exactly [size] bytes, and
    reports end of file before that by returning false; a failing read
    raises [SystemException]. The second component is what [buf] holds. *)
Fixpoint readRaw_loop (fuel : nat) (fd : fdsel) (size : Z) (acc : bytes) : M (bool * bytes) :=
  match fuel with
  | O => if zlen acc <? size then out_of_fuel else ret (true, acc)
  | S fuel' =>
      if zlen acc <? size then
        r <- read_fd fd (size - zlen acc) ;;
        let '(n, data) := r in
        if n =? -1 then
          e <- get_errno ;; throw (SystemException "Cannot read data from socket" e)
        else if n =? 0 then ret (false, acc)
        else readRaw_loop fuel' fd size (acc ++ data)
      else ret (true, acc)
  end.

Definition readRaw (fd : fdsel) (size : Z) : M (bool * bytes) :=
  readRaw_loop (Z.to_nat size) fd size [].

(** Modelled from the spec: [MessageChannel::writeRaw] writes all the bytes
    it is given to the descriptor. *)
Definition writeRaw (fd : fdsel) (data : bytes) : M unit := trace_event (EvWrite fd data).

(** [Application::Session] ([Application.h]): the calls are recorded. *)
Definition sendHeaders (data : bytes) : M unit := trace_event (EvSendHeaders data).
Definition sendBodyBlock (data : bytes) : M unit := trace_event (EvSendBodyBlock data).
Definition shutdownWriter : M unit := trace_event EvShutdownWriter.

(** ** [Client::sendRequestBody] *)

(** [sizeof(buf)] for [char buf[1024 * 16]]. *)
Definition BODY_BUF_SIZE : Z := 1024 * 16.

Fixpoint sendRequestBody_loop (fuel : nat) (contentLength bytesForwarded : Z) : M unit :=
  match fuel with
  | O => out_of_fuel
  | S fuel' =>
      let bytesToRead := to_ulong (contentLength - bytesForwarded) in
      let bytesToRead := if bytesToRead >? BODY_BUF_SIZE then BODY_BUF_SIZE else bytesToRead in
      r <- read_fd ClientFd bytesToRead ;;
      let '(size, buf) := r in
      if size =? 0 then ret tt
      else if size =? -1 then
        e <- get_errno ;; throw (SystemException "Cannot read request body" e)
      else
        sendBodyBlock buf ;;
        let bytesForwarded := to_ulong (bytesForwarded + size) in
        if bytesForwarded =? contentLength then ret tt
        else sendRequestBody_loop fuel' contentLength bytesForwarded
  end.

Definition sendRequestBody (partialRequestBody : bytes) (contentLength : Z) : M unit :=
  bytesForwarded <-
    (if zlen partialRequestBody >? 0 then
       sendBodyBlock partialRequestBody ;; ret (to_ulong (zlen partialRequestBody))
     else ret 0) ;;
  if bytesForwarded =? contentLength then ret tt
  else fun w => sendRequestBody_loop (S (weight (w_client w))) contentLength bytesForwarded w.

(** ** libc: [memcmp], [strlen], [atol] *)

(** [memcmp(s1, s2, n)]: zero when the first [n] bytes are the same, and
    else the difference of the first two bytes that differ, as [unsigned
    char]. Reading past the end of a buffer is undefined in C; a missing
    byte compares as different, and the theorems below are about buffers
    that hold [n] bytes. *)
Fixpoint memcmp (s1 s2 : bytes) (n : nat) {struct n} : Z :=
  match n with
  | O => 0
  | S n' =>
      match s1, s2 with
      | a :: s1', b :: s2' =>
          if Byte.eqb a b then memcmp s1' s2' n'
          else Z.of_N (Byte.to_N a) - Z.of_N (Byte.to_N b)
      | [], _ :: _ => -1
      | _, [] => 1
      end
  end.

(** The bytes of a C string: up to the first NUL. *)
Fixpoint c_string (s : bytes) : bytes :=
  match s with
  | [] => []
  | b :: s' => if Byte.eqb b NUL then [] else b :: c_string s'
  end.

Definition strlen (s : bytes) : Z := zlen (c_string s).

Definition isspace (b : byte) : bool :=
  let n := Z.of_N (Byte.to_N b) in (n =? 32) || ((9 <=? n) && (n <=? 13)).

Definition digit_value (b : byte) : option Z :=
  let n := Z.of_N (Byte.to_N b) in
  if (48 <=? n) && (n <=? 57) then Some (n - 48) else None.

Fixpoint skip_spaces (s : bytes) : bytes :=
  match s with
  | b :: s' => if isspace b then skip_spaces s' else s
  | [] => []
  end.

Fixpoint read_digits (s : bytes) (acc : Z) : Z :=
  match s with
  | b :: s' =>
      match digit_value b with
      | Some d => read_digits s' (acc * 10 + d)
      | None => acc
      end
  | [] => acc
  end.

Definition LONG_MAX : Z := 2 ^ 63 - 1.
Definition LONG_MIN : Z := - 2 ^ 63.

(** [atol(s)] is [strtol(s, NULL, 10)]: optional white space, an optional
    sign, then digits up to the first other byte; 0 when there is no digit.
    A value out of range is clamped, as glibc's [strtol] does. *)
Definition atol (s : bytes) : Z :=
  match skip_spaces s with
  | x2d :: s' => Z.max LONG_MIN (- read_digits s' 0)
  | x2b :: s' => Z.min LONG_MAX (read_digits s' 0)
  | s' => Z.min LONG_MAX (read_digits s' 0)
  end.

(** [toString(n)] ([Utils.h]): the decimal digits of [n]. *)
Definition toString (n : Z) : bytes :=
  lit (NilZero.string_of_uint (N.to_uint (Z.to_N n))).

(** ** The SCGI request parser and the HTTP status extractor

    [ScgiRequestParser.h] and [HttpStatusExtractor.h] are not part of this
    file: [Client] uses them through the operations below, and the
    embedding is parametric in them. *)

Module ScgiRequestParser.

Inductive State : Type :=
| READING_LENGTH_STRING
| READING_HEADER_DATA
| EXPECTING_COMMA
| DONE
| ERROR.

Definition State_eqb (a b : State) : bool :=
  match a, b with
  | READING_LENGTH_STRING, READING_LENGTH_STRING
  | READING_HEADER_DATA, READING_HEADER_DATA
  | EXPECTING_COMMA, EXPECTING_COMMA
  | DONE, DONE
  | ERROR, ERROR => true
  | _, _ => false
  end.

Class ops (P : Type) : Type := {
  init : P;                             (* a freshly constructed parser *)
  feed : P -> bytes -> P * Z;           (* the parser after, the bytes accepted *)
  acceptingInput : P -> bool;
  getState : P -> State;
  hasHeader : P -> bytes -> bool;
  getHeader : P -> bytes -> bytes;
  getHeaderData : P -> bytes
}.

End ScgiRequestParser.

Module HttpStatusExtractor.

Class ops (E : Type) : Type := {
  init : E;
  feed : E -> bytes -> E * bool;        (* true: the status line is known *)
  getStatusLine : E -> bytes;
  getBuffer : E -> bytes
}.

End HttpStatusExtractor.

(** The application pool and [canonicalizePath] ([Utils.h]) as the request
    sees them: [pool->get(options)] returns a session, given by the
    response its stream will deliver, or throws. *)
Record Env : Type := mkEnv {
  canonicalizePath : bytes -> exn + bytes;
  pool_get : PoolOptions -> exn + instream
}.

(** ** [class Client] *)

Section Client.

Context {P : Type} {parser_ops : ScgiRequestParser.ops P}.
Context {E : Type} {extractor_ops : HttpStatusExtractor.ops E}.

(** The fields of a [Client] that handling a request reads. *)
Variable env : Env.
Variable password : bytes.

(** [Client::readAndCheckPassword] *)
Definition readAndCheckPassword : M bool :=
  r <- readRaw ClientFd HELPER_SERVER_PASSWORD_SIZE ;;
  let '(ok, buf) := r in
  if ok then
    ret (memcmp password buf (Z.to_nat HELPER_SERVER_PASSWORD_SIZE) =? 0)
  else ret false.

(** [sizeof(buf)] for [char buf[1024 * 16]]. *)
Definition HEADER_BUF_SIZE : Z := 1024 * 16.

(** The [do ... while (parser.acceptingInput())] loop of
    [readAndParseRequestHeaders]; it returns the parser and the locals
    [buf], [size] and [accepted] as the loop leaves them. *)
Fixpoint readHeaders_loop (fuel : nat) (parser : P) (buf : bytes) (accepted : Z)
  : M (P * bytes * Z * Z) :=
  match fuel with
  | O => out_of_fuel
  | S fuel' =>
      r <- read_fd ClientFd HEADER_BUF_SIZE ;;
      let '(size, data) := r in
      if size =? -1 then
        e <- get_errno ;; throw (SystemException "Cannot read request header" e)
      else if size =? 0 then ret (parser, buf, size, accepted)
      else
        let '(parser', accepted') := ScgiRequestParser.feed parser data in
        if ScgiRequestParser.acceptingInput parser' then
          readHeaders_loop fuel' parser' data accepted'
        else ret (parser', data, size, accepted')
  end.

(** The loop, started with [accepted = 0]; every read that returns data
    shortens the pending input, which bounds the number of rounds. *)
Definition readHeaders (parser : P) : M (P * bytes * Z * Z) :=
  fun w => readHeaders_loop (S (weight (w_client w))) parser [] 0 w.

(** [requestBody.assign(buf + accepted, size - accepted)]: the count is a
    [size_t]; a count of more than [max_size()] throws [std::length_error]. *)
Definition assign_tail (buf : bytes) (size accepted : Z) : M bytes :=
  if size <? accepted then throw (StdException "basic_string::assign")
  else ret (firstn (Z.to_nat (size - accepted)) (skipn (Z.to_nat accepted) buf)).

(** [Client::readAndParseRequestHeaders]: the result, the parser and
    [requestBody]. *)
Definition readAndParseRequestHeaders (parser : P) (requestBody : bytes)
  : M (bool * P * bytes) :=
  r <- readHeaders parser ;;
  let '(parser, buf, size, accepted) := r in
  if negb (ScgiRequestParser.State_eqb (ScgiRequestParser.getState parser)
                                       ScgiRequestParser.DONE) then
    P_ERROR "Invalid SCGI header received." ;;
    ret (false, parser, requestBody)
  else if negb (ScgiRequestParser.hasHeader parser (lit "DOCUMENT_ROOT")) then
    P_ERROR "DOCUMENT_ROOT header is missing." ;;
    ret (false, parser, requestBody)
  else
    body <- assign_tail buf size accepted ;;
    ret (true, parser, body).

(** [sizeof(buf)] for [char buf[1024 * 32]]. *)
Definition RESPONSE_BUF_SIZE : Z := 1024 * 32.

(** The first loop of [forwardResponse]; it returns [eof]. *)
Fixpoint forwardResponse_extract (fuel : nat) (ex : E) : M bool :=
  match fuel with
  | O => out_of_fuel
  | S fuel' =>
      r <- read_fd SessionStream RESPONSE_BUF_SIZE ;;
      let '(size, buf) := r in
      if size =? 0 then ret true
      else if size =? -1 then
        e <- get_errno ;;
        throw (SystemException "Cannot read response from backend process" e)
      else
        let '(ex', found) := HttpStatusExtractor.feed ex buf in
        if found then
          let statusLine := lit "HTTP/1.1 " ++ HttpStatusExtractor.getStatusLine ex' in
          writeRaw ClientFd statusLine ;;
          writeRaw ClientFd (HttpStatusExtractor.getBuffer ex') ;;
          ret false
        else forwardResponse_extract fuel' ex'
  end.

(** The second loop of [forwardResponse]. *)
Fixpoint forwardResponse_pump (fuel : nat) : M unit :=
  match fuel with
  | O => out_of_fuel
  | S fuel' =>
      r <- read_fd SessionStream RESPONSE_BUF_SIZE ;;
      let '(size, buf) := r in
      if size =? 0 then ret tt
      else if size =? -1 then
        e <- get_errno ;;
        throw (SystemException "Cannot read response from backend process" e)
      else
        writeRaw ClientFd buf ;;
        forwardResponse_pump fuel'
  end.

(** [Client::forwardResponse] *)
Definition forwardResponse : M unit :=
  eof <- (fun w => forwardResponse_extract (S (weight (w_session w)))
                                           HttpStatusExtractor.init w) ;;
  if eof then ret tt
  else fun w => forwardResponse_pump (S (weight (w_session w))) w.

(** [Client::handleSpawnException] *)
Definition handleSpawnException (e : SpawnException) : M unit :=
  writeRaw ClientFd (lit "HTTP/1.1 500 Internal Server Error" ++ CRLF) ;;
  writeRaw ClientFd (lit "Status: 500 Internal Server Error" ++ CRLF) ;;
  writeRaw ClientFd (lit "Connection: close" ++ CRLF) ;;
  writeRaw ClientFd (lit "Content-Type: text/html; charset=utf-8" ++ CRLF) ;;
  if hasErrorPage e then
    writeRaw ClientFd (lit "Content-Length: " ++ toString (zlen (getErrorPage e)) ++ CRLF) ;;
    writeRaw ClientFd CRLF ;;
    writeRaw ClientFd (getErrorPage e)
  else
    writeRaw ClientFd (lit "Content-Length: " ++ toString (strlen (what e)) ++ CRLF) ;;
    writeRaw ClientFd CRLF ;;
    writeRaw ClientFd (c_string (what e)).

Definition call_canonicalizePath (path : bytes) : M bytes :=
  fun w =>
    match canonicalizePath env path with
    | inl e => (Throw e, emit (EvCanonicalize path) w)
    | inr p => (Ok p, emit (EvCanonicalize path) w)
    end.

(** [pool->get(options)]: the session's stream becomes readable. *)
Definition call_pool_get (options : PoolOptions) : M unit :=
  fun w =>
    match pool_get env options with
    | inl e => (Throw e, emit (EvPoolGet options) w)
    | inr stream => (Ok tt, emit (EvPoolGet options) (set_pending SessionStream stream w))
    end.

(** [contentLength = atol(parser.getHeader("CONTENT_LENGTH").c_str())],
    converted to [unsigned long]. *)
Definition contentLength_of (parser : P) : Z :=
  to_ulong (atol (ScgiRequestParser.getHeader parser (lit "CONTENT_LENGTH"))).

(** The argument of [canonicalizePath]. *)
Definition app_root_path (parser : P) : bytes :=
  ScgiRequestParser.getHeader parser (lit "DOCUMENT_ROOT") ++ lit "/..".

(** [PoolOptions options(root)] and the three assignments that follow. *)
Definition options_of (parser : P) (root : bytes) : PoolOptions :=
  {| appRoot := root;
     useGlobalQueue :=
       bytes_eqb (ScgiRequestParser.getHeader parser (lit "PASSENGER_USE_GLOBAL_QUEUE"))
                 (lit "true");
     environment := ScgiRequestParser.getHeader parser (lit "PASSENGER_ENVIRONMENT");
     spawnMethod := ScgiRequestParser.getHeader parser (lit "PASSENGER_SPAWN_METHOD") |}.

(** The [try] block of [handleRequest]. *)
Definition handleRequest_try (parser : P) (partialRequestBody : bytes) : M bool :=
  root <- call_canonicalizePath (app_root_path parser) ;;
  let options := options_of parser root in
  try_catch
    (call_pool_get options ;;
     sendHeaders (ScgiRequestParser.getHeaderData parser) ;;
     let contentLength := contentLength_of parser in
     sendRequestBody partialRequestBody contentLength ;;
     shutdownWriter ;;
     forwardResponse)
    (fun e =>
       match e with
       | Spawn se => handleSpawnException se
       | _ => throw e
       end) ;;
  ret false.

(** The [catch] clauses of [handleRequest]. *)
Definition handleRequest_catch (e : exn) : M bool :=
  match e with
  | thread_interrupted => throw e
  | _ =>
      if is_tracable e then
        P_ERROR "Uncaught exception in PassengerServer client thread" ;;
        ret true
      else if is_std_exception e then
        P_ERROR "Uncaught exception in PassengerServer client thread" ;;
        ret true
      else
        P_ERROR "Uncaught unknown exception in PassengerServer client thread." ;;
        ret true
  end.

(** [handleRequest] from the point where the password has been accepted. *)
Definition handleRequest_authenticated : M bool :=
  r <- readAndParseRequestHeaders ScgiRequestParser.init [] ;;
  let '(ok, parser, partialRequestBody) := r in
  if negb ok then ret true
  else try_catch (handleRequest_try parser partialRequestBody) handleRequest_catch.

(** [Client::handleRequest] *)
Definition handleRequest : M bool :=
  ok <- readAndCheckPassword ;;
  if negb ok then
    P_ERROR "Client did not send a correct password." ;;
    ret true
  else handleRequest_authenticated.

End Client.

(** The specification's [Completed]: [handleRequest] returns, with either
    value; [threadMain] does not look at it. *)
Definition Completed (r : result bool) : Prop := exists b, r = Ok b.

(** The chunks [forwardResponse] feeds to the extractor, one per read: the
    extractor after the last one, and whether that one gave the status line.
    A chunk is fed only while the extractor has not reported it. *)
Inductive fed {E : Type} {extractor_ops : HttpStatusExtractor.ops E}
  : E -> list bytes -> E -> bool -> Prop :=
| fed_none (ex : E) : fed ex [] ex false
| fed_found (ex : E) (chunk : bytes) (ex' : E) :
    chunk <> [] ->
    HttpStatusExtractor.feed ex chunk = (ex', true) ->
    fed ex [chunk] ex' true
| fed_more (ex : E) (chunk : bytes) (ex1 : E) (chunks : list bytes) (ex' : E) (found : bool) :
    chunk <> [] ->
    HttpStatusExtractor.feed ex chunk = (ex1, false) ->
    fed ex1 chunks ex' found ->
    fed ex (chunk :: chunks) ex' found.

(** The 500 response of the specification for a spawn failure: the five
    header lines, an empty line, the body; the body is the error page if
    there is one, else the message. *)
Definition spawn_failure_body (e : SpawnException) : bytes :=
  if hasErrorPage e then getErrorPage e else c_string (what e).

Definition spawn_failure_response (e : SpawnException) : bytes :=
  lit "HTTP/1.1 500 Internal Server Error" ++ CRLF ++
  lit "Status: 500 Internal Server Error" ++ CRLF ++
  lit "Connection: close" ++ CRLF ++
  lit "Content-Type: text/html; charset=utf-8" ++ CRLF ++
  lit "Content-Length: " ++ toString (zlen (spawn_failure_body e)) ++ CRLF ++
  CRLF ++
  spawn_failure_body e.

(** ** [class Server] and [main] *)

(** The fields of a [Server] object. *)
Record Server : Type := mkServer {
  server_password : bytes;
  server_adminPipe : Z;
  serverSocket : Z;
  numberOfThreads : Z;
  clients : list Client;
  server_pool : Pool
}.

(** What the system and the collaborators answer during startup: a system
    call gives its return value and [errno]; a constructor or function of
    another file returns or throws. *)
Record StartupEnv : Type := mkStartupEnv {
  getPassengerTempDir : bytes;
  createPassengerTempDir : option exn;
  new_StandardApplicationPool : option exn;
  sys_socket : Z * Z;
  sys_bind : Z * Z;
  sys_listen : Z * Z;
  sys_chmod : Z * Z;
  new_thread : Z -> option exn;      (* the thread of the client with this number *)
  new_StatusReporter : option exn
}.

(** [static const unsigned int BACKLOG_SIZE = 50] *)
Definition BACKLOG_SIZE : Z := 50.

(** [sizeof(addr.sun_path)] of [struct sockaddr_un] ([sys/un.h], Linux). *)
Definition SUN_PATH_SIZE : Z := 108.

(** [sys/stat.h] *)
Definition S_ISVTX : Z := 512.
Definition S_IRUSR : Z := 256.
Definition S_IWUSR : Z := 128.
Definition S_IXUSR : Z := 64.
Definition S_IRGRP : Z := 32.
Definition S_IWGRP : Z := 16.
Definition S_IXGRP : Z := 8.
Definition S_IROTH : Z := 4.
Definition S_IWOTH : Z := 2.
Definition S_IXOTH : Z := 1.

(** A system call: the event, then the return value; [errno] is set on -1. *)
Definition syscall (ev : event) (answer : Z * Z) : M Z :=
  fun w =>
    let w' := if fst answer =? -1 then set_errno (snd answer) w else w in
    (Ok (fst answer), emit ev w').

(** A constructor or function of another file, which may throw. *)
Definition call (ev : event) (answer : option exn) : M unit :=
  fun w =>
    match answer with
    | Some e => (Throw e, emit ev w)
    | None => (Ok tt, emit ev w)
    end.

(** Arguments 1 to 7 of the command line. *)
Record Args : Type := mkArgs {
  arg_rootDir : bytes;
  arg_ruby : bytes;
  arg_adminPipe : bytes;
  arg_logLevel : bytes;
  arg_maxPoolSize : bytes;
  arg_maxInstancesPerApp : bytes;
  arg_poolIdleTime : bytes
}.

(** [atoi(s)] is [(int) strtol(s, NULL, 10)]. *)
Definition atoi (s : bytes) : Z :=
  (atol s + 2 ^ 31) mod 2 ^ 32 - 2 ^ 31.

Section Startup.

Variable senv : StartupEnv.

Definition socket_mode : Z :=
  Z.lor S_ISVTX
    (Z.lor (Z.lor (Z.lor S_IRUSR S_IWUSR) S_IXUSR)
       (Z.lor (Z.lor (Z.lor S_IRGRP S_IWGRP) S_IXGRP)
          (Z.lor (Z.lor S_IROTH S_IWOTH) S_IXOTH))).

Definition bind_failure_message (socketName : bytes) : string :=
  ("Cannot bind on Unix socket '" ++ string_of_list_byte socketName ++ "'")%string.

(** [Server::startListening]; it returns [serverSocket]. *)
Definition startListening : M Z :=
  let socketName := getPassengerTempDir senv ++ lit "/helper_server.sock" in
  serverSocket <- syscall EvSocket (sys_socket senv) ;;
  if serverSocket =? -1 then
    e <- get_errno ;;
    throw (SystemException "Cannot create an unconnected Unix socket" e)
  else
    (* strncpy, then sun_path[sizeof(sun_path) - 1] = 0 *)
    let sun_path := firstn (Z.to_nat (SUN_PATH_SIZE - 1)) (c_string socketName) in
    r <- syscall (EvBind serverSocket sun_path) (sys_bind senv) ;;
    if r =? -1 then
      e <- get_errno ;;
      trace_event (EvCloseSocket serverSocket) ;;
      throw (SystemException (bind_failure_message socketName) e)
    else
      r <- syscall (EvListen serverSocket BACKLOG_SIZE) (sys_listen senv) ;;
      if r =? -1 then
        e <- get_errno ;;
        trace_event (EvCloseSocket serverSocket) ;;
        throw (SystemException (bind_failure_message socketName) e)
      else
        syscall (EvChmod (c_string socketName) socket_mode) (sys_chmod senv) ;;
        ret serverSocket.

(** The constructor of [Server]; [maxPoolSize], [maxInstancesPerApp] and
    [poolIdleTime] are [unsigned int]. *)
Definition Server_new (password rootDir ruby : bytes)
           (adminPipe maxPoolSize maxInstancesPerApp poolIdleTime : Z) : M Server :=
  let numberOfThreads := to_uint (maxPoolSize * 4) in
  call EvCreateTempDir (createPassengerTempDir senv) ;;
  let pool := {| spawnServerCommand := rootDir ++ lit "/bin/passenger-spawn-server";
                 pool_ruby := ruby;
                 pool_max := maxPoolSize;
                 pool_maxPerApp := maxInstancesPerApp;
                 pool_maxIdleTime := poolIdleTime |} in
  call (EvNewPool pool) (new_StandardApplicationPool senv) ;;
  serverSocket <- startListening ;;
  ret {| server_password := password;
          server_adminPipe := adminPipe;
          serverSocket := serverSocket;
          numberOfThreads := numberOfThreads;
          clients := [];
          server_pool := pool |}.

(** The constructor of [Client], which starts the thread. *)
Definition Client_new (number : Z) (pool : Pool) (password : bytes) (serverSocket : Z)
  : M Client :=
  let c := {| client_number := number; client_pool := pool;
              client_password := password; client_serverSocket := serverSocket |} in
  call (EvNewClient c) (new_thread senv number) ;;
  ret c.

(** [for (unsigned int i = 0; i < numberOfThreads; i++)], with [todo] the
    rounds left. *)
Fixpoint startClientHandlerThreads_loop (todo : nat) (i : Z) (s : Server) : M Server :=
  match todo with
  | O => ret s
  | S todo' =>
      client <- Client_new (to_uint (i + 1)) (server_pool s) (server_password s)
                           (serverSocket s) ;;
      let s' := {| server_password := server_password s;
                   server_adminPipe := server_adminPipe s;
                   serverSocket := serverSocket s;
                   numberOfThreads := numberOfThreads s;
                   clients := clients s ++ [client];
                   server_pool := server_pool s |} in
      startClientHandlerThreads_loop todo' (to_uint (i + 1)) s'
  end.

(** [Server::startClientHandlerThreads] *)
Definition startClientHandlerThreads (s : Server) : M Server :=
  startClientHandlerThreads_loop (Z.to_nat (numberOfThreads s)) 0 s.

(** [Server::start]: the result of the read of the admin pipe is not
    looked at. *)
Definition Server_start (s : Server) : M Server :=
  s' <- startClientHandlerThreads s ;;
  call EvNewStatusReporter (new_StatusReporter senv) ;;
  try_catch (read_fd AdminPipe 1 ;; ret tt)
    (fun e => match e with thread_interrupted => ret tt | _ => throw e end) ;;
  ret s'.

(** The destructor of [Server]. *)
Definition Server_delete (s : Server) : M unit :=
  P_DEBUG "Shutting down helper server..." ;;
  trace_event EvClearClients ;;
  P_TRACE "All threads have been shut down." ;;
  trace_event (EvCloseSocket (serverSocket s)) ;;
  trace_event (EvClose AdminPipe).

(** [receivePassword] *)
Definition receivePassword : M bytes :=
  r <- (readRaw AdminPipe HELPER_SERVER_PASSWORD_SIZE) ;;
  let '(ok, buf) := r in
  if negb ok then throw (IOException "Could not read password from the admin pipe.")
  else ret buf.

(** The [try] block of [main]. [Server(...).start()] builds a temporary,
    which is destroyed when [start] returns or throws. *)
Definition main_try (args : Args) : M unit :=
  let rootDir := arg_rootDir args in
  let ruby := arg_ruby args in
  let adminPipe := atoi (arg_adminPipe args) in
  let maxPoolSize := atoi (arg_maxPoolSize args) in
  let maxInstancesPerApp := atoi (arg_maxInstancesPerApp args) in
  let poolIdleTime := atoi (arg_poolIdleTime args) in
  P_DEBUG "Passenger helper server started" ;;
  password <- receivePassword ;;
  P_TRACE "Password received." ;;
  (* the [int] arguments are converted to [unsigned int] *)
  server <- Server_new password rootDir ruby adminPipe (to_uint maxPoolSize)
                       (to_uint maxInstancesPerApp) (to_uint poolIdleTime) ;;
  fun w =>
    match Server_start server w with
    | (Ok _, w') => Server_delete server w'
    | (Throw e, w') => (Throw e, snd (Server_delete server w'))
    | (OutOfFuel, w') => (OutOfFuel, w')
    end.

(** How the process ends. *)
Inductive exit_status : Type :=
| Exit (code : Z)        (* [main] returns [code] *)
| Terminated (e : exn)   (* [throw;] out of [main] *)
| NoExit.

(** [main] *)
Definition main (args : Args) (w : World) : exit_status * World :=
  match main_try args w with
  | (Ok _, w') => (Exit 0, w')
  | (Throw e, w') =>
      if is_tracable e then (Exit 1, emit (EvLog "exception with backtrace") w')
      else if is_std_exception e then (Exit 1, emit (EvLog "exception") w')
      else (Terminated e, emit (EvLog "Unknown exception thrown in main thread.") w')
  | (OutOfFuel, w') => (NoExit, w')
  end.

End Startup.

(** The [Server] that [main] constructs from its arguments. *)
Definition Server_of_args (senv : StartupEnv) (args : Args) (password : bytes) : M Server :=
  Server_new senv password (arg_rootDir args) (arg_ruby args) (atoi (arg_adminPipe args))
             (to_uint (atoi (arg_maxPoolSize args)))
             (to_uint (atoi (arg_maxInstancesPerApp args)))
             (to_uint (atoi (arg_poolIdleTime args))).

(** A client made for this server. *)
Definition client_of (s : Server) (c : Client) : Prop :=
  client_pool c = server_pool s /\
  client_password c = server_password s /\
  client_serverSocket c = serverSocket s.

(** ** The parser and the extractor of the specification

    Instances of the two interfaces, used to run [handleRequest] on
    concrete connections. *)

Module SpecParser.

Import ScgiRequestParser.

Record t : Type := mk {
  state : State;
  digits : nat;          (* digits of the length read so far *)
  remaining : Z;         (* the length; then the header bytes still missing *)
  headerData : bytes
}.

(** The limit on the length of the header block, 128 KiB. *)
Definition MAX_HEADER_SIZE : Z := 128 * 1024.

Definition failed (p : t) : t := mk ERROR (digits p) (remaining p) (headerData p).

Fixpoint count_nul (s : bytes) : nat :=
  match s with
  | [] => O
  | b :: s' => if Byte.eqb b NUL then S (count_nul s') else count_nul s'
  end.

(** A header block is a sequence of NUL-terminated keys and values. *)
Definition well_terminated (s : bytes) : bool :=
  match rev s with
  | [] => true
  | b :: _ => Byte.eqb b NUL && Nat.even (count_nul s)
  end.

Definition header_complete (p : t) : t :=
  if well_terminated (headerData p)
  then mk EXPECTING_COMMA (digits p) 0 (headerData p)
  else failed p.

Definition step (p : t) (b : byte) : t :=
  match state p with
  | READING_LENGTH_STRING =>
      match digit_value b with
      | Some d =>
          if (Nat.ltb 0 (digits p) && (remaining p =? 0))%bool then failed p
          else
            let n := remaining p * 10 + d in
            if n >? MAX_HEADER_SIZE then failed p
            else mk READING_LENGTH_STRING (S (digits p)) n (headerData p)
      | None =>
          if (Byte.eqb b x3a && Nat.ltb 0 (digits p))%bool then
            if remaining p =? 0 then header_complete p
            else mk READING_HEADER_DATA (digits p) (remaining p) []
          else failed p
      end
  | READING_HEADER_DATA =>
      let p' := mk READING_HEADER_DATA (digits p) (remaining p - 1) (headerData p ++ [b]) in
      if remaining p' =? 0 then header_complete p' else p'
  | EXPECTING_COMMA =>
      if Byte.eqb b x2c then mk DONE (digits p) 0 (headerData p) else failed p
  | DONE => p
  | ERROR => p
  end.

Definition accepting (p : t) : bool :=
  match state p with
  | DONE | ERROR => false
  | _ => true
  end.

Fixpoint feed_bytes (p : t) (data : bytes) (consumed : Z) : t * Z :=
  match data with
  | [] => (p, consumed)
  | b :: rest =>
      if accepting p then feed_bytes (step p b) rest (consumed + 1)
      else (p, consumed)
  end.

Fixpoint split_nul (s cur : bytes) : list bytes :=
  match s with
  | [] => []
  | b :: s' => if Byte.eqb b NUL then cur :: split_nul s' [] else split_nul s' (cur ++ [b])
  end.

(** Keys and values alternate; the first occurrence of a key counts. *)
Fixpoint lookup (fields : list bytes) (name : bytes) : option bytes :=
  match fields with
  | k :: v :: rest => if bytes_eqb k name then Some v else lookup rest name
  | _ => None
  end.

Definition header (p : t) (name : bytes) : option bytes :=
  lookup (split_nul (headerData p) []) name.

End SpecParser.

(** Modelled from the spec: the frame parser ([ScgiRequestParser.h] is not
    part of this file). States [READ_LENGTH], [READ_HEADER], [EXPECT_COMMA],
    [DONE] and [ERROR]; the length is a canonical decimal of at most 128 KiB
    followed by [':']; exactly that many header bytes are buffered; the next
    byte must be [',']. [feed] returns the number of bytes consumed;
    [acceptingInput] holds in every state but [DONE] and [ERROR]; a header
    that is absent reads as the empty string. *)
#[export] Instance SpecParser_ops : ScgiRequestParser.ops SpecParser.t := {|
  ScgiRequestParser.init := SpecParser.mk ScgiRequestParser.READING_LENGTH_STRING O 0 [];
  ScgiRequestParser.feed := fun p data => SpecParser.feed_bytes p data 0;
  ScgiRequestParser.acceptingInput := SpecParser.accepting;
  ScgiRequestParser.getState := SpecParser.state;
  ScgiRequestParser.hasHeader := fun p name =>
    match SpecParser.header p name with Some _ => true | None => false end;
  ScgiRequestParser.getHeader := fun p name =>
    match SpecParser.header p name with Some v => v | None => [] end;
  ScgiRequestParser.getHeaderData := SpecParser.headerData
|}.

Module SpecExtractor.

Record t : Type := mk {
  buffer : bytes;         (* every byte fed so far *)
  statusLine : bytes;     (* the status line, without a line terminator *)
  done : bool             (* "status available" has been reported *)
}.

Fixpoint prefixb (p s : bytes) : bool :=
  match p, s with
  | [], _ => true
  | a :: p', b :: s' => Byte.eqb a b && prefixb p' s'
  | _ :: _, [] => false
  end.

(** What follows the first occurrence of [p] in [s]. *)
Fixpoint after (p s : bytes) : option bytes :=
  match s with
  | [] => None
  | _ :: s' => if prefixb p s then Some (skipn (List.length p) s) else after p s'
  end.

(** The bytes of [s] before its first CRLF, if it has one. *)
Fixpoint line (s : bytes) : option bytes :=
  match s with
  | [] => None
  | b :: s' =>
      if prefixb CRLF s then Some []
      else match line s' with Some l => Some (b :: l) | None => None end
  end.

(** The header block as far as it has come: [s] up to and including the
    first empty line, and whether that line has been seen. *)
Fixpoint header_block (s : bytes) : bytes * bool :=
  match s with
  | [] => ([], false)
  | b :: s' =>
      if prefixb (CRLF ++ CRLF) s then (CRLF ++ CRLF, true)
      else let '(h, ended) := header_block s' in (b :: h, ended)
  end.

(** The value of the [Status] header of a header block, when the header is
    there, at the start of the block or of a later line, and its line is
    terminated by CRLF. *)
Definition status_header (head : bytes) : option bytes :=
  if prefixb (lit "Status: ") head then line (skipn 8 head)
  else match after (CRLF ++ lit "Status: ") head with
       | Some rest => line rest
       | None => None
       end.

Definition feed (ex : t) (data : bytes) : t * bool :=
  let buf := buffer ex ++ data in
  if done ex then (mk buf (statusLine ex) true, false)
  else
    let '(head, ended) := header_block buf in
    match status_header head with
    | Some l => (mk buf l true, true)
    | None =>
        if ended then (mk buf (lit "200 OK") true, true)
        else (mk buf (statusLine ex) false, false)
    end.

End SpecExtractor.

(** Modelled from the spec: the status extractor ([HttpStatusExtractor.h] is
    not part of this file). Every byte fed is appended to the buffer. The
    status is available once the header block holds a [Status] header whose
    value, a status line such as [200 OK], is terminated by CRLF, or once
    the end of the header block has come without one, where the status line
    defaults to [200 OK]. The status line is the value alone, without the
    CRLF. [feed] reports the status at most once. *)
#[export] Instance SpecExtractor_ops : HttpStatusExtractor.ops SpecExtractor.t := {|
  HttpStatusExtractor.init := SpecExtractor.mk [] [] false;
  HttpStatusExtractor.feed := SpecExtractor.feed;
  HttpStatusExtractor.getStatusLine := SpecExtractor.statusLine;
  HttpStatusExtractor.getBuffer := SpecExtractor.buffer
|}.

(** ** Concrete connections *)

(** A request whose first five body bytes came with the header; the client
    sends seven more. *)
Definition split_body_world : World :=
  mkWorld [Chunk (lit " world"); Chunk (lit "!")] [] [] 0 [].

(** The password of scenario 1 and the 64 zero bytes of scenario 4. *)
Definition secretA : bytes := repeat x41 64.
Definition zeros64 : bytes := repeat x00 64.

(** An SCGI header block with [DOCUMENT_ROOT], and one without it. *)
Definition frame_root : bytes :=
  lit "17:DOCUMENT_ROOT" ++ [NUL] ++ lit "/r" ++ [NUL] ++ lit ",".
Definition frame_no_root : bytes :=
  lit "19:REQUEST_METHOD" ++ [NUL] ++ lit "GET" ++ [NUL] ++ lit ",".
Definition frame_post : bytes :=
  lit "35:DOCUMENT_ROOT" ++ [NUL] ++ lit "/r" ++ [NUL] ++
  lit "CONTENT_LENGTH" ++ [NUL] ++ lit "11" ++ [NUL] ++ lit ",".

(** A pool whose session answers with a response of scenario 1. *)
Definition env_ok : Env :=
  mkEnv (fun p => inr p)
        (fun _ => inr [Chunk (lit "Status: 200 OK" ++ CRLF ++ CRLF ++ lit "hi")]).

(** A pool that cannot spawn, with and without an error page. *)
Definition oops_page : SpawnException :=
  mkSpawnException (lit "Cannot spawn application") true (lit "<h1>oops</h1>").
Definition oops_text : SpawnException :=
  mkSpawnException (lit "Cannot spawn application") false [].
Definition env_spawn_failure (e : SpawnException) : Env :=
  mkEnv (fun p => inr p) (fun _ => inl (Spawn e)).

Definition client_sends (data : list bytes) : World :=
  mkWorld (map Chunk data) [] [] 0 [].

(** Scenario 4: the client sends 64 zero bytes. *)
Definition bad_password_world : World := client_sends [zeros64].

(** Scenario 1: password, header block, no body. *)
Definition happy_get_world : World := client_sends [secretA ++ frame_root].

Definition default_status_world : World :=
  mkWorld [] [Chunk (lit "Content-Type: text/plain" ++ CRLF ++ CRLF ++ lit "body")] [] 0 [].

(** Scenario 5: a valid header block without [DOCUMENT_ROOT]. *)
Definition missing_root_world : World := client_sends [secretA ++ frame_no_root].

(** The parsers the header blocks above leave behind. *)
Definition parser_root : SpecParser.t :=
  SpecParser.mk ScgiRequestParser.DONE 2 0 (lit "DOCUMENT_ROOT" ++ [NUL] ++ lit "/r" ++ [NUL]).
Definition parser_no_root : SpecParser.t :=
  SpecParser.mk ScgiRequestParser.DONE 2 0 (lit "REQUEST_METHOD" ++ [NUL] ++ lit "GET" ++ [NUL]).

(** Scenario 2: the first five body bytes come with the header block, the
    other six later; [CONTENT_LENGTH] is 11. *)
Definition happy_post_world : World :=
  client_sends [secretA ++ frame_post ++ lit "hello"; lit " world"].

(** ** Concrete startups *)

(** Every system call and constructor succeeds; the socket is descriptor 4. *)
Definition senv_ok : StartupEnv :=
  {| getPassengerTempDir := lit "/tmp/passenger.1234";
     createPassengerTempDir := None;
     new_StandardApplicationPool := None;
     sys_socket := (4, 0);
     sys_bind := (0, 0);
     sys_listen := (0, 0);
     sys_chmod := (0, 0);
     new_thread := fun _ => None;
     new_StatusReporter := None |}.

(** The same, but [chmod] fails with [EPERM]. *)
Definition senv_chmod_fails : StartupEnv :=
  {| getPassengerTempDir := lit "/tmp/passenger.1234";
     createPassengerTempDir := None;
     new_StandardApplicationPool := None;
     sys_socket := (4, 0);
     sys_bind := (0, 0);
     sys_listen := (0, 0);
     sys_chmod := (-1, 1);
     new_thread := fun _ => None;
     new_StatusReporter := None |}.

(** The same as [senv_ok], but [bind] fails with [EADDRINUSE]. *)
Definition senv_bind_fails : StartupEnv :=
  {| getPassengerTempDir := lit "/tmp/passenger.1234";
     createPassengerTempDir := None;
     new_StandardApplicationPool := None;
     sys_socket := (4, 0);
     sys_bind := (-1, 98);
     sys_listen := (0, 0);
     sys_chmod := (0, 0);
     new_thread := fun _ => None;
     new_StatusReporter := None |}.

Definition args_with (maxPoolSize : string) : Args :=
  {| arg_rootDir := lit "/opt/passenger";
     arg_ruby := lit "/usr/bin/ruby";
     arg_adminPipe := lit "3";
     arg_logLevel := lit "0";
     arg_maxPoolSize := lit maxPoolSize;
     arg_maxInstancesPerApp := lit "0";
     arg_poolIdleTime := lit "120" |}.

(** The admin pipe delivers the password and is then closed; or it is
    closed after 10 bytes. *)
Definition admin_sends (data : list bytes) : World := mkWorld [] [] (map Chunk data) 0 [].
Definition clean_shutdown_world : World := admin_sends [secretA].
Definition short_password_world : World := admin_sends [firstn 10 secretA].

(** ** Failing reads, and the kinds of events of a request *)

(** The [errno] of the first read error of a descriptor, if its input holds
    one. *)
Fixpoint first_error (s : instream) : option Z :=
  match s with
  | [] => None
  | Chunk _ :: s' => first_error s'
  | ReadError e :: _ => Some e
  end.

(** How a loop that reads a descriptor to the end of its input ends: it
    returns when the input ends, and throws on the first failing read. *)
Definition read_to_end (msg : string) (s : instream) : result unit :=
  match first_error s with
  | None => Ok tt
  | Some e => Throw (SystemException msg e)
  end.

(** How a loop that wants [gap] more bytes of a descriptor ends: it returns
    when the input holds them, and else as [read_to_end]. *)
Definition read_up_to (msg : string) (gap : nat) (s : instream) : result unit :=
  if Nat.leb gap (List.length (stream_bytes s)) then Ok tt else read_to_end msg s.

(** A read of the client that asks for no more than the 16 KiB buffer of
    [sendRequestBody] holds, or a body block. *)
Definition is_buffered_body_event (ev : event) : Prop :=
  match ev with
  | EvRead ClientFd count _ => 1 <= count <= BODY_BUF_SIZE
  | EvSendBodyBlock _ => True
  | _ => False
  end.

(** What [handleRequest] can add to the trace: everything but accepting and
    closing connections and the actions of startup. *)
Definition is_request_event (ev : event) : Prop :=
  match ev with
  | EvRead ClientFd _ _ | EvRead SessionStream _ _ | EvWrite ClientFd _ | EvLog _
  | EvCanonicalize _ | EvPoolGet _ | EvSendHeaders _ | EvSendBodyBlock _
  | EvShutdownWriter => True
  | _ => False
  end.

(** The exceptions that can leave [handleRequest]. *)
Definition escapes_handleRequest (e : exn) : Prop :=
  e = thread_interrupted \/
  (exists code, e = SystemException "Cannot read data from socket" code) \/
  (exists code, e = SystemException "Cannot read request header" code) \/
  e = StdException "basic_string::assign".

(** The client sends four body bytes, then the connection is reset
    ([ECONNRESET]). *)
Definition reset_body_world : World :=
  mkWorld [Chunk (lit " wor"); ReadError 104] [] [] 0 [].


(** The backend delivers the header block and three bytes of the page, then
    its stream fails with [ECONNRESET]. *)
Definition reset_response_world : World :=
  mkWorld [] [Chunk (lit "Status: 404 Not Found" ++ CRLF ++ CRLF); Chunk (lit "par");
              ReadError 104] [] 0 [].


(** The request of scenario 2, but the connection is reset after four of
    the six body bytes that were still to come. *)
Definition reset_post_world : World :=
  mkWorld [Chunk (secretA ++ frame_post ++ lit "hello"); Chunk (lit " wor"); ReadError 104]
          [] [] 0 [].

(** The parser the header block of scenario 2 leaves behind. *)
Definition parser_post : SpecParser.t :=
  SpecParser.mk ScgiRequestParser.DONE 2 0
    (lit "DOCUMENT_ROOT" ++ [NUL] ++ lit "/r" ++ [NUL] ++
     lit "CONTENT_LENGTH" ++ [NUL] ++ lit "11" ++ [NUL]).

(** A pool whose session fails while it answers, a pool that cannot be
    reached, a path that cannot be resolved, and a pool whose [get] is
    interrupted. *)
Definition env_reset_response : Env :=
  mkEnv (fun p => inr p) (fun _ => inr (w_session reset_response_world)).
Definition env_pool_unreachable : Env :=
  mkEnv (fun p => inr p) (fun _ => inl (IOException "Cannot connect to the spawn server")).
Definition env_no_such_root : Env :=
  mkEnv (fun _ => inl (SystemException "Cannot canonicalize path" 2)) (fun _ => inr []).
Definition env_interrupted : Env :=
  mkEnv (fun p => inr p) (fun _ => inl thread_interrupted).

(** The connections above after the password, and after the header block. *)
Definition happy_get_world1 : World :=
  mkWorld [Chunk frame_root] [] [] 0 [EvRead ClientFd 64 64].
Definition happy_get_world2 : World :=
  mkWorld [] [] [] 0 [EvRead ClientFd 64 64; EvRead ClientFd 16384 21].
Definition happy_post_world1 : World :=
  mkWorld [Chunk (frame_post ++ lit "hello"); Chunk (lit " world")] [] [] 0
          [EvRead ClientFd 64 64].
Definition happy_post_world2 : World :=
  mkWorld [Chunk (lit " world")] [] [] 0 [EvRead ClientFd 64 64; EvRead ClientFd 16384 44].
Definition reset_post_world1 : World :=
  mkWorld [Chunk (frame_post ++ lit "hello"); Chunk (lit " wor"); ReadError 104] [] [] 0
          [EvRead ClientFd 64 64].
Definition reset_post_world2 : World :=
  mkWorld [Chunk (lit " wor"); ReadError 104] [] [] 0
          [EvRead ClientFd 64 64; EvRead ClientFd 16384 44].


(** ** [Client::acceptConnection], [FileDescriptor] and [Client::threadMain] *)

(** Modelled from the spec: what the system answers when the thread calls
    [accept]. A connection is given by the input it will deliver and by what
    [close] will answer for it, the return value and [errno]; a failure by
    its [errno]; and [accept] is where a worker that waits is cancelled: the
    call throws [thread_interrupted]. *)
Inductive accept_answer : Type :=
| Connection (input : instream) (close : Z * Z)
| AcceptFails (errno : Z)
| AcceptInterrupted.

(** [syscalls::accept(serverSocket, ...)]: the accepted descriptor, which
    stands here for what [close] will answer, or nothing for -1. *)
Definition sys_accept (a : accept_answer) : M (option (Z * Z)) :=
  fun w =>
    match a with
    | Connection input close => (Ok (Some close), emit EvAccept (set_pending ClientFd input w))
    | AcceptFails e => (Ok None, emit EvAccept (set_errno e w))
    | AcceptInterrupted => (Throw thread_interrupted, emit EvAccept w)
    end.

(** [Client::acceptConnection] *)
Definition acceptConnection (a : accept_answer) : M (Z * Z) :=
  fd <- sys_accept a ;;
  match fd with
  | None => e <- get_errno ;; throw (SystemException "Cannot accept new connection" e)
  | Some fd => ret fd
  end.

(** [FileDescriptor::SharedData::~SharedData], which runs when the last
    copy of the [FileDescriptor] is destroyed. *)
Definition SharedData_delete (fd : Z * Z) : M unit :=
  r <- syscall (EvClose ClientFd) fd ;;
  if r =? -1 then e <- get_errno ;; throw (SystemException "Cannot close file descriptor" e)
  else ret tt.

(** How the thread of a client ends. *)
Inductive thread_end : Type :=
| ThreadReturned             (* [thread_interrupted] was caught: [threadMain] returns *)
| ThreadAborted              (* [abort()] *)
| ThreadRethrown (e : exn)   (* [throw;] out of the thread function *)
| ThreadTerminated           (* a destructor throws during unwinding: [std::terminate] *)
| ThreadWaiting              (* in [accept], with no answer left *)
| ThreadNoFuel.

(** The [catch] clauses of [threadMain]. *)
Definition threadMain_catch (e : exn) (w : World) : thread_end * World :=
  match e with
  | thread_interrupted => (ThreadReturned, w)
  | _ =>
      if is_std_exception e then
        (ThreadAborted, emit (EvLog "Uncaught exception in PassengerServer client thread") w)
      else
        (ThreadRethrown e,
         emit (EvLog "Uncaught unknown exception in PassengerServer client thread.") w)
  end.

Section ClientThread.

Context {P : Type} {parser_ops : ScgiRequestParser.ops P}.
Context {E : Type} {extractor_ops : HttpStatusExtractor.ops E}.
Variable env : Env.
Variable password : bytes.

(** [Client::threadMain], one round of [while (true)] for each answer of
    [accept]. [fd] is destroyed at the end of the round, and also when an
    exception leaves [handleRequest]: then its destructor runs while the
    stack is unwound, where an exception of its own ends the process. *)
Fixpoint threadMain (answers : list accept_answer) (w : World) : thread_end * World :=
  match answers with
  | [] => (ThreadWaiting, emit EvAccept w)
  | a :: answers' =>
      match acceptConnection a w with
      | (Ok fd, w1) =>
          match handleRequest env password w1 with
          | (Ok _, w2) =>
              match SharedData_delete fd w2 with
              | (Ok _, w3) => threadMain answers' w3
              | (Throw e, w3) => threadMain_catch e w3
              | (OutOfFuel, w3) => (ThreadNoFuel, w3)
              end
          | (Throw e, w2) =>
              match SharedData_delete fd w2 with
              | (Ok _, w3) => threadMain_catch e w3
              | (Throw _, w3) => (ThreadTerminated, w3)
              | (OutOfFuel, w3) => (ThreadNoFuel, w3)
              end
          | (OutOfFuel, w2) => (ThreadNoFuel, w2)
          end
      | (Throw e, w1) => threadMain_catch e w1
      | (OutOfFuel, w1) => (ThreadNoFuel, w1)
      end
  end.

End ClientThread.

(** Accepting and closing a connection, among the events of a thread. *)
Definition is_connection_event (ev : event) : bool :=
  match ev with
  | EvAccept | EvClose ClientFd => true
  | _ => false
  end.

(** The connection events of [n] rounds that ran to their end. *)
Definition rounds (n : nat) : list event := List.concat (repeat [EvAccept; EvClose ClientFd] n).

(** An answer of [accept] that is a connection; one whose [close] will
    succeed. *)
Definition is_connection (a : accept_answer) : Prop :=
  match a with
  | Connection _ _ => True
  | _ => False
  end.

Definition closes (a : accept_answer) : Prop :=
  match a with
  | Connection _ close => fst close <> -1
  | _ => False
  end.

(** Three connections: a request that is answered, a wrong password, and a
    client that is reset after ten bytes of the password; then the thread
    is interrupted. *)
Definition three_connections : list accept_answer :=
  [Connection (w_client happy_get_world) (0, 0);
   Connection (w_client bad_password_world) (0, 0);
   Connection [Chunk (firstn 10 secretA); ReadError 104] (0, 0);
   AcceptInterrupted].


(** ** The clients of a server *)

(** The clients whose construction a trace records, in order. *)
Definition new_clients (tr : list event) : list Client :=
  flat_map (fun ev => match ev with EvNewClient c => [c] | _ => [] end) tr.

(** The pool that [main] has the constructor of [Server] set up. *)
Definition pool_of_args (args : Args) : Pool :=
  {| spawnServerCommand := arg_rootDir args ++ lit "/bin/passenger-spawn-server";
     pool_ruby := arg_ruby args;
     pool_max := to_uint (atoi (arg_maxPoolSize args));
     pool_maxPerApp := to_uint (atoi (arg_maxInstancesPerApp args));
     pool_maxIdleTime := to_uint (atoi (arg_poolIdleTime args)) |}.

(** The thread of the third client cannot be started. *)
Definition senv_third_thread_fails : StartupEnv :=
  {| getPassengerTempDir := lit "/tmp/passenger.1234";
     createPassengerTempDir := None;
     new_StandardApplicationPool := None;
     sys_socket := (4, 0);
     sys_bind := (0, 0);
     sys_listen := (0, 0);
     sys_chmod := (0, 0);
     new_thread := fun n => if n =? 3 then Some (StdException "boost::thread_resource_error")
                            else None;
     new_StatusReporter := None |}.



(** [listen] fails with [EADDRINUSE]. *)
Definition senv_listen_fails : StartupEnv :=
  {| getPassengerTempDir := lit "/tmp/passenger.1234";
     createPassengerTempDir := None;
     new_StandardApplicationPool := None;
     sys_socket := (4, 0);
     sys_bind := (0, 0);
     sys_listen := (-1, 98);
     sys_chmod := (0, 0);
     new_thread := fun _ => None;
     new_StatusReporter := None |}.

(** * Proofs *)

(** ** Reading from a descriptor *)

Lemma zlen_app (a b : bytes) : zlen (a ++ b) = zlen a + zlen b.
Proof. unfold zlen. rewrite length_app. lia. Qed.

Lemma zlen_nonneg (a : bytes) : 0 <= zlen a.
Proof. unfold zlen. lia. Qed.

Lemma zlen_nil_inv (a : bytes) : zlen a = 0 -> a = [].
Proof. destruct a; [reflexivity | unfold zlen; simpl; lia]. Qed.

Lemma nonempty_size (data : bytes) :
  data <> [] -> (zlen data =? -1) = false /\ (zlen data =? 0) = false.
Proof.
  intros H. destruct data as [|b data]; [congruence|].
  unfold zlen. cbn [List.length]. split; apply Z.eqb_neq; lia.
Qed.

(** After a read that returned the bytes [data], known to be non-empty by
    [Hd]: the tests [size == -1] and [size == 0] of the caller fail. *)
Ltac returned_data Hd :=
  let Em := fresh "Em" in
  let Ez := fresh "Ez" in
  destruct (nonempty_size _ Hd) as [Em Ez];
  cbv beta iota; rewrite ?Em, ?Ez.

Ltac returned_data_in Hd H :=
  let Em := fresh "Em" in
  let Ez := fresh "Ez" in
  destruct (nonempty_size _ Hd) as [Em Ez];
  cbv beta iota in H; rewrite ?Em, ?Ez in H.

Lemma sys_read_spec (count : Z) (s : instream) :
  1 <= count -> no_read_error s = true ->
  exists data s',
    sys_read count s = (zlen data, data, 0, s') /\
    zlen data <= count /\
    stream_bytes s = data ++ stream_bytes s' /\
    no_read_error s' = true /\
    (data = [] -> s' = []) /\
    (data <> [] -> (weight s' < weight s)%nat).
Proof.
  intros Hc. induction s as [|ev s IH]; intros Hne.
  - exists [], []. unfold zlen. simpl. repeat apply conj; try reflexivity; try lia. intros H; exfalso; apply H; reflexivity.
  - destruct ev as [d|e]; [|discriminate].
    destruct d as [|b d].
    + simpl in Hne. destruct (IH Hne) as (data & s' & E & Hle & Hs & Hn & Hz & Hw).
      exists data, s'. simpl. repeat apply conj; auto. intros H. specialize (Hw H). lia.
    + cbn [sys_read]. destruct (zlen (b :: d) <=? count) eqn:Hcmp.
      * exists (b :: d), s. simpl in Hne. repeat apply conj; auto.
        -- apply Z.leb_le; assumption.
        -- discriminate.
        -- intros _. simpl. lia.
      * apply Z.leb_gt in Hcmp.
        exists (firstn (Z.to_nat count) (b :: d)), (Chunk (skipn (Z.to_nat count) (b :: d)) :: s).
        assert (Hlen : zlen (firstn (Z.to_nat count) (b :: d)) = count).
        { unfold zlen in *. rewrite length_firstn. lia. }
        rewrite Hlen. repeat apply conj; auto.
        -- lia.
        -- cbn [stream_bytes]. rewrite app_assoc, firstn_skipn. reflexivity.
        -- intros H. rewrite H in Hlen. unfold zlen in Hlen. simpl in Hlen. lia.
        -- intros _. cbn [weight]. rewrite length_skipn. unfold zlen in Hcmp. lia.
Qed.

Lemma read_fd_spec (fd : fdsel) (count : Z) (w : World) :
  1 <= count -> no_read_error (pending fd w) = true ->
  exists data s',
    read_fd fd count w =
      (Ok (zlen data, data), emit (EvRead fd count (zlen data)) (set_pending fd s' w)) /\
    zlen data <= count /\
    stream_bytes (pending fd w) = data ++ stream_bytes s' /\
    no_read_error s' = true /\
    (data = [] -> s' = []) /\
    (data <> [] -> (weight s' < weight (pending fd w))%nat).
Proof.
  intros Hc Hne.
  destruct (sys_read_spec count (pending fd w) Hc Hne) as (data & s' & E & H).
  exists data, s'. split; [|exact H].
  unfold read_fd. rewrite E.
  pose proof (zlen_nonneg data).
  destruct (zlen data =? -1) eqn:Hm; [apply Z.eqb_eq in Hm; lia | reflexivity].
Qed.

Lemma session_body_app (a b : list event) :
  session_body (a ++ b) = session_body a ++ session_body b.
Proof. apply flat_map_app. Qed.

Lemma client_output_app (a b : list event) :
  client_output (a ++ b) = client_output a ++ client_output b.
Proof. apply flat_map_app. Qed.

(** ** The body-forwarding loop *)

Lemma to_ulong_range (z : Z) : 0 <= to_ulong z < ULONG_MODULUS.
Proof. unfold to_ulong, ULONG_MODULUS. apply Z.mod_pos_bound. lia. Qed.

Lemma to_ulong_small (z : Z) : 0 <= z < ULONG_MODULUS -> to_ulong z = z.
Proof. unfold to_ulong. apply Z.mod_small. Qed.

(** From [bytesForwarded <> contentLength] the loop forwards the next
    [(contentLength - bytesForwarded) mod 2^64] bytes of the client, or
    all of them when the client closes before that. *)
Lemma sendRequestBody_loop_spec (fuel : nat) :
  forall (contentLength bytesForwarded : Z) (w : World),
    (weight (w_client w) < fuel)%nat ->
    no_read_error (w_client w) = true ->
    0 <= contentLength < ULONG_MODULUS ->
    0 <= bytesForwarded < ULONG_MODULUS ->
    bytesForwarded <> contentLength ->
    let gap := Z.to_nat (to_ulong (contentLength - bytesForwarded)) in
    exists w' tr,
      sendRequestBody_loop fuel contentLength bytesForwarded w = (Ok tt, w') /\
      w_trace w' = w_trace w ++ tr /\
      Forall is_body_event tr /\
      session_body tr = firstn gap (stream_bytes (w_client w)) /\
      stream_bytes (w_client w') = skipn gap (stream_bytes (w_client w)) /\
      no_read_error (w_client w') = true /\
      w_session w' = w_session w /\ w_admin w' = w_admin w.
Proof.
  induction fuel as [|fuel IH]; intros CL bf w Hfuel Hne HCL Hbf Hneq gap; [lia|].
  cbn [sendRequestBody_loop].
  set (g := to_ulong (CL - bf)) in *.
  assert (Hg : 1 <= g < ULONG_MODULUS).
  { pose proof (to_ulong_range (CL - bf)) as Hr. fold g in Hr.
    assert (g <> 0); [|lia]. intros Hz. apply Hneq.
    unfold g, to_ulong, ULONG_MODULUS in *.
    apply Z.mod_divide in Hz; [|lia]. destruct Hz as [q Hq]. nia. }
  set (n := if g >? BODY_BUF_SIZE then BODY_BUF_SIZE else g).
  assert (Hn : 1 <= n <= g).
  { unfold n, BODY_BUF_SIZE. destruct (g >? 1024 * 16) eqn:E; [apply Z.gtb_lt in E|]; lia. }
  destruct (read_fd_spec ClientFd n w) as (data & s' & Er & Hle & Hs & Hne' & Hz & Hw);
    [lia | exact Hne |].
  unfold bind at 1. rewrite Er.
  destruct (zlen data =? 0) eqn:E0.
  - apply Z.eqb_eq in E0. apply zlen_nil_inv in E0. subst data.
    specialize (Hz eq_refl). subst s'. simpl in Hs.
    eexists. exists [EvRead ClientFd n (zlen [])].
    split; [reflexivity|]. simpl.
    repeat apply conj; try reflexivity.
    + repeat constructor.
    + rewrite Hs. now rewrite firstn_nil.
    + rewrite Hs. now rewrite skipn_nil.
  - apply Z.eqb_neq in E0. pose proof (zlen_nonneg data) as Hp.
    destruct (zlen data =? -1) eqn:E1; [apply Z.eqb_eq in E1; lia|].
    assert (Hdn : data <> []) by (intros ->; apply E0; reflexivity).
    specialize (Hw Hdn). simpl in Hw, Hs.
    unfold bind at 1. unfold sendBodyBlock, trace_event.
    assert (Hgap : Z.to_nat g = (List.length data + Z.to_nat (g - zlen data))%nat).
    { unfold zlen in *. lia. }
    destruct (to_ulong (bf + zlen data) =? CL) eqn:Ed.
    + apply Z.eqb_eq in Ed.
      assert (Hgeq : g = zlen data).
      { unfold g, to_ulong, ULONG_MODULUS in *. 
        Z.div_mod_to_equations. lia. }
      eexists. exists [EvRead ClientFd n (zlen data); EvSendBodyBlock data].
      split; [reflexivity|]. simpl. rewrite <- app_assoc. simpl.
      repeat apply conj; try reflexivity; auto.
      * repeat constructor.
      * unfold gap. fold g. rewrite Hs, app_nil_r, Hgap, Hgeq, Z.sub_diag. simpl.
        rewrite Nat.add_0_r, firstn_app, Nat.sub_diag, firstn_all. simpl. now rewrite app_nil_r.
      * unfold gap. fold g. rewrite Hs, Hgeq. unfold zlen. rewrite Nat2Z.id.
        rewrite skipn_app, Nat.sub_diag, skipn_all. reflexivity.
    + apply Z.eqb_neq in Ed.
      set (w1 := emit (EvSendBodyBlock data) (emit (EvRead ClientFd n (zlen data)) (set_pending ClientFd s' w))).
      assert (Hg' : to_ulong (CL - to_ulong (bf + zlen data)) = g - zlen data).
      { unfold g, to_ulong, ULONG_MODULUS in *.
        Z.div_mod_to_equations. lia. }
      destruct (IH CL (to_ulong (bf + zlen data)) w1) as (w' & tr & Ew & Htr & Hall & Hb & Hrest & Hne'' & Hss & Had);
        [simpl; lia | exact Hne' | lia | apply to_ulong_range | exact Ed |].
      fold w1. rewrite Ew.
      exists w', (EvRead ClientFd n (zlen data) :: EvSendBodyBlock data :: tr).
      repeat apply conj; auto.
      * rewrite Htr. simpl. rewrite <- !app_assoc. reflexivity.
      * repeat constructor. exact Hall.
      * unfold gap. fold g. simpl. rewrite Hb, Hg'. simpl. rewrite Hs, Hgap.
        rewrite firstn_app_2. reflexivity.
      * rewrite Hrest, Hg'. simpl. unfold gap. fold g. rewrite Hs, Hgap.
        rewrite skipn_app. rewrite (skipn_all2 data) by lia.
        replace (List.length data + Z.to_nat (g - zlen data) - List.length data)%nat
          with (Z.to_nat (g - zlen data)) by lia.
        reflexivity.
Qed.

Lemma sendRequestBody_spec (partialRequestBody : bytes) (contentLength : Z) (w : World) :
  0 <= contentLength < ULONG_MODULUS ->
  zlen partialRequestBody < ULONG_MODULUS ->
  no_read_error (w_client w) = true ->
  let gap := Z.to_nat (to_ulong (contentLength - zlen partialRequestBody)) in
  exists w' tr,
    sendRequestBody partialRequestBody contentLength w = (Ok tt, w') /\
    w_trace w' = w_trace w ++ tr /\
    Forall is_body_event tr /\
    session_body tr = partialRequestBody ++ firstn gap (stream_bytes (w_client w)) /\
    stream_bytes (w_client w') = skipn gap (stream_bytes (w_client w)) /\
    no_read_error (w_client w') = true /\
    w_session w' = w_session w /\ w_admin w' = w_admin w.
Proof.
  intros HCL HP Hne gap.
  pose proof (zlen_nonneg partialRequestBody) as Hp0.
  unfold sendRequestBody.
  set (w0 := if zlen partialRequestBody >? 0
             then emit (EvSendBodyBlock partialRequestBody) w else w).
  set (tr0 := if zlen partialRequestBody >? 0
              then [EvSendBodyBlock partialRequestBody] else []).
  assert (Hw0 : w_trace w0 = w_trace w ++ tr0 /\ w_client w0 = w_client w /\
                w_session w0 = w_session w /\ w_admin w0 = w_admin w).
  { unfold w0, tr0. destruct (zlen partialRequestBody >? 0); simpl; auto using app_nil_r. }
  destruct Hw0 as (Ht0 & Hc0 & Hs0 & Ha0).
  assert (Hb0 : session_body tr0 = partialRequestBody /\ Forall is_body_event tr0).
  { unfold tr0. destruct (zlen partialRequestBody >? 0) eqn:E; simpl.
    - split; [apply app_nil_r | repeat constructor].
    - split; [|constructor]. symmetry. apply zlen_nil_inv. rewrite Z.gtb_ltb in E.
      apply Z.ltb_ge in E. lia. }
  destruct Hb0 as (Hb0 & Hf0).
  assert (Estart :
    (if zlen partialRequestBody >? 0
     then sendBodyBlock partialRequestBody ;; ret (to_ulong (zlen partialRequestBody))
     else ret 0) w = (Ok (zlen partialRequestBody), w0)).
  { unfold w0. destruct (zlen partialRequestBody >? 0) eqn:E.
    - unfold bind, sendBodyBlock, trace_event, ret. simpl.
      rewrite to_ulong_small by lia. reflexivity.
    - rewrite Z.gtb_ltb in E. apply Z.ltb_ge in E.
      replace (zlen partialRequestBody) with 0 by lia. reflexivity. }
  unfold bind at 1. rewrite Estart.
  destruct (zlen partialRequestBody =? contentLength) eqn:Eq.
  - apply Z.eqb_eq in Eq. exists w0, tr0.
    assert (Hgap : gap = O).
    { unfold gap. rewrite Eq, Z.sub_diag. reflexivity. }
    rewrite Hgap, Hc0. simpl. rewrite app_nil_r. repeat apply conj; auto.
  - apply Z.eqb_neq in Eq.
    destruct (sendRequestBody_loop_spec (S (weight (w_client w0))) contentLength
                (zlen partialRequestBody) w0)
      as (w' & tr & Ew & Htr & Hall & Hb & Hrest & Hne' & Hss & Had);
      [lia | rewrite Hc0; exact Hne | exact HCL | lia | exact Eq |].
    exists w', (tr0 ++ tr). rewrite Hc0 in *.
    repeat apply conj; auto.
    + rewrite Htr, Ht0, app_assoc. reflexivity.
    + apply Forall_app. split; assumption.
    + rewrite session_body_app, Hb0, Hb. reflexivity.
    + congruence.
    + congruence.
Qed.

(** ** The request body that reaches the session *)

Lemma atol_empty : atol [] = 0.
Proof. reflexivity. Qed.

(** A header that is absent reads as the empty string and gives 0. *)
Lemma contentLength_of_absent {P : Type} {ops : ScgiRequestParser.ops P} (parser : P) :
  ScgiRequestParser.getHeader parser (lit "CONTENT_LENGTH") = [] ->
  contentLength_of parser = 0.
Proof. unfold contentLength_of. intros ->. reflexivity. Qed.

Lemma read_digits_no_digit (b : byte) (s : bytes) (acc : Z) :
  digit_value b = None -> read_digits (b :: s) acc = acc.
Proof. intros H. simpl. now rewrite H. Qed.

(** A value that does not start with white space, a sign or a digit gives 0. *)
Lemma atol_not_a_number (b : byte) (s : bytes) :
  isspace b = false -> digit_value b = None -> b <> x2d -> b <> x2b ->
  atol (b :: s) = 0.
Proof.
  intros Hs Hd Hm Hp. unfold atol. cbn [skip_spaces]. rewrite Hs.
  destruct b; try congruence; simpl in Hd |- *; try discriminate Hd; reflexivity.
Qed.

(** C1. For every content length [CL] and every partial body [P] with
    [|P| <= CL], on a client connection whose reads do not fail,
    [sendRequestBody] returns normally and the session receives exactly the
    first [CL] bytes of [P] followed by the bytes of the client: all of them
    when the client closes before [CL] bytes have been reached. The bytes of
    the client past that point stay unread. *)
Theorem sendRequestBody_sends_first_contentLength_bytes :
  forall (partialRequestBody : bytes) (contentLength : Z) (w : World),
    0 <= contentLength < ULONG_MODULUS ->
    zlen partialRequestBody <= contentLength ->
    no_read_error (w_client w) = true ->
    exists w',
      sendRequestBody partialRequestBody contentLength w = (Ok tt, w') /\
      session_body (w_trace w') =
        session_body (w_trace w) ++
        firstn (Z.to_nat contentLength)
               (partialRequestBody ++ stream_bytes (w_client w)) /\
      stream_bytes (w_client w') =
        skipn (Z.to_nat (contentLength - zlen partialRequestBody))
              (stream_bytes (w_client w)).
Proof.
  intros P CL w HCL HP Hne.
  pose proof (zlen_nonneg P) as Hp0.
  destruct (sendRequestBody_spec P CL w HCL ltac:(lia) Hne)
    as (w' & tr & E & Htr & _ & Hb & Hrest & _).
  rewrite to_ulong_small in Hb, Hrest by lia.
  exists w'. repeat apply conj; auto.
  rewrite Htr, session_body_app, Hb. f_equal.
  rewrite firstn_app, (firstn_all2 (n:=Z.to_nat CL) P) by (unfold zlen in HP; lia).
  f_equal. f_equal. unfold zlen in *. lia.
Qed.

Lemma sendRequestBody_sends_first_contentLength_bytes_witness :
  0 <= 11 < ULONG_MODULUS /\
  zlen (lit "hello") <= 11 /\
  no_read_error (w_client split_body_world) = true /\
  exists w',
    sendRequestBody (lit "hello") 11 split_body_world = (Ok tt, w') /\
    session_body (w_trace w') =
      session_body (w_trace split_body_world) ++
      firstn (Z.to_nat 11) (lit "hello" ++ stream_bytes (w_client split_body_world)) /\
    stream_bytes (w_client w') =
      skipn (Z.to_nat (11 - zlen (lit "hello"))) (stream_bytes (w_client split_body_world)).
Proof.
  assert (H1 : 0 <= 11 < ULONG_MODULUS) by (unfold ULONG_MODULUS; lia).
  assert (H2 : zlen (lit "hello") <= 11) by (vm_compute; discriminate).
  assert (H3 : no_read_error (w_client split_body_world) = true) by reflexivity.
  repeat split; try assumption.
  exact (sendRequestBody_sends_first_contentLength_bytes
           (lit "hello") 11 split_body_world H1 H2 H3).
Defined.

(** The session receives ["hello world"]; ["!"] is left in the connection. *)
Example sendRequestBody_split_body :
  let '(r, w') := sendRequestBody (lit "hello") 11 split_body_world in
  r = Ok tt /\ session_body (w_trace w') = lit "hello world" /\
  stream_bytes (w_client w') = lit "!".
Proof. vm_compute. repeat split. Qed.

(** C10. When the partial body is longer than the content length,
    [sendRequestBody] sends all of it; [contentLength - bytesForwarded] wraps
    around as an [unsigned long], and the loop forwards the client's bytes
    until the client closes: the session receives more than [contentLength]
    bytes. *)
Theorem sendRequestBody_partial_body_longer_than_contentLength :
  forall (partialRequestBody : bytes) (contentLength : Z) (w : World),
    0 <= contentLength ->
    contentLength < zlen partialRequestBody ->
    zlen partialRequestBody + zlen (stream_bytes (w_client w)) < ULONG_MODULUS ->
    no_read_error (w_client w) = true ->
    to_ulong (contentLength - zlen partialRequestBody) =
      ULONG_MODULUS - (zlen partialRequestBody - contentLength) /\
    exists w',
      sendRequestBody partialRequestBody contentLength w = (Ok tt, w') /\
      session_body (w_trace w') =
        session_body (w_trace w) ++ partialRequestBody ++ stream_bytes (w_client w) /\
      stream_bytes (w_client w') = [] /\
      contentLength < zlen (partialRequestBody ++ stream_bytes (w_client w)).
Proof.
  intros P CL w HCL HP Hlen Hne.
  pose proof (zlen_nonneg (stream_bytes (w_client w))) as Hs0.
  assert (Hgap : to_ulong (CL - zlen P) = ULONG_MODULUS - (zlen P - CL)).
  { unfold to_ulong, ULONG_MODULUS in *. Z.div_mod_to_equations. lia. }
  split; [exact Hgap|].
  destruct (sendRequestBody_spec P CL w ltac:(lia) ltac:(lia) Hne)
    as (w' & tr & E & Htr & _ & Hb & Hrest & _).
  rewrite Hgap in Hb, Hrest.
  assert (Hall : (List.length (stream_bytes (w_client w))
                  <= Z.to_nat (ULONG_MODULUS - (zlen P - CL)))%nat).
  { unfold zlen in *. lia. }
  exists w'. repeat apply conj; auto.
  - rewrite Htr, session_body_app, Hb, firstn_all2 by exact Hall. reflexivity.
  - rewrite Hrest. apply skipn_all2. exact Hall.
  - rewrite zlen_app. lia.
Qed.

Lemma sendRequestBody_partial_body_longer_than_contentLength_witness :
  0 <= 0 /\
  0 < zlen (lit "hello") /\
  zlen (lit "hello") + zlen (stream_bytes (w_client split_body_world)) < ULONG_MODULUS /\
  no_read_error (w_client split_body_world) = true /\
  to_ulong (0 - zlen (lit "hello")) = ULONG_MODULUS - (zlen (lit "hello") - 0) /\
  exists w',
    sendRequestBody (lit "hello") 0 split_body_world = (Ok tt, w') /\
    session_body (w_trace w') =
      session_body (w_trace split_body_world) ++
      lit "hello" ++ stream_bytes (w_client split_body_world) /\
    stream_bytes (w_client w') = [] /\
    0 < zlen (lit "hello" ++ stream_bytes (w_client split_body_world)).
Proof.
  assert (H1 : 0 <= 0) by lia.
  assert (H2 : 0 < zlen (lit "hello")) by (vm_compute; reflexivity).
  assert (H3 : zlen (lit "hello") + zlen (stream_bytes (w_client split_body_world))
               < ULONG_MODULUS) by (vm_compute; reflexivity).
  assert (H4 : no_read_error (w_client split_body_world) = true) by reflexivity.
  split; [exact H1|]. split; [exact H2|]. split; [exact H3|]. split; [exact H4|].
  exact (sendRequestBody_partial_body_longer_than_contentLength
           (lit "hello") 0 split_body_world H1 H2 H3 H4).
Defined.

(** With no [CONTENT_LENGTH] and five body bytes read with the header, the
    session receives the twelve bytes the client sends. *)
Example sendRequestBody_overlong_run :
  let '(r, w') := sendRequestBody (lit "hello") 0 split_body_world in
  r = Ok tt /\ session_body (w_trace w') = lit "hello world!" /\ w_client w' = [].
Proof. vm_compute. repeat split. Qed.

(** ** Reading an exact number of bytes *)

Lemma sys_read_cases (count : Z) (s : instream) :
  1 <= count ->
  (exists data s',
     data <> [] /\
     sys_read count s = (zlen data, data, 0, s') /\
     zlen data <= count /\
     stream_bytes s = data ++ stream_bytes s' /\
     no_read_error s' = no_read_error s /\
     (weight s' < weight s)%nat) \/
  (stream_bytes s = [] /\ no_read_error s = true /\ sys_read count s = (0, [], 0, [])) \/
  (stream_bytes s = [] /\ no_read_error s = false /\
   exists e s', sys_read count s = (-1, [], e, s')).
Proof.
  intros Hc. induction s as [|ev s IH].
  - right. left. repeat split.
  - destruct ev as [d|e].
    + destruct d as [|b d].
      * simpl. destruct IH as [(data & s' & Hd & E & Hle & Hs & Hn & Hw) | [H | H]].
        -- left. exists data, s'. repeat apply conj; auto; lia.
        -- right. left. exact H.
        -- right. right. exact H.
      * left. cbn [sys_read]. destruct (zlen (b :: d) <=? count) eqn:Hcmp.
        -- exists (b :: d), s. repeat apply conj; auto.
           ++ discriminate.
           ++ apply Z.leb_le; assumption.
           ++ simpl. lia.
        -- apply Z.leb_gt in Hcmp.
           exists (firstn (Z.to_nat count) (b :: d)), (Chunk (skipn (Z.to_nat count) (b :: d)) :: s).
           assert (Hlen : zlen (firstn (Z.to_nat count) (b :: d)) = count).
           { unfold zlen in *. rewrite length_firstn. lia. }
           rewrite Hlen. repeat apply conj; auto.
           ++ intros H. rewrite H in Hlen. unfold zlen in Hlen. simpl in Hlen. lia.
           ++ lia.
           ++ cbn [stream_bytes]. rewrite app_assoc, firstn_skipn. reflexivity.
           ++ cbn [weight]. rewrite length_skipn. unfold zlen in Hcmp. lia.
    + right. right. repeat split. exists e, s. reflexivity.
Qed.

Lemma is_read_of_refl (fd : fdsel) (count size : Z) :
  is_read_of fd (EvRead fd count size) = true.
Proof. destruct fd; reflexivity. Qed.

Lemma pending_set_pending (fd : fdsel) (s : instream) (w : World) :
  pending fd (set_pending fd s w) = s.
Proof. destruct fd; reflexivity. Qed.

Lemma readRaw_loop_enough (fuel : nat) :
  forall (fd : fdsel) (size : Z) (acc : bytes) (w : World),
    zlen acc <= size ->
    (Z.to_nat (size - zlen acc) <= fuel)%nat ->
    size - zlen acc <= zlen (stream_bytes (pending fd w)) ->
    exists w' tr,
      readRaw_loop fuel fd size acc w =
        (Ok (true, acc ++ firstn (Z.to_nat (size - zlen acc)) (stream_bytes (pending fd w))), w') /\
      w_trace w' = w_trace w ++ tr /\
      Forall (is_read_event fd) tr /\
      stream_bytes (pending fd w') =
        skipn (Z.to_nat (size - zlen acc)) (stream_bytes (pending fd w)) /\
      no_read_error (pending fd w') = no_read_error (pending fd w).
Proof.
  induction fuel as [|fuel IH]; intros fd size acc w Hacc Hfuel Hav.
  - assert (Heq : zlen acc = size) by lia.
    cbn [readRaw_loop]. destruct (zlen acc <? size) eqn:E; [apply Z.ltb_lt in E; lia|].
    exists w, []. rewrite Heq, Z.sub_diag. simpl. rewrite !app_nil_r. repeat split. constructor.
  - cbn [readRaw_loop]. destruct (zlen acc <? size) eqn:E.
    + apply Z.ltb_lt in E.
      destruct (sys_read_cases (size - zlen acc) (pending fd w))
        as [(data & s' & Hd & Er & Hle & Hs & Hn & Hw) | [(Hs & _) | (Hs & _)]]; [lia | | |].
      * assert (Hdl : 0 < zlen data).
        { destruct data; [congruence | unfold zlen; simpl; lia]. }
        assert (Erd : read_fd fd (size - zlen acc) w =
                      (Ok (zlen data, data),
                       emit (EvRead fd (size - zlen acc) (zlen data)) (set_pending fd s' w))).
        { unfold read_fd. rewrite Er.
          destruct (zlen data =? -1) eqn:Em; [apply Z.eqb_eq in Em; lia | reflexivity]. }
        unfold bind at 1. rewrite Erd.
        returned_data Hd.
        set (w1 := emit (EvRead fd (size - zlen acc) (zlen data)) (set_pending fd s' w)).
        assert (Hp1 : pending fd w1 = s') by (unfold w1; destruct fd; reflexivity).
        destruct (IH fd size (acc ++ data) w1) as (w' & tr & Ew & Htr & Hall & Hrest & Hne).
        { rewrite zlen_app. lia. }
        { rewrite zlen_app. lia. }
        { rewrite Hp1, zlen_app. rewrite Hs, zlen_app in Hav. lia. }
        exists w', (EvRead fd (size - zlen acc) (zlen data) :: tr).
        rewrite Hp1 in *. rewrite zlen_app in *.
        assert (Hk : Z.to_nat (size - zlen acc) =
                     (List.length data + Z.to_nat (size - (zlen acc + zlen data)))%nat).
        { unfold zlen in *. lia. }
        repeat apply conj.
        -- rewrite Ew. rewrite Hs, Hk, firstn_app_2, <- app_assoc. reflexivity.
        -- rewrite Htr. unfold w1. destruct fd; simpl; rewrite <- app_assoc; reflexivity.
        -- constructor; [apply is_read_of_refl | exact Hall].
        -- rewrite Hrest, Hs, Hk, skipn_app, (skipn_all2 data) by lia.
           simpl. f_equal. lia.
        -- congruence.
      * rewrite Hs in Hav. unfold zlen in Hav at 2. simpl in Hav. lia.
      * rewrite Hs in Hav. unfold zlen in Hav at 2. simpl in Hav. lia.
    + apply Z.ltb_ge in E. assert (Heq : zlen acc = size) by lia.
      exists w, []. rewrite Heq, Z.sub_diag. simpl. rewrite !app_nil_r. repeat split. constructor.
Qed.

Lemma readRaw_loop_short (fuel : nat) :
  forall (fd : fdsel) (size : Z) (acc : bytes) (w : World),
    (Z.to_nat (size - zlen acc) <= fuel)%nat ->
    zlen (stream_bytes (pending fd w)) < size - zlen acc ->
    exists r w' tr,
      readRaw_loop fuel fd size acc w = (r, w') /\
      w_trace w' = w_trace w ++ tr /\
      Forall (is_read_event fd) tr /\
      ((no_read_error (pending fd w) = true /\
        r = Ok (false, acc ++ stream_bytes (pending fd w)) /\ pending fd w' = []) \/
       (no_read_error (pending fd w) = false /\
        exists e, r = Throw (SystemException "Cannot read data from socket" e))).
Proof.
  induction fuel as [|fuel IH]; intros fd size acc w Hfuel Hav;
    pose proof (zlen_nonneg (stream_bytes (pending fd w))) as Hnn; [lia|].
  cbn [readRaw_loop]. destruct (zlen acc <? size) eqn:E; [|apply Z.ltb_ge in E; lia].
  apply Z.ltb_lt in E.
  destruct (sys_read_cases (size - zlen acc) (pending fd w))
    as [(data & s' & Hd & Er & Hle & Hs & Hn & Hw) | [(Hs & Hne & Er) | (Hs & Hne & e & s' & Er)]];
    [lia | | |].
  - assert (Hdl : 0 < zlen data).
    { destruct data; [congruence | unfold zlen; simpl; lia]. }
    unfold bind at 1. unfold read_fd. rewrite Er.
    returned_data Hd.
    set (w1 := emit (EvRead fd (size - zlen acc) (zlen data)) (set_pending fd s' w)).
    assert (Hp1 : pending fd w1 = s') by (unfold w1; destruct fd; reflexivity).
    destruct (IH fd size (acc ++ data) w1) as (r & w' & tr & Ew & Htr & Hall & Hres).
    { rewrite zlen_app. lia. }
    { rewrite Hp1, zlen_app. rewrite Hs, zlen_app in Hav. lia. }
    exists r, w', (EvRead fd (size - zlen acc) (zlen data) :: tr).
    rewrite Hp1 in *. repeat apply conj.
    + exact Ew.
    + rewrite Htr. unfold w1. destruct fd; simpl; rewrite <- app_assoc; reflexivity.
    + constructor; [apply is_read_of_refl | exact Hall].
    + rewrite <- Hn, Hs, app_assoc. exact Hres.
  - unfold bind at 1. unfold read_fd. rewrite Er. simpl.
    eexists. eexists. exists [EvRead fd (size - zlen acc) 0].
    split; [reflexivity|]. repeat apply conj.
    + destruct fd; reflexivity.
    + constructor; [apply is_read_of_refl | constructor].
    + left. rewrite Hs, app_nil_r. repeat split; [exact Hne | destruct fd; reflexivity].
  - unfold bind at 1. unfold read_fd. rewrite Er. simpl.
    eexists. eexists. exists [EvRead fd (size - zlen acc) (-1)].
    split; [reflexivity|]. repeat apply conj.
    + destruct fd; reflexivity.
    + constructor; [apply is_read_of_refl | constructor].
    + right. split; [exact Hne|]. eexists. reflexivity.
Qed.

(** ** The password check *)

Lemma byte_to_N_inj (x y : byte) : Byte.to_N x = Byte.to_N y -> x = y.
Proof.
  intros H. pose proof (Byte.of_to_N x) as Hx. pose proof (Byte.of_to_N y) as Hy.
  rewrite H in Hx. congruence.
Qed.

Lemma memcmp_zero_iff (n : nat) :
  forall a b : bytes, List.length a = n -> List.length b = n ->
    (memcmp a b n = 0 <-> a = b).
Proof.
  induction n as [|n IH]; intros a b Ha Hb.
  - destruct a, b; try discriminate. simpl. tauto.
  - destruct a as [|x a], b as [|y b]; try discriminate.
    injection Ha as Ha. injection Hb as Hb. cbn [memcmp].
    destruct (Byte.eqb x y) eqn:E.
    + apply Byte.byte_dec_bl in E. subst y.
      specialize (IH a b Ha Hb).
      split; [intros H; f_equal; apply IH; exact H | intros H; injection H as H; apply IH; exact H].
    + apply Byte.eqb_false in E. split.
      * intros H. exfalso. apply E. apply byte_to_N_inj. lia.
      * intros H. injection H as H _. contradiction.
Qed.

Lemma zlen_firstn_le (n : nat) (s : bytes) :
  Z.of_nat n <= zlen s -> List.length (firstn n s) = n.
Proof. unfold zlen. intros H. rewrite length_firstn. lia. Qed.

(** When the client delivers 64 bytes, they are compared with the
    password. *)
Lemma password_size_nat : Z.to_nat HELPER_SERVER_PASSWORD_SIZE = 64%nat.
Proof. reflexivity. Qed.

Lemma readAndCheckPassword_enough (password : bytes) (w : World) :
  64 <= zlen (stream_bytes (w_client w)) ->
  exists w1 tr,
    readAndCheckPassword password w =
      (Ok (memcmp password (firstn 64 (stream_bytes (w_client w))) 64 =? 0), w1) /\
    w_trace w1 = w_trace w ++ tr /\
    Forall (is_read_event ClientFd) tr /\
    stream_bytes (w_client w1) = skipn 64 (stream_bytes (w_client w)) /\
    no_read_error (w_client w1) = no_read_error (w_client w).
Proof.
  intros Hlen. unfold readAndCheckPassword, readRaw.
  assert (Hz : HELPER_SERVER_PASSWORD_SIZE - zlen [] = 64) by reflexivity.
  destruct (readRaw_loop_enough (Z.to_nat HELPER_SERVER_PASSWORD_SIZE) ClientFd
              HELPER_SERVER_PASSWORD_SIZE [] w)
    as (w1 & tr & E & Htr & Hall & Hrest & Hne).
  { discriminate. }
  { rewrite Hz. apply Nat.le_refl. }
  { rewrite Hz. exact Hlen. }
  rewrite Hz in E, Hrest. change (Z.to_nat 64) with 64%nat in E, Hrest.
  change (pending ClientFd w) with (w_client w) in *.
  change (pending ClientFd w1) with (w_client w1) in *.
  unfold bind. rewrite E. cbn [app]. rewrite password_size_nat.
  exists w1, tr. repeat apply conj; auto.
Qed.

(** When the client delivers fewer, the check fails on end of file, and a
    failing read raises [SystemException]. *)
Lemma readAndCheckPassword_short (password : bytes) (w : World) :
  zlen (stream_bytes (w_client w)) < 64 ->
  exists r w1 tr,
    readAndCheckPassword password w = (r, w1) /\
    w_trace w1 = w_trace w ++ tr /\
    Forall (is_read_event ClientFd) tr /\
    ((no_read_error (w_client w) = true /\ r = Ok false /\ w_client w1 = []) \/
     (no_read_error (w_client w) = false /\
      exists e, r = Throw (SystemException "Cannot read data from socket" e))).
Proof.
  intros Hlen. unfold readAndCheckPassword, readRaw.
  assert (Hz : HELPER_SERVER_PASSWORD_SIZE - zlen [] = 64) by reflexivity.
  destruct (readRaw_loop_short (Z.to_nat HELPER_SERVER_PASSWORD_SIZE) ClientFd
              HELPER_SERVER_PASSWORD_SIZE [] w)
    as (r & w1 & tr & E & Htr & Hall & Hres).
  { rewrite Hz. apply Nat.le_refl. }
  { rewrite Hz. exact Hlen. }
  change (pending ClientFd w) with (w_client w) in *.
  change (pending ClientFd w1) with (w_client w1) in *.
  unfold bind. rewrite E.
  destruct Hres as [(Hne & -> & Hp) | (Hne & e & ->)].
  - exists (Ok false), w1, tr. repeat apply conj; auto.
  - eexists. exists w1, tr. repeat apply conj; auto.
    right. split; [exact Hne|]. exists e. reflexivity.
Qed.

Lemma pool_gets_app (a b : list event) : pool_gets (a ++ b) = (pool_gets a + pool_gets b)%nat.
Proof. unfold pool_gets. rewrite filter_app, length_app. reflexivity. Qed.

Lemma reads_no_pool_get (fd : fdsel) (tr : list event) :
  Forall (is_read_event fd) tr -> pool_gets tr = O.
Proof.
  induction 1 as [|ev tr Hev _ IH]; [reflexivity|].
  unfold pool_gets in *. simpl.
  destruct ev; try (destruct fd; discriminate Hev). simpl. exact IH.
Qed.

Lemma readAndCheckPassword_true_iff (password : bytes) (w : World) :
  zlen password = HELPER_SERVER_PASSWORD_SIZE ->
  (fst (readAndCheckPassword password w) = Ok true <->
   firstn 64 (stream_bytes (w_client w)) = password).
Proof.
  intros Hpw. assert (Hpl : List.length password = 64%nat).
  { unfold zlen, HELPER_SERVER_PASSWORD_SIZE in Hpw. lia. }
  destruct (Z_lt_le_dec (zlen (stream_bytes (w_client w))) 64) as [Hshort | Hlong].
  - destruct (readAndCheckPassword_short password w Hshort)
      as (r & w1 & tr & E & _ & _ & Hres).
    rewrite E. cbn [fst]. split.
    + intros ->. destruct Hres as [(_ & H & _) | (_ & e & H)]; discriminate H.
    + intros H. exfalso. rewrite <- H, length_firstn in Hpl. unfold zlen in Hshort. lia.
  - destruct (readAndCheckPassword_enough password w Hlong) as (w1 & tr & E & _).
    pose proof (memcmp_zero_iff 64 password (firstn 64 (stream_bytes (w_client w))) Hpl
                  (zlen_firstn_le 64 _ Hlong)) as Hm.
    set (m := memcmp password (firstn 64 (stream_bytes (w_client w))) 64) in *.
    rewrite E. cbn [fst].
    split.
    + intros H. injection H as H. apply Z.eqb_eq in H. symmetry. apply Hm. exact H.
    + intros H. f_equal. apply Z.eqb_eq. apply Hm. symmetry. exact H.
Qed.

Section Authentication.

Context {P : Type} {parser_ops : ScgiRequestParser.ops P}.
Context {E : Type} {extractor_ops : HttpStatusExtractor.ops E}.
Variable env : Env.
Variable password : bytes.
Hypothesis password_size : zlen password = HELPER_SERVER_PASSWORD_SIZE.

(** With the right password, the request is handled from there. *)
Lemma handleRequest_accepts (w : World) :
  firstn 64 (stream_bytes (w_client w)) = password ->
  exists w1,
    readAndCheckPassword password w = (Ok true, w1) /\
    stream_bytes (w_client w1) = skipn 64 (stream_bytes (w_client w)) /\
    handleRequest env password w = handleRequest_authenticated env w1.
Proof.
  intros Heq.
  assert (Hlong : 64 <= zlen (stream_bytes (w_client w))).
  { unfold zlen, HELPER_SERVER_PASSWORD_SIZE in *.
    rewrite <- Heq, length_firstn in password_size. lia. }
  destruct (readAndCheckPassword_enough password w Hlong) as (w1 & tr & Erd & _ & _ & Hrest & _).
  pose proof (proj2 (readAndCheckPassword_true_iff password w password_size) Heq) as Ht.
  set (m := memcmp password (firstn 64 (stream_bytes (w_client w))) 64) in *.
  rewrite Erd in Ht. cbn [fst] in Ht. injection Ht as Ht. rewrite Ht in Erd.
  exists w1. repeat apply conj; auto.
  unfold handleRequest, bind at 1. rewrite Erd. reflexivity.
Qed.

(** On a mismatch or on end of file, the handler logs and returns. *)
Lemma handleRequest_rejects (w : World) :
  firstn 64 (stream_bytes (w_client w)) <> password ->
  64 <= zlen (stream_bytes (w_client w)) \/ no_read_error (w_client w) = true ->
  exists w1 tr,
    readAndCheckPassword password w = (Ok false, w1) /\
    w_trace w1 = w_trace w ++ tr /\
    Forall (is_read_event ClientFd) tr /\
    handleRequest env password w =
      (Ok true, emit (EvLog "Client did not send a correct password.") w1).
Proof.
  intros Hneq Hcase.
  assert (Hf : exists w1 tr, readAndCheckPassword password w = (Ok false, w1) /\
                             w_trace w1 = w_trace w ++ tr /\
                             Forall (is_read_event ClientFd) tr).
  { destruct (Z_lt_le_dec (zlen (stream_bytes (w_client w))) 64) as [Hshort | Hlong].
    - destruct Hcase as [Hc | Hne]; [lia|].
      destruct (readAndCheckPassword_short password w Hshort)
        as (r & w1 & tr & Erd & Htr & Hall & [(_ & -> & _) | (Hne' & _)]); [|congruence].
      exists w1, tr. auto.
    - destruct (readAndCheckPassword_enough password w Hlong)
        as (w1 & tr & Erd & Htr & Hall & _).
      pose proof (proj1 (readAndCheckPassword_true_iff password w password_size)) as Ht.
      set (m := memcmp password (firstn 64 (stream_bytes (w_client w))) 64) in *.
      exists w1, tr. repeat apply conj; auto.
      rewrite Erd in *. cbn [fst] in Ht.
      destruct (m =? 0); [|reflexivity].
      exfalso. apply Hneq, Ht. reflexivity. }
  destruct Hf as (w1 & tr & Erd & Htr & Hall).
  exists w1, tr. repeat apply conj; auto.
  unfold handleRequest, bind at 1. rewrite Erd. reflexivity.
Qed.

End Authentication.

(** ** A connection in the loop of [threadMain] *)

Lemma set_pending_client_same (w : World) : set_pending ClientFd (w_client w) w = w.
Proof. destruct w. reflexivity. Qed.

Lemma SharedData_delete_cases (fd : Z * Z) (w : World) :
  (fst fd <> -1 /\ SharedData_delete fd w = (Ok tt, emit (EvClose ClientFd) w)) \/
  (fst fd = -1 /\
   SharedData_delete fd w =
     (Throw (SystemException "Cannot close file descriptor" (snd fd)),
      emit (EvClose ClientFd) (set_errno (snd fd) w))).
Proof.
  unfold SharedData_delete, syscall, bind, get_errno, throw, ret. cbv beta iota.
  destruct (fst fd =? -1) eqn:Ec.
  - right. apply Z.eqb_eq in Ec. split; [exact Ec | reflexivity].
  - left. apply Z.eqb_neq in Ec. split; [exact Ec | reflexivity].
Qed.

(** The round of [threadMain] for a connection, from what [handleRequest]
    does on it: [fd] is destroyed when the round ends and when an exception
    leaves [handleRequest]; its destructor throws when [close] fails. *)
Lemma threadMain_connection {P : Type} {parser_ops : ScgiRequestParser.ops P}
      {E : Type} {extractor_ops : HttpStatusExtractor.ops E}
      (env : Env) (password : bytes) (fd : Z * Z) (answers : list accept_answer)
      (w w2 : World) (r : result bool) :
  handleRequest env password (emit EvAccept w) = (r, w2) ->
  threadMain env password (Connection (w_client w) fd :: answers) w =
    match r with
    | Ok _ =>
        if fst fd =? -1 then
          (ThreadAborted,
           emit (EvLog "Uncaught exception in PassengerServer client thread")
             (emit (EvClose ClientFd) (set_errno (snd fd) w2)))
        else threadMain env password answers (emit (EvClose ClientFd) w2)
    | Throw e =>
        if fst fd =? -1 then (ThreadTerminated, emit (EvClose ClientFd) (set_errno (snd fd) w2))
        else threadMain_catch e (emit (EvClose ClientFd) w2)
    | OutOfFuel => (ThreadNoFuel, w2)
    end.
Proof.
  intros Hrun. cbn [threadMain]. unfold acceptConnection, bind at 1, sys_accept, ret.
  rewrite set_pending_client_same, Hrun.
  destruct r as [b | e |]; [| | reflexivity];
    (destruct (SharedData_delete_cases fd w2) as [(Hc & ->) | (Hc & ->)];
     [apply Z.eqb_neq in Hc | apply Z.eqb_eq in Hc]; rewrite Hc; reflexivity).
Qed.

(** C2. Handling proceeds past authentication exactly when the first 64
    bytes of the connection are the password. On a mismatch, or when the
    client closes before 64 bytes, [handleRequest] does nothing after the
    password check but to log and return, and [threadMain] closes the
    connection: after the reads of the password there is no further read of
    the socket and no [pool->get]. When [close] succeeds the thread goes on
    with the next [accept]; when it fails, the destructor of the descriptor
    throws and [threadMain] logs and calls [abort()]. *)
Theorem handleRequest_checks_password :
  forall {P : Type} {parser_ops : ScgiRequestParser.ops P}
         {E : Type} {extractor_ops : HttpStatusExtractor.ops E}
         (env : Env) (password : bytes) (w : World),
    zlen password = HELPER_SERVER_PASSWORD_SIZE ->
    let s := stream_bytes (w_client w) in
    let rejected := emit (EvLog "Client did not send a correct password.") in
    (fst (readAndCheckPassword password w) = Ok true <-> firstn 64 s = password) /\
    (firstn 64 s = password ->
     exists w1,
       readAndCheckPassword password w = (Ok true, w1) /\
       stream_bytes (w_client w1) = skipn 64 s /\
       handleRequest env password w = handleRequest_authenticated env w1) /\
    (firstn 64 s <> password ->
     64 <= zlen s \/ no_read_error (w_client w) = true ->
     (exists w1 tr,
        readAndCheckPassword password w = (Ok false, w1) /\
        w_trace w1 = w_trace w ++ tr /\
        Forall (is_read_event ClientFd) tr /\
        handleRequest env password w = (Ok true, rejected w1) /\
        pool_gets (w_trace (rejected w1)) = pool_gets (w_trace w)) /\
     (exists w1 tr,
        readAndCheckPassword password (emit EvAccept w) = (Ok false, w1) /\
        w_trace w1 = w_trace w ++ [EvAccept] ++ tr /\
        Forall (is_read_event ClientFd) tr /\
        (forall fd answers,
           fst fd <> -1 ->
           threadMain env password (Connection (w_client w) fd :: answers) w =
             threadMain env password answers (emit (EvClose ClientFd) (rejected w1))) /\
        (forall fd answers,
           fst fd = -1 ->
           threadMain env password (Connection (w_client w) fd :: answers) w =
             (ThreadAborted,
              emit (EvLog "Uncaught exception in PassengerServer client thread")
                (emit (EvClose ClientFd) (set_errno (snd fd) (rejected w1))))) /\
        pool_gets (w_trace (emit (EvClose ClientFd) (rejected w1))) =
          pool_gets (w_trace w))).
Proof.
  intros P parser_ops E extractor_ops env password w Hpw s rejected.
  split; [apply readAndCheckPassword_true_iff; exact Hpw|].
  split; [apply handleRequest_accepts; exact Hpw|].
  intros Hneq Hcase. split.
  - destruct (handleRequest_rejects env password Hpw w Hneq Hcase)
      as (w1 & tr & Erd & Htr & Hall & Eh).
    exists w1, tr. repeat apply conj; auto.
    unfold rejected. cbn [w_trace emit].
    rewrite Htr, !pool_gets_app, (reads_no_pool_get _ _ Hall).
    unfold pool_gets. simpl. lia.
  - destruct (handleRequest_rejects env password Hpw (emit EvAccept w) Hneq Hcase)
      as (w1 & tr & Erd & Htr & Hall & Eh).
    exists w1, tr. repeat apply conj; auto.
    + rewrite Htr. cbn [w_trace emit]. rewrite <- app_assoc. reflexivity.
    + intros fd answers Hc. rewrite (threadMain_connection _ _ fd answers _ _ _ Eh).
      apply Z.eqb_neq in Hc. rewrite Hc. reflexivity.
    + intros fd answers Hc. rewrite (threadMain_connection _ _ fd answers _ _ _ Eh).
      apply Z.eqb_eq in Hc. rewrite Hc. reflexivity.
    + unfold rejected. cbn [w_trace emit].
      rewrite Htr. cbn [w_trace emit]. rewrite !pool_gets_app, (reads_no_pool_get _ _ Hall).
      unfold pool_gets. simpl. lia.
Qed.

Lemma handleRequest_checks_password_witness :
  zlen secretA = HELPER_SERVER_PASSWORD_SIZE /\
  firstn 64 (stream_bytes (w_client bad_password_world)) <> secretA /\
  (64 <= zlen (stream_bytes (w_client bad_password_world)) \/
   no_read_error (w_client bad_password_world) = true) /\
  exists w1 tr,
    readAndCheckPassword secretA (emit EvAccept bad_password_world) = (Ok false, w1) /\
    w_trace w1 = w_trace bad_password_world ++ [EvAccept] ++ tr /\
    Forall (is_read_event ClientFd) tr /\
    threadMain (P := SpecParser.t) (E := SpecExtractor.t) env_ok secretA
      [Connection (w_client bad_password_world) (0, 0)] bad_password_world =
    threadMain (P := SpecParser.t) (E := SpecExtractor.t) env_ok secretA []
      (emit (EvClose ClientFd)
         (emit (EvLog "Client did not send a correct password.") w1)) /\
    pool_gets (w_trace (emit (EvClose ClientFd)
                          (emit (EvLog "Client did not send a correct password.") w1))) =
      pool_gets (w_trace bad_password_world).
Proof.
  assert (H1 : zlen secretA = HELPER_SERVER_PASSWORD_SIZE) by reflexivity.
  assert (H2 : firstn 64 (stream_bytes (w_client bad_password_world)) <> secretA)
    by (vm_compute; discriminate).
  assert (H3 : 64 <= zlen (stream_bytes (w_client bad_password_world)) \/
               no_read_error (w_client bad_password_world) = true)
    by (right; reflexivity).
  assert (H4 : fst (0, 0) <> -1) by discriminate.
  split; [exact H1|]. split; [exact H2|]. split; [exact H3|].
  destruct (proj2 (proj2 (proj2 (handleRequest_checks_password
                                   (P := SpecParser.t) (E := SpecExtractor.t)
                                   env_ok secretA bad_password_world H1)) H2 H3))
    as (w1 & tr & Erd & Htr & Hall & Hnext & _ & Hpool).
  exists w1, tr. repeat apply conj; auto.
Defined.

(** Scenario 4: one read of 64 bytes, the log entry, the close; then the
    thread is interrupted in the next [accept]. *)
Example bad_password_round :
  threadMain (P := SpecParser.t) (E := SpecExtractor.t) env_ok secretA
    [Connection (w_client bad_password_world) (0, 0); AcceptInterrupted] bad_password_world =
  (ThreadReturned,
   mkWorld [] [] [] 0
     [EvAccept; EvRead ClientFd 64 64;
      EvLog "Client did not send a correct password."; EvClose ClientFd; EvAccept]).
Proof. vm_compute. reflexivity. Qed.

(** ** Forwarding the response *)

Section ForwardResponse.

Context {E : Type} {extractor_ops : HttpStatusExtractor.ops E}.



End ForwardResponse.




(** Scenario 3, a response without a [Status] header: the status line
    defaults to [200 OK], and the header block follows it at once. *)
Example forwardResponse_default_status_run :
  let '(r, w') := forwardResponse (E := SpecExtractor.t) default_status_world in
  r = Ok tt /\
  client_output (w_trace w') =
    lit "HTTP/1.1 200 OK" ++ lit "Content-Type: text/plain" ++ CRLF ++ CRLF ++ lit "body".
Proof. vm_compute. split; reflexivity. Qed.

(** A [Status] line in the body of a response is not a header. *)
Example forwardResponse_status_in_body_run :
  let '(r, w') :=
    forwardResponse (E := SpecExtractor.t)
      (mkWorld [] [Chunk (lit "X: y" ++ CRLF ++ CRLF ++ lit "Status: 404 Not Found" ++ CRLF)]
               [] 0 []) in
  r = Ok tt /\
  client_output (w_trace w') =
    lit "HTTP/1.1 200 OK" ++ lit "X: y" ++ CRLF ++ CRLF ++ lit "Status: 404 Not Found" ++ CRLF.
Proof. vm_compute. split; reflexivity. Qed.

(** ** What the first two steps leave in the trace *)

Lemma quiet_trace (tr : list event) :
  Forall is_quiet_event tr ->
  client_output tr = [] /\ pool_gets tr = O /\ session_body tr = [].
Proof.
  induction 1 as [|ev tr Hev _ (IH1 & IH2 & IH3)]; [repeat split|].
  destruct ev; try contradiction; unfold client_output, pool_gets, session_body in *;
    simpl; auto.
Qed.

Lemma reads_are_quiet (fd : fdsel) (tr : list event) :
  Forall (is_read_event fd) tr -> Forall is_quiet_event tr.
Proof.
  apply Forall_impl. intros ev H. destruct ev; try (destruct fd; discriminate H). exact I.
Qed.

Lemma read_fd_cases (fd : fdsel) (count : Z) (w : World) :
  1 <= count ->
  (exists data s',
     data <> [] /\
     read_fd fd count w =
       (Ok (zlen data, data), emit (EvRead fd count (zlen data)) (set_pending fd s' w)) /\
     zlen data <= count /\
     stream_bytes (pending fd w) = data ++ stream_bytes s' /\
     no_read_error s' = no_read_error (pending fd w) /\
     (weight s' < weight (pending fd w))%nat) \/
  (stream_bytes (pending fd w) = [] /\ no_read_error (pending fd w) = true /\
   read_fd fd count w = (Ok (0, []), emit (EvRead fd count 0) (set_pending fd [] w))) \/
  (stream_bytes (pending fd w) = [] /\ no_read_error (pending fd w) = false /\
   exists e s',
     read_fd fd count w =
       (Ok (-1, []), emit (EvRead fd count (-1)) (set_errno e (set_pending fd s' w)))).
Proof.
  intros Hc. unfold read_fd.
  destruct (sys_read_cases count (pending fd w) Hc)
    as [(data & s' & Hd & Er & H) | [(Hs & Hne & Er) | (Hs & Hne & e & s' & Er)]].
  - left. exists data, s'. split; [exact Hd|]. split; [|exact H].
    rewrite Er. pose proof (zlen_nonneg data).
    destruct (zlen data =? -1) eqn:Em; [apply Z.eqb_eq in Em; lia | reflexivity].
  - right. left. rewrite Er. repeat split; assumption.
  - right. right. rewrite Er. repeat split; try assumption. exists e, s'. reflexivity.
Qed.

Lemma readRaw_loop_trace (fuel : nat) :
  forall (fd : fdsel) (size : Z) (acc : bytes) (w : World) r w',
    readRaw_loop fuel fd size acc w = (r, w') ->
    exists tr, w_trace w' = w_trace w ++ tr /\ Forall (is_read_event fd) tr.
Proof.
  induction fuel as [|fuel IH]; intros fd size acc w r w' Hrun; cbn [readRaw_loop] in Hrun.
  - exists []. rewrite app_nil_r.
    destruct (zlen acc <? size); injection Hrun as _ <-; split; constructor.
  - destruct (zlen acc <? size) eqn:E.
    + apply Z.ltb_lt in E.
      destruct (read_fd_cases fd (size - zlen acc) w)
        as [(data & s' & Hd & Er & _) | [(_ & _ & Er) | (_ & _ & e & s' & Er)]]; [lia | | |];
        unfold bind at 1 in Hrun; rewrite Er in Hrun.
      * pose proof (zlen_nonneg data).
        assert (Hdl : zlen data <> 0).
        { destruct data; [congruence | unfold zlen; simpl; lia]. }
        returned_data_in Hd Hrun.
        destruct (IH _ _ _ _ _ _ Hrun) as (tr & Htr & Hall).
        exists (EvRead fd (size - zlen acc) (zlen data) :: tr). split.
        -- rewrite Htr. destruct fd; simpl; rewrite <- app_assoc; reflexivity.
        -- constructor; [apply is_read_of_refl | exact Hall].
      * simpl in Hrun. injection Hrun as _ <-.
        exists [EvRead fd (size - zlen acc) 0]. split.
        -- destruct fd; reflexivity.
        -- constructor; [apply is_read_of_refl | constructor].
      * simpl in Hrun. injection Hrun as _ <-.
        exists [EvRead fd (size - zlen acc) (-1)]. split.
        -- destruct fd; reflexivity.
        -- constructor; [apply is_read_of_refl | constructor].
    + injection Hrun as _ <-. exists []. rewrite app_nil_r. split; constructor.
Qed.

Lemma readAndCheckPassword_trace (password : bytes) (w : World) r w1 :
  readAndCheckPassword password w = (r, w1) ->
  exists tr, w_trace w1 = w_trace w ++ tr /\ Forall is_quiet_event tr.
Proof.
  unfold readAndCheckPassword, readRaw, bind. intros Hrun.
  destruct (readRaw_loop (Z.to_nat HELPER_SERVER_PASSWORD_SIZE) ClientFd
              HELPER_SERVER_PASSWORD_SIZE [] w) as [r0 w0] eqn:El.
  destruct (readRaw_loop_trace _ _ _ _ _ _ _ El) as (tr & Htr & Hall).
  exists tr. split; [|eapply reads_are_quiet; exact Hall].
  destruct r0 as [[ok buf] | e |]; [destruct ok|..]; injection Hrun as _ <-; exact Htr.
Qed.

(** ** Reading the header block *)

Section Headers.

Context {P : Type} {parser_ops : ScgiRequestParser.ops P}.

(** How the loop of [readAndParseRequestHeaders] ends: on a failing read;
    on end of file, with the parser it was given or one that still accepts
    input; or with a parser that has stopped accepting input on the bytes
    of the last read, of which it took [accepted]. *)
Lemma readHeaders_loop_spec (fuel : nat) :
  forall (parser : P) (buf : bytes) (accepted : Z) (w : World) r w',
    (weight (w_client w) < fuel)%nat ->
    readHeaders_loop fuel parser buf accepted w = (r, w') ->
    exists tr,
      w_trace w' = w_trace w ++ tr /\
      Forall (is_read_event ClientFd) tr /\
      match r with
      | Throw e => exists code, e = SystemException "Cannot read request header" code
      | OutOfFuel => False
      | Ok (parser', buf', size, accepted') =>
          (size = 0 /\
           (parser' = parser \/ ScgiRequestParser.acceptingInput parser' = true)) \/
          (exists prev before,
             buf' <> [] /\ size = zlen buf' /\
             ScgiRequestParser.feed prev buf' = (parser', accepted') /\
             ScgiRequestParser.acceptingInput parser' = false /\
             stream_bytes (w_client w) = before ++ buf' ++ stream_bytes (w_client w'))
      end.
Proof.
  induction fuel as [|fuel IH]; intros parser buf accepted w r w' Hfuel Hrun; [lia|].
  cbn [readHeaders_loop] in Hrun.
  destruct (read_fd_cases ClientFd HEADER_BUF_SIZE w)
    as [(data & s' & Hd & Er & _ & Hs & _ & Hw) | [(_ & _ & Er) | (_ & _ & e & s' & Er)]];
    [unfold HEADER_BUF_SIZE; lia | | |];
    unfold bind at 1 in Hrun; rewrite Er in Hrun.
  - pose proof (zlen_nonneg data).
    assert (Hdl : zlen data <> 0).
    { destruct data; [congruence | unfold zlen; simpl; lia]. }
    returned_data_in Hd Hrun.
    destruct (ScgiRequestParser.feed parser data) as [parser1 accepted1] eqn:Ef.
    simpl in Hs, Hw.
    destruct (ScgiRequestParser.acceptingInput parser1) eqn:Ea.
    + set (w1 := emit (EvRead ClientFd HEADER_BUF_SIZE (zlen data))
                   (set_pending ClientFd s' w)) in *.
      destruct (IH parser1 data accepted1 w1 r w') as (tr & Htr & Hall & Hres);
        [simpl; lia | exact Hrun |].
      exists (EvRead ClientFd HEADER_BUF_SIZE (zlen data) :: tr). repeat apply conj.
      * rewrite Htr. simpl. rewrite <- app_assoc. reflexivity.
      * constructor; [reflexivity | exact Hall].
      * destruct r as [[[[pf bf] size] af] | ex |]; auto.
        destruct Hres as [(Hz & [-> | Hacc]) | (prev & before & H1 & H2 & H3 & H4 & H5)].
        -- left. auto.
        -- left. auto.
        -- right. exists prev, (data ++ before). repeat apply conj; auto.
           rewrite Hs. simpl in H5. rewrite H5, <- app_assoc. reflexivity.
    + injection Hrun as <- <-.
      exists [EvRead ClientFd HEADER_BUF_SIZE (zlen data)]. repeat apply conj.
      * reflexivity.
      * constructor; [reflexivity | constructor].
      * right. exists parser, []. repeat apply conj; auto.
  - simpl in Hrun. injection Hrun as <- <-.
    exists [EvRead ClientFd HEADER_BUF_SIZE 0]. repeat apply conj.
    + reflexivity.
    + constructor; [reflexivity | constructor].
    + left. auto.
  - simpl in Hrun. injection Hrun as <- <-.
    exists [EvRead ClientFd HEADER_BUF_SIZE (-1)]. repeat apply conj.
    + reflexivity.
    + constructor; [reflexivity | constructor].
    + eexists. reflexivity.
Qed.

Lemma readHeaders_trace (parser : P) (w : World) r w' :
  readHeaders parser w = (r, w') ->
  exists tr, w_trace w' = w_trace w ++ tr /\ Forall is_quiet_event tr.
Proof.
  unfold readHeaders. intros Hrun.
  destruct (readHeaders_loop_spec _ _ _ _ _ _ _ (Nat.lt_succ_diag_r _) Hrun)
    as (tr & Htr & Hall & _).
  exists tr. split; [exact Htr | eapply reads_are_quiet; exact Hall].
Qed.

Lemma readAndParseRequestHeaders_trace (parser : P) (requestBody : bytes) (w : World) r w' :
  readAndParseRequestHeaders parser requestBody w = (r, w') ->
  exists tr, w_trace w' = w_trace w ++ tr /\ Forall is_quiet_event tr.
Proof.
  unfold readAndParseRequestHeaders, bind at 1. intros Hrun.
  destruct (readHeaders parser w) as [r0 w0] eqn:El.
  destruct (readHeaders_trace _ _ _ _ El) as (tr & Htr & Hall).
  destruct r0 as [[[[pf bf] size] af] | e |].
  - destruct (negb (ScgiRequestParser.State_eqb (ScgiRequestParser.getState pf)
                                                ScgiRequestParser.DONE)).
    { injection Hrun as _ <-. exists (tr ++ [EvLog "Invalid SCGI header received."]).
      split; [simpl; rewrite Htr, app_assoc; reflexivity|].
      apply Forall_app. split; [exact Hall | repeat constructor]. }
    destruct (negb (ScgiRequestParser.hasHeader pf (lit "DOCUMENT_ROOT"))).
    { injection Hrun as _ <-. exists (tr ++ [EvLog "DOCUMENT_ROOT header is missing."]).
      split; [simpl; rewrite Htr, app_assoc; reflexivity|].
      apply Forall_app. split; [exact Hall | repeat constructor]. }
    unfold bind, assign_tail in Hrun.
    destruct (size <? af); injection Hrun as _ <-; exists tr; auto.
  - injection Hrun as _ <-. exists tr. auto.
  - injection Hrun as _ <-. exists tr. auto.
Qed.

End Headers.

(** ** A spawn failure *)

Lemma handleSpawnException_writes (e : SpawnException) (w : World) :
  exists w',
    handleSpawnException e w = (Ok tt, w') /\
    exists tr,
      w_trace w' = w_trace w ++ tr /\
      client_output tr = spawn_failure_response e /\
      pool_gets tr = O.
Proof.
  unfold handleSpawnException, spawn_failure_response, spawn_failure_body, strlen.
  destruct (hasErrorPage e).
  - eexists. split; [reflexivity|]. eexists. split.
    + cbn [w_trace emit]. rewrite <- !app_assoc. reflexivity.
    + split; [|reflexivity].
      unfold client_output. cbn [flat_map written_to app].
      rewrite <- !app_assoc, app_nil_r. reflexivity.
  - eexists. split; [reflexivity|]. eexists. split.
    + cbn [w_trace emit]. rewrite <- !app_assoc. reflexivity.
    + split; [|reflexivity].
      unfold client_output. cbn [flat_map written_to app].
      rewrite <- !app_assoc, app_nil_r. reflexivity.
Qed.

(** C4. When [pool->get] throws a [SpawnException], the client receives
    exactly the 500 response: nothing before it and nothing after it. Its
    body is the error page if the exception has one, else the message, and
    [Content-Length] is the length of that body. [handleRequest] then
    returns (the value [false]). *)
Theorem handleRequest_spawn_failure_response :
  forall {P : Type} {parser_ops : ScgiRequestParser.ops P}
         {E : Type} {extractor_ops : HttpStatusExtractor.ops E}
         (env : Env) (password : bytes) (w w1 w2 : World)
         (parser : P) (body root : bytes) (e : SpawnException),
    readAndCheckPassword password w = (Ok true, w1) ->
    readAndParseRequestHeaders ScgiRequestParser.init [] w1 = (Ok (true, parser, body), w2) ->
    canonicalizePath env (app_root_path parser) = inr root ->
    pool_get env (options_of parser root) = inl (Spawn e) ->
    exists w3,
      handleRequest env password w = (Ok false, w3) /\
      Completed (fst (handleRequest env password w)) /\
      client_output (w_trace w3) = client_output (w_trace w) ++ spawn_failure_response e /\
      session_body (w_trace w3) = session_body (w_trace w).
Proof.
  intros P parser_ops E extractor_ops env password w w1 w2 parser body root e Hpw Hparse Hroot Hpool.
  destruct (readAndCheckPassword_trace _ _ _ _ Hpw) as (tr1 & Htr1 & Hq1).
  destruct (readAndParseRequestHeaders_trace _ _ _ _ _ Hparse) as (tr2 & Htr2 & Hq2).
  destruct (quiet_trace _ Hq1) as (Hc1 & _ & Hb1).
  destruct (quiet_trace _ Hq2) as (Hc2 & _ & Hb2).
  set (w2' := emit (EvPoolGet (options_of parser root))
                (emit (EvCanonicalize (app_root_path parser)) w2)).
  destruct (handleSpawnException_writes e w2') as (w3 & Ew & tr3 & Htr3 & Hc3 & _).
  assert (Hrun : handleRequest env password w = (Ok false, w3)).
  { unfold handleRequest, bind at 1. rewrite Hpw. cbn [negb].
    unfold handleRequest_authenticated, bind at 1. rewrite Hparse. cbn [negb].
    unfold try_catch at 1, handleRequest_try, bind at 1, call_canonicalizePath.
    rewrite Hroot. unfold bind at 1, try_catch at 1, bind at 1, call_pool_get.
    rewrite Hpool. fold w2'. rewrite Ew. reflexivity. }
  exists w3. rewrite Hrun. repeat apply conj.
  - reflexivity.
  - exists false. reflexivity.
  - rewrite Htr3. unfold w2'. cbn [w_trace emit]. rewrite Htr2, Htr1.
    rewrite !client_output_app, Hc1, Hc2, Hc3. rewrite !app_nil_r. reflexivity.
  - assert (Hb3 : session_body tr3 = []).
    { clear - Ew Htr3. unfold handleSpawnException in Ew.
      destruct (hasErrorPage e); injection Ew as <-; cbn [w_trace emit] in Htr3;
        rewrite <- !app_assoc in Htr3; apply app_inv_head in Htr3; subst tr3; reflexivity. }
    rewrite Htr3. unfold w2'. cbn [w_trace emit]. rewrite Htr2, Htr1.
    rewrite !session_body_app, Hb1, Hb2, Hb3. rewrite !app_nil_r. reflexivity.
Qed.

(** ** An invalid header block, and the partial body *)

Lemma State_eqb_eq (a b : ScgiRequestParser.State) :
  ScgiRequestParser.State_eqb a b = true <-> a = b.
Proof. destruct a, b; simpl; split; intros H; try reflexivity; discriminate H. Qed.

(** C5. For a connection that has passed authentication: if the parser is
    left in a state other than [DONE], or the header block has no
    [DOCUMENT_ROOT], [handleRequest] logs and returns, [threadMain] closes
    the connection, and [pool->get] has not been called; the thread goes on
    with the next [accept] when [close] succeeds, and logs and calls
    [abort()] when it fails. Otherwise the request body starts with the bytes of the last read that
    the parser did not accept. The parser is any implementation of its
    interface that starts outside [DONE], accepts no input in [DONE], and
    accepts no more bytes than it is fed. *)
Theorem handleRequest_invalid_header_or_partial_body :
  forall {P : Type} {parser_ops : ScgiRequestParser.ops P}
         {E : Type} {extractor_ops : HttpStatusExtractor.ops E}
         (env : Env) (password : bytes),
    ScgiRequestParser.getState ScgiRequestParser.init <> ScgiRequestParser.DONE ->
    (forall p : P, ScgiRequestParser.acceptingInput p = true ->
                   ScgiRequestParser.getState p <> ScgiRequestParser.DONE) ->
    (forall (p : P) (data : bytes), 0 <= snd (ScgiRequestParser.feed p data) <= zlen data) ->
    forall (w0 w1 w2 : World) (parser : P) (buf : bytes) (size accepted : Z),
      readAndCheckPassword password (emit EvAccept w0) = (Ok true, w1) ->
      readHeaders ScgiRequestParser.init w1 = (Ok (parser, buf, size, accepted), w2) ->
      (ScgiRequestParser.getState parser <> ScgiRequestParser.DONE \/
       ScgiRequestParser.hasHeader parser (lit "DOCUMENT_ROOT") = false ->
       exists msg,
         (msg = "Invalid SCGI header received."%string \/
          msg = "DOCUMENT_ROOT header is missing."%string) /\
         handleRequest env password (emit EvAccept w0) = (Ok true, emit (EvLog msg) w2) /\
         Completed (fst (handleRequest env password (emit EvAccept w0))) /\
         (forall fd answers,
            fst fd <> -1 ->
            threadMain env password (Connection (w_client w0) fd :: answers) w0 =
              threadMain env password answers (emit (EvClose ClientFd) (emit (EvLog msg) w2))) /\
         (forall fd answers,
            fst fd = -1 ->
            threadMain env password (Connection (w_client w0) fd :: answers) w0 =
              (ThreadAborted,
               emit (EvLog "Uncaught exception in PassengerServer client thread")
                 (emit (EvClose ClientFd) (set_errno (snd fd) (emit (EvLog msg) w2))))) /\
         pool_gets (w_trace (emit (EvClose ClientFd) (emit (EvLog msg) w2))) =
           pool_gets (w_trace w0)) /\
      (ScgiRequestParser.getState parser = ScgiRequestParser.DONE ->
       ScgiRequestParser.hasHeader parser (lit "DOCUMENT_ROOT") = true ->
       exists prev before,
         buf <> [] /\
         ScgiRequestParser.feed prev buf = (parser, accepted) /\
         stream_bytes (w_client w1) = before ++ buf ++ stream_bytes (w_client w2) /\
         readAndParseRequestHeaders ScgiRequestParser.init [] w1 =
           (Ok (true, parser, skipn (Z.to_nat accepted) buf), w2) /\
         handleRequest env password (emit EvAccept w0) =
           try_catch (handleRequest_try env parser (skipn (Z.to_nat accepted) buf))
                     handleRequest_catch w2).
Proof.
  intros P parser_ops E extractor_ops env password Hinit Hacc Hfeed
         w0 w1 w2 parser buf size accepted Hpw Hloop.
  split.
  - intros Hrej.
    set (msg := if negb (ScgiRequestParser.State_eqb (ScgiRequestParser.getState parser)
                                                      ScgiRequestParser.DONE)
                then "Invalid SCGI header received."%string
                else "DOCUMENT_ROOT header is missing."%string).
    assert (Hparse : readAndParseRequestHeaders ScgiRequestParser.init [] w1 =
                     (Ok (false, parser, []), emit (EvLog msg) w2)).
    { unfold readAndParseRequestHeaders, bind at 1. rewrite Hloop. unfold msg.
      destruct (ScgiRequestParser.State_eqb (ScgiRequestParser.getState parser)
                                            ScgiRequestParser.DONE) eqn:Est; [|reflexivity].
      cbn [negb]. apply State_eqb_eq in Est.
      destruct Hrej as [Hst | Hh]; [contradiction|]. rewrite Hh. reflexivity. }
    assert (Hrun : handleRequest env password (emit EvAccept w0) =
                   (Ok true, emit (EvLog msg) w2)).
    { unfold handleRequest, bind at 1. rewrite Hpw. cbn [negb].
      unfold handleRequest_authenticated, bind at 1. rewrite Hparse. reflexivity. }
    exists msg. rewrite Hrun. repeat apply conj.
    + unfold msg. destruct (negb _); auto.
    + reflexivity.
    + exists true. reflexivity.
    + intros fd answers Hc. rewrite (threadMain_connection _ _ fd answers _ _ _ Hrun).
      apply Z.eqb_neq in Hc. rewrite Hc. reflexivity.
    + intros fd answers Hc. rewrite (threadMain_connection _ _ fd answers _ _ _ Hrun).
      apply Z.eqb_eq in Hc. rewrite Hc. reflexivity.
    + destruct (readAndCheckPassword_trace _ _ _ _ Hpw) as (tr1 & Htr1 & Hq1).
      destruct (readHeaders_trace _ _ _ _ Hloop) as (tr2 & Htr2 & Hq2).
      destruct (quiet_trace _ Hq1) as (_ & Hg1 & _).
      destruct (quiet_trace _ Hq2) as (_ & Hg2 & _).
      cbn [w_trace emit] in *. rewrite Htr2, Htr1, !pool_gets_app, Hg1, Hg2.
      unfold pool_gets at 2 3 4. simpl. lia.
  - intros Hst Hh.
    unfold readHeaders in Hloop.
    destruct (readHeaders_loop_spec _ _ _ _ _ _ _ (Nat.lt_succ_diag_r _) Hloop)
      as (tr & _ & _ & [(_ & [-> | Ha]) | (prev & before & Hb & Hsz & Hf & _ & Hs)]).
    + contradiction.
    + elim (Hacc _ Ha Hst).
    + assert (Hparse : readAndParseRequestHeaders ScgiRequestParser.init [] w1 =
                       (Ok (true, parser, skipn (Z.to_nat accepted) buf), w2)).
      { unfold readAndParseRequestHeaders, bind at 1.
        change (readHeaders ScgiRequestParser.init w1) with
          (readHeaders_loop (S (weight (w_client w1))) ScgiRequestParser.init [] 0 w1).
        rewrite Hloop.
        apply State_eqb_eq in Hst. rewrite Hst, Hh. cbn [negb].
        pose proof (Hfeed prev buf) as Hr. rewrite Hf in Hr. cbn [snd] in Hr.
        unfold bind, assign_tail.
        destruct (size <? accepted) eqn:Elt; [apply Z.ltb_lt in Elt; lia|].
        unfold ret. do 3 f_equal.
        apply firstn_all2. rewrite length_skipn. unfold zlen in *. lia. }
      exists prev, before. repeat apply conj; auto.
      unfold handleRequest, bind at 1. rewrite Hpw. cbn [negb].
      unfold handleRequest_authenticated, bind at 1. rewrite Hparse. reflexivity.
Qed.

(** The loop that reads the header block always ends: with the parser and
    the last read, or on a failing read. *)
Lemma readHeaders_returns {P : Type} {parser_ops : ScgiRequestParser.ops P}
      (parser : P) (w : World) :
  (exists parser' buf size accepted w',
     readHeaders parser w = (Ok (parser', buf, size, accepted), w')) \/
  (exists code w',
     readHeaders parser w = (Throw (SystemException "Cannot read request header" code), w')).
Proof.
  destruct (readHeaders parser w) as [r w'] eqn:Hrun.
  pose proof Hrun as Hrun'. unfold readHeaders in Hrun'.
  destruct (readHeaders_loop_spec _ _ _ _ _ _ _ (Nat.lt_succ_diag_r _) Hrun')
    as (tr & _ & _ & Hres).
  destruct r as [[[[pf bf] size] af] | e |].
  - left. exists pf, bf, size, af, w'. reflexivity.
  - right. destruct Hres as (code & ->). exists code, w'. reflexivity.
  - contradiction.
Qed.

Lemma SpecParser_feed_bound (data : bytes) :
  forall (p : SpecParser.t) (consumed : Z),
    consumed <= snd (SpecParser.feed_bytes p data consumed) <= consumed + zlen data.
Proof.
  induction data as [|b data IH]; intros p consumed; cbn [SpecParser.feed_bytes].
  - unfold zlen. simpl. lia.
  - assert (Hl : zlen (b :: data) = 1 + zlen data) by (unfold zlen; cbn [List.length]; lia).
    pose proof (zlen_nonneg data).
    destruct (SpecParser.accepting p).
    + specialize (IH (SpecParser.step p b) (consumed + 1)). lia.
    + simpl. lia.
Qed.

Lemma SpecParser_done_not_accepting (p : SpecParser.t) :
  SpecParser.accepting p = true -> SpecParser.state p <> ScgiRequestParser.DONE.
Proof. unfold SpecParser.accepting. destruct (SpecParser.state p); discriminate. Qed.

Lemma handleRequest_invalid_header_or_partial_body_witness :
  exists msg,
    (msg = "Invalid SCGI header received."%string \/
     msg = "DOCUMENT_ROOT header is missing."%string) /\
    threadMain (P := SpecParser.t) (E := SpecExtractor.t) env_ok secretA
      [Connection (w_client missing_root_world) (0, 0)] missing_root_world =
    threadMain (P := SpecParser.t) (E := SpecExtractor.t) env_ok secretA []
      (emit (EvClose ClientFd)
         (emit (EvLog msg)
            (mkWorld [] [] [] 0 [EvAccept; EvRead ClientFd 64 64; EvRead ClientFd 16384 23]))).
Proof.
  assert (H1 : ScgiRequestParser.getState (P := SpecParser.t) ScgiRequestParser.init
               <> ScgiRequestParser.DONE) by discriminate.
  assert (H2 : forall p : SpecParser.t,
             ScgiRequestParser.acceptingInput p = true ->
             ScgiRequestParser.getState p <> ScgiRequestParser.DONE)
    by exact SpecParser_done_not_accepting.
  assert (H3 : forall (p : SpecParser.t) (data : bytes),
             0 <= snd (ScgiRequestParser.feed p data) <= zlen data)
    by (intros p data; exact (SpecParser_feed_bound data p 0)).
  assert (H4 : readAndCheckPassword secretA (emit EvAccept missing_root_world) =
               (Ok true, mkWorld [Chunk frame_no_root] [] [] 0 [EvAccept; EvRead ClientFd 64 64]))
    by (vm_compute; reflexivity).
  assert (H5 : readHeaders (P := SpecParser.t) ScgiRequestParser.init
                 (mkWorld [Chunk frame_no_root] [] [] 0 [EvAccept; EvRead ClientFd 64 64]) =
               (Ok (parser_no_root, frame_no_root, 23, 23),
                mkWorld [] [] [] 0 [EvAccept; EvRead ClientFd 64 64; EvRead ClientFd 16384 23]))
    by (vm_compute; reflexivity).
  assert (H6 : ScgiRequestParser.getState parser_no_root <> ScgiRequestParser.DONE \/
               ScgiRequestParser.hasHeader parser_no_root (lit "DOCUMENT_ROOT") = false)
    by (right; vm_compute; reflexivity).
  destruct (proj1 (handleRequest_invalid_header_or_partial_body
                     (P := SpecParser.t) (E := SpecExtractor.t) env_ok secretA H1 H2 H3
                     missing_root_world _ _ parser_no_root frame_no_root 23 23 H4 H5) H6)
    as (msg & Hmsg & _ & _ & Hround & _).
  assert (H7 : fst (0, 0) <> -1) by discriminate.
  exists msg. split; [exact Hmsg | exact (Hround (0, 0) [] H7)].
Defined.

(** Scenario 5 as it runs. *)
Example missing_root_round :
  threadMain (P := SpecParser.t) (E := SpecExtractor.t) env_ok secretA
    [Connection (w_client missing_root_world) (0, 0); AcceptInterrupted] missing_root_world =
  (ThreadReturned,
   mkWorld [] [] [] 0
     [EvAccept; EvRead ClientFd 64 64; EvRead ClientFd 16384 23;
      EvLog "DOCUMENT_ROOT header is missing."; EvClose ClientFd; EvAccept]).
Proof. vm_compute. reflexivity. Qed.

Lemma handleRequest_spawn_failure_response_witness :
  exists w3,
    handleRequest (P := SpecParser.t) (E := SpecExtractor.t)
      (env_spawn_failure oops_page) secretA happy_get_world = (Ok false, w3) /\
    Completed (fst (handleRequest (P := SpecParser.t) (E := SpecExtractor.t)
                      (env_spawn_failure oops_page) secretA happy_get_world)) /\
    client_output (w_trace w3) =
      client_output (w_trace happy_get_world) ++ spawn_failure_response oops_page /\
    session_body (w_trace w3) = session_body (w_trace happy_get_world).
Proof.
  assert (H1 : readAndCheckPassword secretA happy_get_world =
               (Ok true, mkWorld [Chunk frame_root] [] [] 0 [EvRead ClientFd 64 64]))
    by (vm_compute; reflexivity).
  assert (H2 : readAndParseRequestHeaders (P := SpecParser.t) ScgiRequestParser.init []
                 (mkWorld [Chunk frame_root] [] [] 0 [EvRead ClientFd 64 64]) =
               (Ok (true, parser_root, []),
                mkWorld [] [] [] 0 [EvRead ClientFd 64 64; EvRead ClientFd 16384 21]))
    by (vm_compute; reflexivity).
  assert (H3 : canonicalizePath (env_spawn_failure oops_page) (app_root_path parser_root) =
               inr (lit "/r/..")) by (vm_compute; reflexivity).
  assert (H4 : pool_get (env_spawn_failure oops_page) (options_of parser_root (lit "/r/..")) =
               inl (Spawn oops_page)) by reflexivity.
  exact (handleRequest_spawn_failure_response
           (P := SpecParser.t) (E := SpecExtractor.t)
           (env_spawn_failure oops_page) secretA happy_get_world _ _
           parser_root [] (lit "/r/..") oops_page H1 H2 H3 H4).
Defined.

(** Scenario 6: the error page, with [Content-Length: 13]. *)
Example spawn_failure_page_run :
  client_output
    (w_trace (snd (handleRequest (P := SpecParser.t) (E := SpecExtractor.t)
                     (env_spawn_failure oops_page) secretA happy_get_world))) =
  lit "HTTP/1.1 500 Internal Server Error" ++ CRLF ++
  lit "Status: 500 Internal Server Error" ++ CRLF ++
  lit "Connection: close" ++ CRLF ++
  lit "Content-Type: text/html; charset=utf-8" ++ CRLF ++
  lit "Content-Length: 13" ++ CRLF ++ CRLF ++ lit "<h1>oops</h1>".
Proof. vm_compute. reflexivity. Qed.

(** Without an error page the body is the message. *)
Example spawn_failure_text_run :
  client_output
    (w_trace (snd (handleRequest (P := SpecParser.t) (E := SpecExtractor.t)
                     (env_spawn_failure oops_text) secretA happy_get_world))) =
  lit "HTTP/1.1 500 Internal Server Error" ++ CRLF ++
  lit "Status: 500 Internal Server Error" ++ CRLF ++
  lit "Connection: close" ++ CRLF ++
  lit "Content-Type: text/html; charset=utf-8" ++ CRLF ++
  lit "Content-Length: 24" ++ CRLF ++ CRLF ++ lit "Cannot spawn application".
Proof. vm_compute. reflexivity. Qed.

(** ** Startup: the listening socket *)

Lemma socket_mode_value : socket_mode = 511 + S_ISVTX.
Proof. reflexivity. Qed.

(** C8, amended. [startListening] creates a Unix stream socket, binds it to
    [<tempdir>/helper_server.sock] (the C string, cut to the 107 bytes that
    fit [sun_path]), listens with backlog 50 and calls [chmod] on the path
    with mode 0777 plus the sticky bit. A failure of [socket], [bind] or
    [listen] throws [SystemException]; what [chmod] returns is not looked
    at. *)
Theorem startListening_outcome :
  forall (senv : StartupEnv) (w : World),
    let socketName := getPassengerTempDir senv ++ lit "/helper_server.sock" in
    let fd := fst (sys_socket senv) in
    socket_mode = 511 + S_ISVTX /\
    (fd = -1 \/ fst (sys_bind senv) = -1 \/ fst (sys_listen senv) = -1 ->
     exists msg code w',
       startListening senv w = (Throw (SystemException msg code), w')) /\
    (fd <> -1 -> fst (sys_bind senv) <> -1 -> fst (sys_listen senv) <> -1 ->
     exists w',
       startListening senv w = (Ok fd, w') /\
       w_trace w' =
         w_trace w ++
         [EvSocket;
          EvBind fd (firstn 107 (c_string socketName));
          EvListen fd 50;
          EvChmod (c_string socketName) socket_mode]) /\
    (zlen (c_string socketName) < SUN_PATH_SIZE ->
     firstn 107 (c_string socketName) = c_string socketName).
Proof.
  intros senv w socketName fd. split; [reflexivity|].
  unfold startListening, syscall, bind, get_errno, trace_event, throw, ret.
  fold socketName. fold fd.
  change (Z.to_nat (SUN_PATH_SIZE - 1)) with 107%nat.
  change BACKLOG_SIZE with 50.
  repeat apply conj.
  - intros Hfail.
    destruct (fd =? -1) eqn:Es; [eexists; eexists; eexists; reflexivity|].
    destruct (fst (sys_bind senv) =? -1) eqn:Eb; [eexists; eexists; eexists; reflexivity|].
    destruct (fst (sys_listen senv) =? -1) eqn:El; [eexists; eexists; eexists; reflexivity|].
    apply Z.eqb_neq in Es, Eb, El. destruct Hfail as [H | [H | H]]; contradiction.
  - intros Hs Hb Hl.
    apply Z.eqb_neq in Hs, Hb, Hl. rewrite Hs, Hb, Hl.
    eexists. split; [reflexivity|].
    destruct (fst (sys_chmod senv) =? -1); cbn [w_trace emit set_errno];
      rewrite <- !app_assoc; reflexivity.
  - intros Hlen. apply firstn_all2. unfold zlen, SUN_PATH_SIZE in Hlen. lia.
Qed.

Lemma startListening_outcome_witness :
  fst (sys_socket senv_chmod_fails) <> -1 /\
  fst (sys_bind senv_chmod_fails) <> -1 /\
  fst (sys_listen senv_chmod_fails) <> -1 /\
  exists w',
    startListening senv_chmod_fails clean_shutdown_world = (Ok 4, w') /\
    w_trace w' =
      [EvSocket;
       EvBind 4 (lit "/tmp/passenger.1234/helper_server.sock");
       EvListen 4 50;
       EvChmod (lit "/tmp/passenger.1234/helper_server.sock") socket_mode].
Proof.
  assert (H1 : fst (sys_socket senv_chmod_fails) <> -1) by discriminate.
  assert (H2 : fst (sys_bind senv_chmod_fails) <> -1) by discriminate.
  assert (H3 : fst (sys_listen senv_chmod_fails) <> -1) by discriminate.
  split; [exact H1|]. split; [exact H2|]. split; [exact H3|].
  exact (proj1 (proj2 (proj2 (startListening_outcome senv_chmod_fails clean_shutdown_world)))
           H1 H2 H3).
Defined.

(** C8 as stated fails: [chmod] fails with [EPERM], and [startListening]
    returns the socket, the constructor of [Server] returns, and the process
    runs until the admin pipe is closed and exits with code 0. *)
Lemma chmod_failure_does_not_abort_startup :
  fst (sys_chmod senv_chmod_fails) = -1 /\
  fst (startListening senv_chmod_fails clean_shutdown_world) = Ok 4 /\
  fst (main senv_chmod_fails (args_with "2") clean_shutdown_world) = Exit 0.
Proof. vm_compute. repeat split. Qed.

(** A failing [bind] does abort startup. *)
Example bind_failure_aborts_startup :
  fst (main senv_bind_fails (args_with "2") clean_shutdown_world) = Exit 1.
Proof. vm_compute. reflexivity. Qed.

(** ** Startup: the client threads *)

Section ClientThreads.

Variable senv : StartupEnv.

Lemma startClientHandlerThreads_loop_ok (todo : nat) :
  (forall n, new_thread senv n = None) ->
  forall (i : Z) (s : Server) (w : World),
  exists new w',
    startClientHandlerThreads_loop senv todo i s w =
      (Ok (mkServer (server_password s) (server_adminPipe s) (serverSocket s)
                    (numberOfThreads s) (clients s ++ new) (server_pool s)), w') /\
    List.length new = todo /\
    Forall (client_of s) new /\
    w_trace w' = w_trace w ++ map EvNewClient new /\
    w_admin w' = w_admin w.
Proof.
  intros Hthreads. induction todo as [|todo IH]; intros i s w.
  - exists [], w. simpl. rewrite !app_nil_r. destruct s. repeat split. constructor.
  - cbn [startClientHandlerThreads_loop].
    unfold bind at 1, Client_new, bind at 1, call. rewrite Hthreads.
    set (c := {| client_number := to_uint (i + 1); client_pool := server_pool s;
                 client_password := server_password s;
                 client_serverSocket := serverSocket s |}).
    set (s1 := {| server_password := server_password s;
                  server_adminPipe := server_adminPipe s;
                  serverSocket := serverSocket s;
                  numberOfThreads := numberOfThreads s;
                  clients := clients s ++ [c];
                  server_pool := server_pool s |}).
    destruct (IH (to_uint (i + 1)) s1 (emit (EvNewClient c) w))
      as (new & w' & Erun & Hlen & Hall & Htr & Hadm).
    exists (c :: new), w'. unfold ret. cbv beta iota. fold c. fold s1. rewrite Erun.
    unfold s1. cbn [server_password server_adminPipe
      serverSocket numberOfThreads clients server_pool] in *.
    rewrite <- app_assoc. repeat apply conj; auto.
    + simpl. lia.
    + constructor; [repeat split | exact Hall].
    + rewrite Htr. simpl. rewrite <- app_assoc. reflexivity.
Qed.

Lemma startClientHandlerThreads_loop_returns (todo : nat) :
  forall (i : Z) (s : Server) (w : World),
    fst (startClientHandlerThreads_loop senv todo i s w) <> OutOfFuel.
Proof.
  induction todo as [|todo IH]; intros i s w; [discriminate|].
  cbn [startClientHandlerThreads_loop].
  unfold bind at 1, Client_new, bind at 1, call.
  destruct (new_thread senv (to_uint (i + 1))); [discriminate|].
  unfold ret. cbv beta iota. apply IH.
Qed.

End ClientThreads.

(** C9, amended. The constructor of [Server] sets the number of threads to
    [4 * maxPoolSize] modulo [2^32] and the pool's maximum to [maxPoolSize];
    [startClientHandlerThreads] starts that many clients, each with the
    server's pool, password and listening socket. For [maxPoolSize < 2^30]
    the number is [4 * maxPoolSize], four times the pool's maximum. *)
Theorem Server_worker_count :
  forall (senv : StartupEnv) (password rootDir ruby : bytes)
         (adminPipe maxPoolSize maxInstancesPerApp poolIdleTime : Z)
         (w w1 : World) (s : Server),
    0 <= maxPoolSize < UINT_MODULUS ->
    (forall n, new_thread senv n = None) ->
    Server_new senv password rootDir ruby adminPipe maxPoolSize maxInstancesPerApp
               poolIdleTime w = (Ok s, w1) ->
    numberOfThreads s = (4 * maxPoolSize) mod 2 ^ 32 /\
    pool_max (server_pool s) = maxPoolSize /\
    server_password s = password /\
    exists s' w2,
      startClientHandlerThreads senv s w1 = (Ok s', w2) /\
      Z.of_nat (List.length (clients s')) = numberOfThreads s /\
      Forall (client_of s) (clients s') /\
      w_trace w2 = w_trace w1 ++ map EvNewClient (clients s') /\
      server_pool s' = server_pool s /\
      (maxPoolSize < 2 ^ 30 ->
       Z.of_nat (List.length (clients s')) = 4 * pool_max (server_pool s')).
Proof.
  intros senv password rootDir ruby adminPipe maxPoolSize mia pit w w1 s Hrange Hthreads Hnew.
  assert (Hs : numberOfThreads s = to_uint (maxPoolSize * 4) /\
               pool_max (server_pool s) = maxPoolSize /\
               server_password s = password /\ clients s = []).
  { unfold Server_new, bind at 1, call in Hnew.
    destruct (createPassengerTempDir senv); [discriminate|].
    unfold bind at 1 in Hnew.
    destruct (new_StandardApplicationPool senv); [discriminate|].
    unfold bind at 1 in Hnew.
    destruct (startListening senv _) as [[fd | e |] w'] in Hnew; try discriminate.
    injection Hnew as <- _. repeat split. }
  destruct Hs as (Hn & Hmax & Hpw & Hcl).
  assert (Hn' : numberOfThreads s = (4 * maxPoolSize) mod 2 ^ 32).
  { rewrite Hn. unfold to_uint, UINT_MODULUS. f_equal. lia. }
  repeat apply conj; auto.
  destruct (startClientHandlerThreads_loop_ok senv (Z.to_nat (numberOfThreads s)) Hthreads 0 s w1)
    as (new & w2 & Erun & Hlen & Hall & Htr & _).
  unfold startClientHandlerThreads. rewrite Erun, Hcl. cbn [app].
  eexists. exists w2. split; [reflexivity|].
  cbn [clients server_pool numberOfThreads].
  assert (Hnn : 0 <= numberOfThreads s).
  { rewrite Hn'. apply Z.mod_pos_bound. lia. }
  repeat apply conj; auto.
  - lia.
  - intros Hsmall. rewrite Hlen, Hmax, Z2Nat.id, Hn' by exact Hnn.
    apply Z.mod_small. lia.
Qed.

Lemma Server_worker_count_witness :
  0 <= 2 < UINT_MODULUS /\
  (forall n, new_thread senv_ok n = None) /\
  exists s w1,
    Server_new senv_ok secretA (lit "/opt/passenger") (lit "/usr/bin/ruby") 3 2 0 120
               clean_shutdown_world = (Ok s, w1) /\
    numberOfThreads s = (4 * 2) mod 2 ^ 32 /\
    pool_max (server_pool s) = 2 /\
    exists s' w2,
      startClientHandlerThreads senv_ok s w1 = (Ok s', w2) /\
      Z.of_nat (List.length (clients s')) = numberOfThreads s /\
      Forall (client_of s) (clients s').
Proof.
  assert (H1 : 0 <= 2 < UINT_MODULUS) by (unfold UINT_MODULUS; lia).
  assert (H2 : forall n, new_thread senv_ok n = None) by reflexivity.
  split; [exact H1|]. split; [exact H2|].
  destruct (Server_new senv_ok secretA (lit "/opt/passenger") (lit "/usr/bin/ruby") 3 2 0 120
                       clean_shutdown_world) as [r w1] eqn:Hnew.
  destruct r as [s | e |]; try (vm_compute in Hnew; discriminate Hnew).
  exists s, w1. split; [reflexivity|].
  destruct (Server_worker_count senv_ok secretA (lit "/opt/passenger") (lit "/usr/bin/ruby")
              3 2 0 120 clean_shutdown_world w1 s H1 H2 Hnew)
    as (Hn & Hmax & _ & s' & w2 & Erun & Hlen & Hall & _).
  split; [exact Hn|]. split; [exact Hmax|].
  exists s', w2. repeat split; assumption.
Defined.

(** C9 as stated fails: with [max_pool_size = 2^30] the product wraps to 0:
    the pool's maximum is [2^30] and no client thread is started. *)
Lemma worker_count_wraps_around :
  atoi (lit "1073741824") = 2 ^ 30 /\
  match Server_new senv_ok secretA (lit "/opt/passenger") (lit "/usr/bin/ruby")
                   3 (2 ^ 30) 0 120 clean_shutdown_world with
  | (Ok s, w1) =>
      pool_max (server_pool s) = 2 ^ 30 /\
      numberOfThreads s = 0 /\
      numberOfThreads s <> 4 * pool_max (server_pool s) /\
      match startClientHandlerThreads senv_ok s w1 with
      | (Ok s', _) => clients s' = []
      | _ => False
      end
  | _ => False
  end.
Proof. vm_compute. repeat split; discriminate. Qed.

(** ** The exit code *)


Lemma main_try_eq (senv : StartupEnv) (args : Args) (w : World) :
  main_try senv args w =
  match receivePassword w with
  | (Ok password, w1) =>
      match Server_of_args senv args password w1 with
      | (Ok server, w2) =>
          match Server_start senv server w2 with
          | (Ok _, w3) => Server_delete server w3
          | (Throw e, w3) => (Throw e, snd (Server_delete server w3))
          | (OutOfFuel, w3) => (OutOfFuel, w3)
          end
      | (Throw e, w2) => (Throw e, w2)
      | (OutOfFuel, w2) => (OutOfFuel, w2)
      end
  | (Throw e, w1) => (Throw e, w1)
  | (OutOfFuel, w1) => (OutOfFuel, w1)
  end.
Proof.
  unfold main_try, Server_of_args, P_DEBUG, P_TRACE, bind, ret.
  destruct (receivePassword w) as [[password | e |] w1]; reflexivity.
Qed.

Lemma Server_delete_returns (s : Server) (w : World) : fst (Server_delete s w) = Ok tt.
Proof. reflexivity. Qed.

Lemma receivePassword_enough (w : World) :
  64 <= zlen (stream_bytes (w_admin w)) ->
  exists w1, receivePassword w = (Ok (firstn 64 (stream_bytes (w_admin w))), w1).
Proof.
  intros Hlen. unfold receivePassword, readRaw.
  assert (Hz : HELPER_SERVER_PASSWORD_SIZE - zlen [] = 64) by reflexivity.
  destruct (readRaw_loop_enough (Z.to_nat HELPER_SERVER_PASSWORD_SIZE) AdminPipe
              HELPER_SERVER_PASSWORD_SIZE [] w)
    as (w1 & tr & E & _).
  { discriminate. }
  { rewrite Hz. apply Nat.le_refl. }
  { rewrite Hz. exact Hlen. }
  rewrite Hz in E. change (Z.to_nat 64) with 64%nat in E.
  change (pending AdminPipe w) with (w_admin w) in E.
  unfold bind. rewrite E. exists w1. reflexivity.
Qed.

(** A short read of the password: [IOException] on end of file,
    [SystemException] when the read fails. *)
Lemma receivePassword_short (w : World) :
  zlen (stream_bytes (w_admin w)) < 64 ->
  exists e w1,
    receivePassword w = (Throw e, w1) /\
    is_tracable e = true /\
    (no_read_error (w_admin w) = true ->
     e = IOException "Could not read password from the admin pipe.").
Proof.
  intros Hlen. unfold receivePassword, readRaw.
  assert (Hz : HELPER_SERVER_PASSWORD_SIZE - zlen [] = 64) by reflexivity.
  destruct (readRaw_loop_short (Z.to_nat HELPER_SERVER_PASSWORD_SIZE) AdminPipe
              HELPER_SERVER_PASSWORD_SIZE [] w)
    as (r & w1 & tr & E & _ & _ & Hres).
  { rewrite Hz. apply Nat.le_refl. }
  { rewrite Hz. exact Hlen. }
  change (pending AdminPipe w) with (w_admin w) in *.
  unfold bind. rewrite E.
  destruct Hres as [(Hne & -> & _) | (Hne & code & ->)].
  - eexists. exists w1. repeat split.
  - eexists. exists w1. repeat split. congruence.
Qed.


Lemma Server_start_returns (senv : StartupEnv) (s : Server) (w : World) :
  fst (Server_start senv s w) <> OutOfFuel.
Proof.
  unfold Server_start, bind at 1.
  pose proof (startClientHandlerThreads_loop_returns senv
                (Z.to_nat (numberOfThreads s)) 0 s w) as Hl.
  unfold startClientHandlerThreads.
  destruct (startClientHandlerThreads_loop senv _ 0 s w) as [[s1 | e |] w1];
    [| discriminate | contradiction].
  unfold bind at 1, call.
  destruct (new_StatusReporter senv); [discriminate|].
  unfold bind at 1, try_catch, bind at 1, read_fd.
  destruct (sys_read 1 (pending AdminPipe (emit EvNewStatusReporter w1)))
    as [[[size data] code] rest].
  discriminate.
Qed.

Lemma Server_new_returns (senv : StartupEnv) (password rootDir ruby : bytes)
      (adminPipe maxPoolSize maxInstancesPerApp poolIdleTime : Z) (w : World) :
  fst (Server_new senv password rootDir ruby adminPipe maxPoolSize maxInstancesPerApp
                  poolIdleTime w) <> OutOfFuel.
Proof.
  unfold Server_new, bind at 1, call.
  destruct (createPassengerTempDir senv); [discriminate|].
  unfold bind at 1.
  destruct (new_StandardApplicationPool senv); [discriminate|].
  unfold bind at 1, startListening, syscall, bind, get_errno, trace_event, throw, ret.
  destruct (fst (sys_socket senv) =? -1); [discriminate|].
  destruct (fst (sys_bind senv) =? -1); [discriminate|].
  destruct (fst (sys_listen senv) =? -1); discriminate.
Qed.

(** Scenario 7: the password arrives, the pipe is closed: exit code 0. *)
Example clean_shutdown_run :
  fst (main senv_ok (args_with "2") clean_shutdown_world) = Exit 0.
Proof. vm_compute. reflexivity. Qed.

(** The pipe is closed after 10 bytes of the password: exit code 1. *)
Example short_password_run :
  fst (main senv_ok (args_with "2") short_password_world) = Exit 1.
Proof. vm_compute. reflexivity. Qed.

(** ** The scenarios of the specification, run *)

(** Scenario 1: the request is handled, the response is rewritten, the
    connection is closed. *)
Example happy_get_round :
  let '(r, w') := threadMain (P := SpecParser.t) (E := SpecExtractor.t) env_ok secretA
                    [Connection (w_client happy_get_world) (0, 0); AcceptInterrupted]
                    happy_get_world in
  r = ThreadReturned /\
  client_output (w_trace w') =
    lit "HTTP/1.1 200 OK" ++ lit "Status: 200 OK" ++ CRLF ++ CRLF ++ lit "hi" /\
  session_body (w_trace w') = [] /\
  pool_gets (w_trace w') = 1%nat /\
  filter is_connection_event (w_trace w') = [EvAccept; EvClose ClientFd; EvAccept].
Proof. vm_compute. repeat split. Qed.

(** Scenario 2: the session receives the eleven body bytes, in order; the
    writer is shut down before the first read of the response. *)
Example happy_post_round :
  let '(r, w') := threadMain (P := SpecParser.t) (E := SpecExtractor.t) env_ok secretA
                    [Connection (w_client happy_post_world) (0, 0); AcceptInterrupted]
                    happy_post_world in
  r = ThreadReturned /\
  session_body (w_trace w') = lit "hello world" /\
  filter (fun ev => match ev with
                    | EvSendBodyBlock _ | EvShutdownWriter | EvRead SessionStream _ _ => true
                    | _ => false
                    end) (w_trace w') =
    [EvSendBodyBlock (lit "hello"); EvSendBodyBlock (lit " world"); EvShutdownWriter;
     EvRead SessionStream 32768 20; EvRead SessionStream 32768 0].
Proof. vm_compute. repeat split. Qed.

(** * More of the server *)

(** ** Reads that fail *)

Lemma first_error_none (s : instream) : first_error s = None <-> no_read_error s = true.
Proof.
  induction s as [|[d|e] s IH]; simpl; [tauto | exact IH | split; discriminate].
Qed.

(** A read, whatever the input holds: data, end of file, or the first
    error. *)
Lemma read_fd_outcome (fd : fdsel) (count : Z) (w : World) :
  1 <= count ->
  (exists data s',
     data <> [] /\
     read_fd fd count w =
       (Ok (zlen data, data), emit (EvRead fd count (zlen data)) (set_pending fd s' w)) /\
     zlen data <= count /\
     stream_bytes (pending fd w) = data ++ stream_bytes s' /\
     first_error s' = first_error (pending fd w) /\
     (weight s' < weight (pending fd w))%nat) \/
  (stream_bytes (pending fd w) = [] /\ first_error (pending fd w) = None /\
   read_fd fd count w = (Ok (0, []), emit (EvRead fd count 0) (set_pending fd [] w))) \/
  (exists e s',
     stream_bytes (pending fd w) = [] /\ first_error (pending fd w) = Some e /\
     read_fd fd count w =
       (Ok (-1, []), emit (EvRead fd count (-1)) (set_errno e (set_pending fd s' w)))).
Proof.
  intros Hc. unfold read_fd. generalize (pending fd w). intros s.
  induction s as [|ev s IH].
  - right. left. repeat split.
  - destruct ev as [d|e].
    + destruct d as [|b d].
      * cbn [sys_read stream_bytes first_error app].
        destruct IH as [(data & s' & Hd & Er & Hle & Hs & Hf & Hw) | [H | H]].
        -- left. exists data, s'. repeat apply conj; auto. cbn [weight]. lia.
        -- right. left. exact H.
        -- right. right. exact H.
      * left. cbn [sys_read]. destruct (zlen (b :: d) <=? count) eqn:Hcmp.
        -- exists (b :: d), s. pose proof (zlen_nonneg (b :: d)).
           destruct (zlen (b :: d) =? -1) eqn:Em; [apply Z.eqb_eq in Em; lia|].
           repeat apply conj; auto.
           ++ discriminate.
           ++ apply Z.leb_le; assumption.
           ++ cbn [weight]. lia.
        -- apply Z.leb_gt in Hcmp.
           exists (firstn (Z.to_nat count) (b :: d)), (Chunk (skipn (Z.to_nat count) (b :: d)) :: s).
           assert (Hlen : zlen (firstn (Z.to_nat count) (b :: d)) = count).
           { unfold zlen in *. rewrite length_firstn. lia. }
           destruct (count =? -1) eqn:Em; [apply Z.eqb_eq in Em; lia|].
           rewrite Hlen. repeat apply conj; auto.
           ++ intros H. rewrite H in Hlen. unfold zlen in Hlen. simpl in Hlen. lia.
           ++ lia.
           ++ cbn [stream_bytes]. rewrite app_assoc, firstn_skipn. reflexivity.
           ++ cbn [weight]. rewrite length_skipn. unfold zlen in Hcmp. lia.
    + right. right. exists e, s. repeat split.
Qed.

(** ** The body-forwarding loop on any connection *)

Lemma read_up_to_step (msg : string) (gap : nat) (data : bytes) (s s' : instream) :
  stream_bytes s = data ++ stream_bytes s' ->
  first_error s' = first_error s ->
  (List.length data < gap)%nat ->
  read_up_to msg gap s = read_up_to msg (gap - List.length data) s'.
Proof.
  intros Hs Hf Hlt. unfold read_up_to, read_to_end. rewrite Hs, Hf, length_app.
  destruct (Nat.leb gap (List.length data + List.length (stream_bytes s'))) eqn:E1;
    destruct (Nat.leb (gap - List.length data) (List.length (stream_bytes s'))) eqn:E2;
    try reflexivity;
    [apply Nat.leb_le in E1; apply Nat.leb_gt in E2 | apply Nat.leb_gt in E1; apply Nat.leb_le in E2];
    lia.
Qed.

(** From [bytesForwarded <> contentLength], on any connection: the loop asks
    each time for at least one byte and at most a buffer; it forwards the
    next [(contentLength - bytesForwarded) mod 2^64] bytes the client
    delivers, or all it delivers before the end of the input or a failing
    read; it returns in the first two cases and throws in the third. *)
Lemma sendRequestBody_loop_any (fuel : nat) :
  forall (contentLength bytesForwarded : Z) (w : World),
    (weight (w_client w) < fuel)%nat ->
    0 <= contentLength < ULONG_MODULUS ->
    0 <= bytesForwarded < ULONG_MODULUS ->
    bytesForwarded <> contentLength ->
    let gap := Z.to_nat (to_ulong (contentLength - bytesForwarded)) in
    exists w' tr,
      sendRequestBody_loop fuel contentLength bytesForwarded w =
        (read_up_to "Cannot read request body" gap (w_client w), w') /\
      w_trace w' = w_trace w ++ tr /\
      Forall is_buffered_body_event tr /\
      session_body tr = firstn gap (stream_bytes (w_client w)) /\
      w_session w' = w_session w.
Proof.
  induction fuel as [|fuel IH]; intros CL bf w Hfuel HCL Hbf Hneq gap; [lia|].
  cbn [sendRequestBody_loop].
  set (g := to_ulong (CL - bf)) in *.
  assert (Hg : 1 <= g < ULONG_MODULUS).
  { pose proof (to_ulong_range (CL - bf)) as Hr. fold g in Hr.
    assert (g <> 0); [|lia]. intros Hz. apply Hneq.
    unfold g, to_ulong, ULONG_MODULUS in *.
    apply Z.mod_divide in Hz; [|lia]. destruct Hz as [q Hq]. nia. }
  set (n := if g >? BODY_BUF_SIZE then BODY_BUF_SIZE else g).
  assert (Hn : 1 <= n <= g /\ n <= BODY_BUF_SIZE).
  { unfold n, BODY_BUF_SIZE. destruct (g >? 1024 * 16) eqn:E; [apply Z.gtb_lt in E|]; lia. }
  assert (Hgap0 : (0 < gap)%nat) by (unfold gap; lia).
  clearbody n.
  destruct (read_fd_outcome ClientFd n w) as
    [(data & s' & Hd & Er & Hle & Hs & Hf & Hw) | [(Hs & Hf & Er) | (e & s' & Hs & Hf & Er)]];
    [lia | | |]; cbn [pending] in *; unfold bind at 1; rewrite Er.
  - returned_data Hd.
    assert (Hdl : 0 < zlen data).
    { destruct data; [congruence | unfold zlen; simpl; lia]. }
    unfold bind at 1, sendBodyBlock, trace_event.
    assert (Hgap : gap = (List.length data + Z.to_nat (g - zlen data))%nat).
    { unfold gap, zlen in *. lia. }
    destruct (to_ulong (bf + zlen data) =? CL) eqn:Ed.
    + apply Z.eqb_eq in Ed.
      assert (Hgeq : g = zlen data).
      { unfold g, to_ulong, ULONG_MODULUS in *. Z.div_mod_to_equations. lia. }
      eexists. exists [EvRead ClientFd n (zlen data); EvSendBodyBlock data].
      repeat apply conj.
      * unfold ret, read_up_to. rewrite Hs, length_app.
        replace (Nat.leb gap (List.length data + List.length (stream_bytes s'))) with true
          by (symmetry; apply Nat.leb_le; unfold gap, zlen in *; lia).
        reflexivity.
      * cbn [w_trace emit set_pending]. rewrite <- app_assoc. reflexivity.
      * constructor; [cbn; unfold BODY_BUF_SIZE in Hn; lia | constructor; [exact I | constructor]].
      * rewrite Hs, Hgap, Hgeq, Z.sub_diag. cbn [Z.to_nat].
        rewrite Nat.add_0_r, firstn_app, Nat.sub_diag, firstn_all. cbn [firstn].
        unfold session_body. simpl. now rewrite !app_nil_r.
      * reflexivity.
    + apply Z.eqb_neq in Ed.
      set (w1 := emit (EvSendBodyBlock data)
                   (emit (EvRead ClientFd n (zlen data)) (set_pending ClientFd s' w))).
      assert (Hg' : to_ulong (CL - to_ulong (bf + zlen data)) = g - zlen data).
      { unfold g, to_ulong, ULONG_MODULUS in *. Z.div_mod_to_equations. lia. }
      destruct (IH CL (to_ulong (bf + zlen data)) w1) as (w' & tr & Ew & Htr & Hall & Hb & Hss);
        [cbn; lia | lia | apply to_ulong_range | exact Ed |].
      rewrite Hg' in Ew, Hb. cbn [w1 w_client emit set_pending] in Ew, Hb.
      assert (Hlt : (List.length data < gap)%nat).
      { assert (g <> zlen data); [|unfold gap, zlen in *; lia].
        intros Hgeq. apply Ed. unfold g, to_ulong, ULONG_MODULUS in *.
        Z.div_mod_to_equations. lia. }
      exists w', (EvRead ClientFd n (zlen data) :: EvSendBodyBlock data :: tr).
      repeat apply conj.
      * rewrite Ew. f_equal.
        rewrite (read_up_to_step _ gap data (w_client w) s' Hs Hf Hlt). f_equal.
        unfold gap, zlen in *. lia.
      * rewrite Htr. cbn [w1 w_trace emit set_pending]. rewrite <- !app_assoc. reflexivity.
      * constructor; [cbn; unfold BODY_BUF_SIZE in Hn; lia | constructor; [exact I | exact Hall]].
      * change (session_body (?a :: ?b :: tr)) with (data ++ session_body tr).
        rewrite Hb, Hs, Hgap, firstn_app_2. reflexivity.
      * rewrite Hss. reflexivity.
  - cbv beta iota. cbn [Z.eqb]. eexists. exists [EvRead ClientFd n 0].
    repeat apply conj.
    + unfold ret, read_up_to, read_to_end. rewrite Hs, Hf. cbn [List.length].
      replace (Nat.leb gap 0) with false by (symmetry; apply Nat.leb_gt; lia).
      reflexivity.
    + reflexivity.
    + constructor; [cbn; unfold BODY_BUF_SIZE in Hn; lia | constructor].
    + rewrite Hs. now rewrite firstn_nil.
    + reflexivity.
  - cbv beta iota. cbn [Z.eqb]. eexists. exists [EvRead ClientFd n (-1)].
    repeat apply conj.
    + unfold bind, get_errno, throw, read_up_to, read_to_end. rewrite Hs, Hf.
      cbn [List.length].
      replace (Nat.leb gap 0) with false by (symmetry; apply Nat.leb_gt; lia).
      reflexivity.
    + reflexivity.
    + constructor; [cbn; unfold BODY_BUF_SIZE in Hn; lia | constructor].
    + rewrite Hs. now rewrite firstn_nil.
    + reflexivity.
Qed.

Lemma sendRequestBody_any (partialRequestBody : bytes) (contentLength : Z) (w : World) :
  0 <= contentLength < ULONG_MODULUS ->
  zlen partialRequestBody < ULONG_MODULUS ->
  let gap := Z.to_nat (to_ulong (contentLength - zlen partialRequestBody)) in
  exists w' tr,
    sendRequestBody partialRequestBody contentLength w =
      (read_up_to "Cannot read request body" gap (w_client w), w') /\
    w_trace w' = w_trace w ++ tr /\
    Forall is_buffered_body_event tr /\
    session_body tr = partialRequestBody ++ firstn gap (stream_bytes (w_client w)) /\
    w_session w' = w_session w /\
    (zlen partialRequestBody = contentLength ->
     Forall (fun ev => is_read_of ClientFd ev = false) tr).
Proof.
  intros HCL HP gap.
  pose proof (zlen_nonneg partialRequestBody) as Hp0.
  unfold sendRequestBody.
  set (w0 := if zlen partialRequestBody >? 0
             then emit (EvSendBodyBlock partialRequestBody) w else w).
  set (tr0 := if zlen partialRequestBody >? 0
              then [EvSendBodyBlock partialRequestBody] else []).
  assert (Hw0 : w_trace w0 = w_trace w ++ tr0 /\ w_client w0 = w_client w /\
                w_session w0 = w_session w).
  { unfold w0, tr0. destruct (zlen partialRequestBody >? 0); simpl; auto using app_nil_r. }
  destruct Hw0 as (Ht0 & Hc0 & Hs0).
  assert (Hb0 : session_body tr0 = partialRequestBody /\ Forall is_buffered_body_event tr0 /\
                Forall (fun ev => is_read_of ClientFd ev = false) tr0).
  { unfold tr0. destruct (zlen partialRequestBody >? 0) eqn:E; simpl.
    - repeat split; [apply app_nil_r | repeat constructor | repeat constructor].
    - repeat split; try constructor. symmetry. apply zlen_nil_inv.
      rewrite Z.gtb_ltb in E. apply Z.ltb_ge in E. lia. }
  destruct Hb0 as (Hb0 & Hf0 & Hr0).
  assert (Estart :
    (if zlen partialRequestBody >? 0
     then sendBodyBlock partialRequestBody ;; ret (to_ulong (zlen partialRequestBody))
     else ret 0) w = (Ok (zlen partialRequestBody), w0)).
  { unfold w0. destruct (zlen partialRequestBody >? 0) eqn:E.
    - unfold bind, sendBodyBlock, trace_event, ret. simpl.
      rewrite to_ulong_small by lia. reflexivity.
    - rewrite Z.gtb_ltb in E. apply Z.ltb_ge in E.
      replace (zlen partialRequestBody) with 0 by lia. reflexivity. }
  unfold bind at 1. rewrite Estart.
  destruct (zlen partialRequestBody =? contentLength) eqn:Eq.
  - apply Z.eqb_eq in Eq. exists w0, tr0.
    assert (Hgap : gap = O).
    { unfold gap. rewrite Eq, Z.sub_diag. reflexivity. }
    rewrite Hgap. cbn [firstn]. rewrite app_nil_r. repeat apply conj; auto.
  - apply Z.eqb_neq in Eq.
    destruct (sendRequestBody_loop_any (S (weight (w_client w0))) contentLength
                (zlen partialRequestBody) w0)
      as (w' & tr & Ew & Htr & Hall & Hb & Hss);
      [lia | exact HCL | lia | exact Eq |].
    exists w', (tr0 ++ tr). rewrite Hc0 in *.
    repeat apply conj; auto.
    + rewrite Htr, Ht0, app_assoc. reflexivity.
    + apply Forall_app. split; assumption.
    + rewrite session_body_app, Hb0, Hb. reflexivity.
    + congruence.
    + intros Heq. contradiction.
Qed.

(** X1. [sendRequestBody] never asks [read] for more than its 16 KiB buffer
    holds, nor for less than one byte, whatever the content length, the
    partial body and the connection; and when the partial body already has
    the content length, it does not read the connection at all. *)
Theorem sendRequestBody_reads_fit_buffer :
  forall (partialRequestBody : bytes) (contentLength : Z) (w : World),
    0 <= contentLength < ULONG_MODULUS ->
    zlen partialRequestBody < ULONG_MODULUS ->
    exists r w' tr,
      sendRequestBody partialRequestBody contentLength w = (r, w') /\
      r <> OutOfFuel /\
      w_trace w' = w_trace w ++ tr /\
      Forall is_buffered_body_event tr /\
      (zlen partialRequestBody = contentLength ->
       r = Ok tt /\ Forall (fun ev => is_read_of ClientFd ev = false) tr).
Proof.
  intros P CL w HCL HP.
  destruct (sendRequestBody_any P CL w HCL HP) as (w' & tr & E & Htr & Hall & _ & _ & Hno).
  eexists. exists w', tr. repeat apply conj; eauto.
  - unfold read_up_to, read_to_end.
    destruct (Nat.leb _ _); [discriminate|].
    destruct (first_error (w_client w)); discriminate.
  - intros Heq. split; [|exact (Hno Heq)].
    rewrite Heq, Z.sub_diag. reflexivity.
Qed.

Lemma sendRequestBody_reads_fit_buffer_witness :
  0 <= 11 < ULONG_MODULUS /\
  zlen (lit "hello") < ULONG_MODULUS /\
  exists r w' tr,
    sendRequestBody (lit "hello") 11 reset_body_world = (r, w') /\
    r <> OutOfFuel /\
    w_trace w' = w_trace reset_body_world ++ tr /\
    Forall is_buffered_body_event tr /\
    (zlen (lit "hello") = 11 ->
     r = Ok tt /\ Forall (fun ev => is_read_of ClientFd ev = false) tr).
Proof.
  assert (H1 : 0 <= 11 < ULONG_MODULUS) by (unfold ULONG_MODULUS; lia).
  assert (H2 : zlen (lit "hello") < ULONG_MODULUS) by (vm_compute; reflexivity).
  split; [exact H1|]. split; [exact H2|].
  exact (sendRequestBody_reads_fit_buffer (lit "hello") 11 reset_body_world H1 H2).
Defined.

(** X2. A failing read of the client matters to [sendRequestBody] exactly
    when it comes before the bytes that are still missing: then
    [SystemException] "Cannot read request body" is thrown with the [errno]
    of that read, after the partial body and every byte the client delivered
    before the failure have been sent to the session. When the missing bytes
    arrive first, the failure is never seen. *)
Theorem sendRequestBody_read_failure :
  forall (partialRequestBody : bytes) (contentLength : Z) (w : World) (e : Z),
    0 <= contentLength < ULONG_MODULUS ->
    zlen partialRequestBody <= contentLength ->
    first_error (w_client w) = Some e ->
    let missing := contentLength - zlen partialRequestBody in
    let delivered := stream_bytes (w_client w) in
    exists w' tr,
      w_trace w' = w_trace w ++ tr /\
      (zlen delivered < missing ->
       sendRequestBody partialRequestBody contentLength w =
         (Throw (SystemException "Cannot read request body" e), w') /\
       session_body tr = partialRequestBody ++ delivered) /\
      (missing <= zlen delivered ->
       sendRequestBody partialRequestBody contentLength w = (Ok tt, w') /\
       session_body tr = partialRequestBody ++ firstn (Z.to_nat missing) delivered).
Proof.
  intros P CL w e HCL HP Herr missing delivered.
  pose proof (zlen_nonneg P) as Hp0.
  destruct (sendRequestBody_any P CL w HCL ltac:(lia)) as (w' & tr & E & Htr & _ & Hb & _).
  rewrite to_ulong_small in E, Hb by lia. fold missing in E, Hb. fold delivered in Hb.
  exists w', tr. split; [exact Htr|].
  unfold read_up_to, read_to_end in E. fold delivered in E. rewrite Herr in E.
  split; intros Hcmp.
  - replace (Nat.leb (Z.to_nat missing) (List.length delivered)) with false in E
      by (symmetry; apply Nat.leb_gt; unfold zlen in Hcmp; lia).
    split; [exact E|]. rewrite Hb, firstn_all2 by (unfold zlen in Hcmp; lia). reflexivity.
  - replace (Nat.leb (Z.to_nat missing) (List.length delivered)) with true in E
      by (symmetry; apply Nat.leb_le; unfold zlen in Hcmp; lia).
    split; [exact E | exact Hb].
Qed.

Lemma sendRequestBody_read_failure_witness :
  0 <= 11 < ULONG_MODULUS /\
  zlen (lit "hello") <= 11 /\
  first_error (w_client reset_body_world) = Some 104 /\
  zlen (stream_bytes (w_client reset_body_world)) < 11 - zlen (lit "hello") /\
  exists w',
    sendRequestBody (lit "hello") 11 reset_body_world =
      (Throw (SystemException "Cannot read request body" 104), w') /\
    session_body (w_trace w') = lit "hello wor".
Proof.
  assert (H1 : 0 <= 11 < ULONG_MODULUS) by (unfold ULONG_MODULUS; lia).
  assert (H2 : zlen (lit "hello") <= 11) by (vm_compute; discriminate).
  assert (H3 : first_error (w_client reset_body_world) = Some 104) by reflexivity.
  assert (H4 : zlen (stream_bytes (w_client reset_body_world)) < 11 - zlen (lit "hello"))
    by (vm_compute; reflexivity).
  split; [exact H1|]. split; [exact H2|]. split; [exact H3|]. split; [exact H4|].
  destruct (sendRequestBody_read_failure (lit "hello") 11 reset_body_world 104 H1 H2 H3)
    as (w' & tr & Htr & Hfail & _).
  destruct (Hfail H4) as (Erun & Hbody).
  exists w'. split; [exact Erun|].
  rewrite Htr. change (w_trace reset_body_world) with (@nil event).
  cbn [app]. rewrite Hbody. reflexivity.
Defined.


(** ** Forwarding the response of any session *)

Section ForwardResponseAny.

Context {E : Type} {extractor_ops : HttpStatusExtractor.ops E}.

Lemma forwardResponse_pump_any (fuel : nat) :
  forall w : World,
    (weight (w_session w) < fuel)%nat ->
    exists w' tr,
      forwardResponse_pump fuel w =
        (read_to_end "Cannot read response from backend process" (w_session w), w') /\
      w_trace w' = w_trace w ++ tr /\
      Forall is_response_event tr /\
      client_output tr = stream_bytes (w_session w) /\
      w_client w' = w_client w.
Proof.
  induction fuel as [|fuel IH]; intros w Hfuel; [lia|].
  cbn [forwardResponse_pump].
  destruct (read_fd_outcome SessionStream RESPONSE_BUF_SIZE w) as
    [(data & s' & Hd & Er & Hle & Hs & Hf & Hw) | [(Hs & Hf & Er) | (e & s' & Hs & Hf & Er)]];
    [unfold RESPONSE_BUF_SIZE; lia | | |]; cbn [pending] in *; unfold bind at 1; rewrite Er.
  - returned_data Hd.
    unfold bind at 1, writeRaw, trace_event.
    set (w1 := emit (EvWrite ClientFd data)
                 (emit (EvRead SessionStream RESPONSE_BUF_SIZE (zlen data))
                    (set_pending SessionStream s' w))).
    destruct (IH w1) as (w' & tr & Ew & Htr & Hall & Hout & Hc); [cbn; lia|].
    cbn [w1 w_session emit set_pending] in Ew, Hout.
    exists w', (EvRead SessionStream RESPONSE_BUF_SIZE (zlen data) :: EvWrite ClientFd data :: tr).
    repeat apply conj.
    + rewrite Ew. unfold read_to_end. rewrite Hf. reflexivity.
    + rewrite Htr. cbn [w1 w_trace emit set_pending]. rewrite <- !app_assoc. reflexivity.
    + repeat constructor. exact Hall.
    + change (client_output (?a :: ?b :: tr)) with (data ++ client_output tr).
      rewrite Hout, Hs. reflexivity.
    + rewrite Hc. reflexivity.
  - cbv beta iota. cbn [Z.eqb]. eexists. exists [EvRead SessionStream RESPONSE_BUF_SIZE 0].
    repeat apply conj.
    + unfold ret, read_to_end. rewrite Hf. reflexivity.
    + reflexivity.
    + repeat constructor.
    + rewrite Hs. reflexivity.
    + reflexivity.
  - cbv beta iota. cbn [Z.eqb]. eexists. exists [EvRead SessionStream RESPONSE_BUF_SIZE (-1)].
    repeat apply conj.
    + unfold bind, get_errno, throw, read_to_end. rewrite Hf. reflexivity.
    + reflexivity.
    + repeat constructor.
    + rewrite Hs. reflexivity.
    + reflexivity.
Qed.

Lemma forwardResponse_extract_any (fuel : nat) :
  forall (ex : E) (w : World),
    (weight (w_session w) < fuel)%nat ->
    exists w' tr chunks ex' found r,
      forwardResponse_extract fuel ex w = (r, w') /\
      w_trace w' = w_trace w ++ tr /\
      Forall is_response_event tr /\
      fed ex chunks ex' found /\
      w_client w' = w_client w /\
      if found then
        r = Ok false /\
        stream_bytes (w_session w) = List.concat chunks ++ stream_bytes (w_session w') /\
        first_error (w_session w') = first_error (w_session w) /\
        client_output tr =
          lit "HTTP/1.1 " ++ HttpStatusExtractor.getStatusLine ex' ++
          HttpStatusExtractor.getBuffer ex'
      else
        r = match first_error (w_session w) with
            | None => Ok true
            | Some e => Throw (SystemException "Cannot read response from backend process" e)
            end /\
        stream_bytes (w_session w) = List.concat chunks /\
        client_output tr = [].
Proof.
  induction fuel as [|fuel IH]; intros ex w Hfuel; [lia|].
  cbn [forwardResponse_extract].
  destruct (read_fd_outcome SessionStream RESPONSE_BUF_SIZE w) as
    [(data & s' & Hd & Er & Hle & Hs & Hf & Hw) | [(Hs & Hf & Er) | (e & s' & Hs & Hf & Er)]];
    [unfold RESPONSE_BUF_SIZE; lia | | |]; cbn [pending] in *; unfold bind at 1; rewrite Er.
  - returned_data Hd.
    destruct (HttpStatusExtractor.feed ex data) as [ex1 found] eqn:Ef.
    destruct found.
    + eexists.
      exists [EvRead SessionStream RESPONSE_BUF_SIZE (zlen data);
              EvWrite ClientFd (lit "HTTP/1.1 " ++ HttpStatusExtractor.getStatusLine ex1);
              EvWrite ClientFd (HttpStatusExtractor.getBuffer ex1)], [data], ex1, true.
      eexists. split; [reflexivity|]. repeat apply conj; auto.
      * cbn [w_trace emit set_pending]. rewrite <- !app_assoc. reflexivity.
      * repeat constructor.
      * apply fed_found; assumption.
      * cbn [List.concat w_session emit set_pending]. rewrite app_nil_r. exact Hs.
      * unfold client_output. simpl. rewrite app_nil_r. reflexivity.
    + set (w1 := emit (EvRead SessionStream RESPONSE_BUF_SIZE (zlen data))
                   (set_pending SessionStream s' w)).
      destruct (IH ex1 w1) as (w' & tr & chunks & ex' & found & r & Ew & Htr & Hall & Hfed & Hc & Hcase);
        [cbn; lia|].
      cbn [w1 w_session emit set_pending] in Hcase.
      exists w', (EvRead SessionStream RESPONSE_BUF_SIZE (zlen data) :: tr),
             (data :: chunks), ex', found, r.
      repeat apply conj; auto.
      * rewrite Htr. cbn [w1 w_trace emit set_pending]. rewrite <- !app_assoc. reflexivity.
      * constructor; [exact I | exact Hall].
      * eapply fed_more; eassumption.
      * destruct found.
        -- destruct Hcase as (Hr & Hst & Hfe & Hout). repeat apply conj; auto.
           ++ cbn [List.concat]. rewrite <- app_assoc, <- Hst. exact Hs.
           ++ congruence.
        -- destruct Hcase as (Hr & Hst & Hout). repeat apply conj; auto.
           ++ rewrite <- Hf. exact Hr.
           ++ cbn [List.concat]. rewrite <- Hst. exact Hs.
  - cbv beta iota. cbn [Z.eqb]. eexists.
    exists [EvRead SessionStream RESPONSE_BUF_SIZE 0], [], ex, false. eexists.
    split; [reflexivity|]. rewrite Hf, Hs. repeat apply conj; auto.
    + repeat constructor.
    + constructor.
  - cbv beta iota. cbn [Z.eqb]. eexists.
    exists [EvRead SessionStream RESPONSE_BUF_SIZE (-1)], [], ex, false. eexists.
    split; [reflexivity|]. rewrite Hf, Hs. repeat apply conj; auto.
    + repeat constructor.
    + constructor.
Qed.

(** [forwardResponse] on any stream: it ends as [read_to_end] says, and the
    client has by then received the rewritten response up to the end of the
    stream or its first failing read. *)
Lemma forwardResponse_any (w : World) :
  exists w' tr chunks ex' rest found,
    forwardResponse w =
      (read_to_end "Cannot read response from backend process" (w_session w), w') /\
    w_trace w' = w_trace w ++ tr /\
    Forall is_response_event tr /\
    w_client w' = w_client w /\
    fed HttpStatusExtractor.init chunks ex' found /\
    stream_bytes (w_session w) = List.concat chunks ++ rest /\
    if found then
      client_output tr =
        lit "HTTP/1.1 " ++ HttpStatusExtractor.getStatusLine ex' ++
        HttpStatusExtractor.getBuffer ex' ++ rest
    else client_output tr = [] /\ rest = [].
Proof.
  unfold forwardResponse.
  destruct (forwardResponse_extract_any (S (weight (w_session w))) HttpStatusExtractor.init w)
    as (w1 & tr1 & chunks & ex' & found & r & Ex & Htr1 & Hall1 & Hfed & Hc1 & Hcase); [lia|].
  unfold bind at 1. rewrite Ex. destruct found.
  - destruct Hcase as (-> & Hst & Hfe & Hout).
    destruct (forwardResponse_pump_any (S (weight (w_session w1))) w1)
      as (w2 & tr2 & Ep & Htr2 & Hall2 & Hout2 & Hc2); [lia|].
    exists w2, (tr1 ++ tr2), chunks, ex', (stream_bytes (w_session w1)), true.
    repeat apply conj; auto.
    + rewrite Ep. unfold read_to_end. rewrite Hfe. reflexivity.
    + rewrite Htr2, Htr1, app_assoc. reflexivity.
    + apply Forall_app. split; assumption.
    + congruence.
    + rewrite client_output_app, Hout, Hout2, <- !app_assoc. reflexivity.
  - destruct Hcase as (-> & Hst & Hout).
    exists w1, tr1, chunks, ex', [], false. rewrite app_nil_r.
    repeat apply conj; auto.
    unfold read_to_end. destruct (first_error (w_session w)); reflexivity.
Qed.

End ForwardResponseAny.

(** X3. When a read of the session's stream fails, [forwardResponse] throws
    [SystemException] "Cannot read response from backend process" with the
    [errno] of that read, whichever of its two loops is reading. By then the
    client has received what it would have received had the stream ended
    there: nothing when the status line was not yet known, and else
    ["HTTP/1.1 "], the status line, the extractor's buffer and every byte
    that came before the failure. *)
Theorem forwardResponse_read_failure :
  forall {E : Type} {extractor_ops : HttpStatusExtractor.ops E} (w : World) (e : Z),
    first_error (w_session w) = Some e ->
    exists w' tr chunks ex' rest found,
      forwardResponse w =
        (Throw (SystemException "Cannot read response from backend process" e), w') /\
      w_trace w' = w_trace w ++ tr /\
      fed HttpStatusExtractor.init chunks ex' found /\
      stream_bytes (w_session w) = List.concat chunks ++ rest /\
      if found then
        client_output tr =
          lit "HTTP/1.1 " ++ HttpStatusExtractor.getStatusLine ex' ++
          HttpStatusExtractor.getBuffer ex' ++ rest
      else client_output tr = [] /\ rest = [].
Proof.
  intros E extractor_ops w e Herr.
  destruct (forwardResponse_any w)
    as (w' & tr & chunks & ex' & rest & found & Ef & Htr & _ & _ & Hfed & Hst & Hout).
  exists w', tr, chunks, ex', rest, found.
  unfold read_to_end in Ef. rewrite Herr in Ef.
  repeat apply conj; auto.
Qed.

Lemma forwardResponse_read_failure_witness :
  first_error (w_session reset_response_world) = Some 104 /\
  exists w' tr chunks ex' rest found,
    forwardResponse (E := SpecExtractor.t) reset_response_world =
      (Throw (SystemException "Cannot read response from backend process" 104), w') /\
    w_trace w' = w_trace reset_response_world ++ tr /\
    fed HttpStatusExtractor.init chunks ex' found /\
    stream_bytes (w_session reset_response_world) = List.concat chunks ++ rest /\
    if found then
      client_output tr =
        lit "HTTP/1.1 " ++ HttpStatusExtractor.getStatusLine ex' ++
        HttpStatusExtractor.getBuffer ex' ++ rest
    else client_output tr = [] /\ rest = [].
Proof.
  assert (H : first_error (w_session reset_response_world) = Some 104) by reflexivity.
  split; [exact H|].
  exact (forwardResponse_read_failure (E := SpecExtractor.t) reset_response_world 104 H).
Defined.

(** The run of that response: the client gets the status line, the header
    block and the three bytes of the page. *)
Example forwardResponse_reset_run :
  let '(r, w') := forwardResponse (E := SpecExtractor.t) reset_response_world in
  r = Throw (SystemException "Cannot read response from backend process" 104) /\
  client_output (w_trace w') =
    lit "HTTP/1.1 404 Not Found" ++ lit "Status: 404 Not Found" ++ CRLF ++ CRLF ++ lit "par".
Proof. vm_compute. split; reflexivity. Qed.


(** ** The events of a request *)

Lemma body_events_are_request_events (tr : list event) :
  Forall is_buffered_body_event tr -> Forall is_request_event tr.
Proof.
  apply Forall_impl. intros ev H. destruct ev; try contradiction; try exact I.
  destruct fd; try contradiction; exact I.
Qed.

Lemma response_events_are_request_events (tr : list event) :
  Forall is_response_event tr -> Forall is_request_event tr.
Proof.
  apply Forall_impl. intros ev H. destruct ev; try contradiction;
    destruct fd; try contradiction; exact I.
Qed.

Lemma client_reads_are_request_events (tr : list event) :
  Forall (is_read_event ClientFd) tr -> Forall is_request_event tr.
Proof.
  apply Forall_impl. intros ev H. destruct ev; try discriminate H.
  destruct fd; try discriminate H. exact I.
Qed.

Lemma body_events_no_output (tr : list event) :
  Forall is_buffered_body_event tr -> client_output tr = [] /\ pool_gets tr = O.
Proof.
  induction 1 as [|ev tr Hev _ (IH1 & IH2)]; [split; reflexivity|].
  destruct ev; try contradiction; unfold client_output, pool_gets in *; simpl; auto.
Qed.

Lemma response_events_no_body (tr : list event) :
  Forall is_response_event tr -> session_body tr = [] /\ pool_gets tr = O.
Proof.
  induction 1 as [|ev tr Hev _ (IH1 & IH2)]; [split; reflexivity|].
  destruct ev; try contradiction; unfold session_body, pool_gets in *; simpl; auto.
Qed.

(** The password check always ends: with its verdict, or on a failing
    read. *)
Lemma readAndCheckPassword_any (password : bytes) (w : World) :
  exists r w1 tr,
    readAndCheckPassword password w = (r, w1) /\
    w_trace w1 = w_trace w ++ tr /\
    Forall (is_read_event ClientFd) tr /\
    ((exists b, r = Ok b) \/
     (exists code, r = Throw (SystemException "Cannot read data from socket" code))).
Proof.
  destruct (Z_lt_le_dec (zlen (stream_bytes (w_client w))) 64) as [Hshort | Hlong].
  - destruct (readAndCheckPassword_short password w Hshort)
      as (r & w1 & tr & E & Htr & Hall & [(_ & -> & _) | (_ & code & ->)]).
    + exists (Ok false), w1, tr. repeat apply conj; auto. left. exists false. reflexivity.
    + eexists. exists w1, tr. repeat apply conj; eauto.
  - destruct (readAndCheckPassword_enough password w Hlong) as (w1 & tr & E & Htr & Hall & _).
    eexists. exists w1, tr. repeat apply conj; eauto.
Qed.

Section HeadersAny.

Context {P : Type} {parser_ops : ScgiRequestParser.ops P}.

(** [buf] never holds more than the buffer of [readAndParseRequestHeaders]
    has room for. *)
Lemma readHeaders_loop_buf_bound (fuel : nat) :
  forall (parser : P) (buf : bytes) (accepted : Z) (w : World) parser' buf' size accepted' w',
    zlen buf <= HEADER_BUF_SIZE ->
    readHeaders_loop fuel parser buf accepted w = (Ok (parser', buf', size, accepted'), w') ->
    zlen buf' <= HEADER_BUF_SIZE.
Proof.
  induction fuel as [|fuel IH]; intros parser buf accepted w parser' buf' size accepted' w' Hb Hrun;
    cbn [readHeaders_loop] in Hrun; [discriminate|].
  destruct (read_fd_outcome ClientFd HEADER_BUF_SIZE w)
    as [(data & s' & Hd & Er & Hle & _) | [(_ & _ & Er) | (e & s' & _ & _ & Er)]];
    [unfold HEADER_BUF_SIZE; lia | | |];
    unfold bind at 1 in Hrun; rewrite Er in Hrun.
  - returned_data_in Hd Hrun.
    destruct (ScgiRequestParser.feed parser data) as [parser1 accepted1].
    destruct (ScgiRequestParser.acceptingInput parser1).
    + eapply IH; [|exact Hrun]. exact Hle.
    + injection Hrun as _ <- _ _ _. exact Hle.
  - simpl in Hrun. injection Hrun as _ <- _ _ _. exact Hb.
  - simpl in Hrun. discriminate.
Qed.

(** How [readAndParseRequestHeaders] ends, and what it adds to the trace:
    reads of the client and at most one log entry. The partial body fits
    the buffer. *)
Lemma readAndParseRequestHeaders_any (parser : P) (requestBody : bytes) (w : World) :
  exists r w' tr,
    readAndParseRequestHeaders parser requestBody w = (r, w') /\
    w_trace w' = w_trace w ++ tr /\
    Forall is_request_event tr /\
    Forall is_quiet_event tr /\
    match r with
    | Ok (ok, _, body) => ok = true -> zlen body <= HEADER_BUF_SIZE
    | Throw e =>
        (exists code, e = SystemException "Cannot read request header" code) \/
        e = StdException "basic_string::assign"
    | OutOfFuel => False
    end.
Proof.
  unfold readAndParseRequestHeaders, bind at 1.
  destruct (readHeaders parser w) as [r0 w0] eqn:El.
  pose proof El as El'. unfold readHeaders in El'.
  destruct (readHeaders_loop_spec _ _ _ _ _ _ _ (Nat.lt_succ_diag_r _) El')
    as (tr & Htr & Hall & Hres).
  pose proof (client_reads_are_request_events _ Hall) as Hreq.
  pose proof (reads_are_quiet _ _ Hall) as Hq.
  destruct r0 as [[[[pf bf] size] af] | e |].
  - assert (Hbf : zlen bf <= HEADER_BUF_SIZE).
    { eapply readHeaders_loop_buf_bound; [|exact El']. unfold zlen, HEADER_BUF_SIZE. simpl. lia. }
    destruct (negb (ScgiRequestParser.State_eqb (ScgiRequestParser.getState pf)
                                                ScgiRequestParser.DONE)).
    { eexists. eexists. exists (tr ++ [EvLog "Invalid SCGI header received."]).
      split; [reflexivity|]. repeat apply conj.
      - cbn [w_trace emit]. rewrite Htr, app_assoc. reflexivity.
      - apply Forall_app. split; [exact Hreq | repeat constructor].
      - apply Forall_app. split; [exact Hq | repeat constructor].
      - discriminate. }
    destruct (negb (ScgiRequestParser.hasHeader pf (lit "DOCUMENT_ROOT"))).
    { eexists. eexists. exists (tr ++ [EvLog "DOCUMENT_ROOT header is missing."]).
      split; [reflexivity|]. repeat apply conj.
      - cbn [w_trace emit]. rewrite Htr, app_assoc. reflexivity.
      - apply Forall_app. split; [exact Hreq | repeat constructor].
      - apply Forall_app. split; [exact Hq | repeat constructor].
      - discriminate. }
    unfold bind, assign_tail.
    destruct (size <? af).
    + eexists. eexists. exists tr. split; [reflexivity|]. repeat apply conj; auto.
    + eexists. eexists. exists tr. split; [reflexivity|]. repeat apply conj; auto.
      intros _. unfold zlen in *. rewrite length_firstn, length_skipn. lia.
  - eexists. eexists. exists tr. split; [reflexivity|]. repeat apply conj; auto.
  - contradiction.
Qed.

End HeadersAny.


(** ** A request from the pool to the response *)

Lemma read_up_to_cases (msg : string) (gap : nat) (s : instream) :
  read_up_to msg gap s = Ok tt \/
  exists e, first_error s = Some e /\ (List.length (stream_bytes s) < gap)%nat /\
            read_up_to msg gap s = Throw (SystemException msg e).
Proof.
  unfold read_up_to, read_to_end. destruct (Nat.leb gap (List.length (stream_bytes s))) eqn:E.
  - left. reflexivity.
  - apply Nat.leb_gt in E. destruct (first_error s) as [e|]; [|left; reflexivity].
    right. exists e. auto.
Qed.

Lemma read_to_end_cases (msg : string) (s : instream) :
  (first_error s = None /\ read_to_end msg s = Ok tt) \/
  exists e, first_error s = Some e /\ read_to_end msg s = Throw (SystemException msg e).
Proof.
  unfold read_to_end. destruct (first_error s) as [e|]; [right; exists e | left]; auto.
Qed.

Section RequestAny.

Context {P : Type} {parser_ops : ScgiRequestParser.ops P}.
Context {E : Type} {extractor_ops : HttpStatusExtractor.ops E}.
Variable env : Env.

(** With a session from the pool: the header block goes to the session,
    then the body; the writer is shut down; then the response is forwarded.
    A failing read of the body or of the response ends the exchange there;
    it is logged, and [handleRequest] returns true instead of false. *)
Lemma handleRequest_try_session (parser : P) (body root : bytes) (stream : instream)
      (w : World) :
  zlen body < ULONG_MODULUS ->
  canonicalizePath env (app_root_path parser) = inr root ->
  pool_get env (options_of parser root) = inr stream ->
  let gap := Z.to_nat (to_ulong (contentLength_of parser - zlen body)) in
  let sent := read_up_to "Cannot read request body" gap (w_client w) in
  let answered := read_to_end "Cannot read response from backend process" stream in
  let ok := match sent, answered with Ok _, Ok _ => true | _, _ => false end in
  exists w' trb trr chunks ex' rest found,
    try_catch (handleRequest_try env parser body) handleRequest_catch w = (Ok (negb ok), w') /\
    w_trace w' =
      w_trace w ++
      [EvCanonicalize (app_root_path parser); EvPoolGet (options_of parser root);
       EvSendHeaders (ScgiRequestParser.getHeaderData parser)] ++
      trb ++
      (match sent with Ok _ => EvShutdownWriter :: trr | _ => [] end) ++
      (if ok then [] else [EvLog "Uncaught exception in PassengerServer client thread"]) /\
    Forall is_buffered_body_event trb /\
    session_body trb = body ++ firstn gap (stream_bytes (w_client w)) /\
    Forall is_response_event trr /\
    (sent = Ok tt ->
     fed HttpStatusExtractor.init chunks ex' found /\
     stream_bytes stream = List.concat chunks ++ rest /\
     if found then
       client_output trr =
         lit "HTTP/1.1 " ++ HttpStatusExtractor.getStatusLine ex' ++
         HttpStatusExtractor.getBuffer ex' ++ rest
     else client_output trr = [] /\ rest = []).
Proof.
  intros Hbody Hroot Hpool gap sent answered ok.
  set (w3 := emit (EvSendHeaders (ScgiRequestParser.getHeaderData parser))
               (emit (EvPoolGet (options_of parser root))
                  (set_pending SessionStream stream
                     (emit (EvCanonicalize (app_root_path parser)) w)))).
  unfold try_catch at 1, handleRequest_try, bind at 1, call_canonicalizePath.
  rewrite Hroot. unfold bind at 1, try_catch at 1, bind at 1, call_pool_get.
  rewrite Hpool. unfold bind at 1, sendHeaders, trace_event. fold w3.
  assert (HCL : 0 <= contentLength_of parser < ULONG_MODULUS) by apply to_ulong_range.
  destruct (sendRequestBody_any body (contentLength_of parser) w3 HCL Hbody)
    as (w4 & trb & Eb & Htrb & Hallb & Hsb & Hss & _).
  change (w_client w3) with (w_client w) in Eb, Hsb. fold gap in Eb, Hsb. fold sent in Eb.
  assert (Hs4 : w_session w4 = stream) by (rewrite Hss; reflexivity).
  assert (Ht3 : w_trace w3 =
                w_trace w ++
                [EvCanonicalize (app_root_path parser); EvPoolGet (options_of parser root);
                 EvSendHeaders (ScgiRequestParser.getHeaderData parser)]).
  { unfold w3. cbn [w_trace emit set_pending]. rewrite <- !app_assoc. reflexivity. }
  unfold bind at 1. rewrite Eb.
  destruct (read_up_to_cases "Cannot read request body" gap (w_client w))
    as [Hsent | (e & _ & _ & Hsent)]; fold sent in Hsent.
  - unfold shutdownWriter, trace_event, bind at 1.
    destruct (forwardResponse_any (emit EvShutdownWriter w4))
      as (w5 & trr & chunks & ex' & rest & found & Ef & Htrr & Hallr & _ & Hfed & Hst & Hout).
    cbn [w_session emit] in Ef, Hst. rewrite Hs4 in Ef, Hst. fold answered in Ef.
    unfold ok. rewrite Hsent. rewrite Hsent in Eb. cbv beta iota. rewrite Ef.
    destruct (read_to_end_cases "Cannot read response from backend process" stream)
      as [(_ & Hans) | (e & _ & Hans)]; fold answered in Hans; rewrite Hans.
    + exists w5, trb, trr, chunks, ex', rest, found.
      repeat apply conj; auto.
      rewrite Htrr. cbn [w_trace emit]. rewrite Htrb, Ht3, app_nil_r, <- !app_assoc.
      reflexivity.
    + eexists. exists trb, trr, chunks, ex', rest, found.
      split; [reflexivity|]. repeat apply conj; auto.
      cbn [w_trace emit]. rewrite Htrr. cbn [w_trace emit]. rewrite Htrb, Ht3, <- !app_assoc.
      reflexivity.
  - unfold ok. rewrite Hsent. rewrite Hsent in Eb. cbv beta iota.
    eexists. exists trb, [], [], HttpStatusExtractor.init, [], false.
    split; [reflexivity|]. repeat apply conj; auto.
    + cbn [w_trace emit]. rewrite Htrb, Ht3, <- !app_assoc. reflexivity.
    + discriminate.
Qed.

End RequestAny.


Lemma handleSpawnException_events (e : SpawnException) (w : World) :
  exists w' tr,
    handleSpawnException e w = (Ok tt, w') /\
    w_trace w' = w_trace w ++ tr /\
    Forall is_request_event tr.
Proof.
  unfold handleSpawnException.
  destruct (hasErrorPage e); eexists; eexists; (split; [reflexivity|]); split;
    try (cbn [w_trace emit]; rewrite <- !app_assoc; reflexivity);
    repeat constructor.
Qed.

Lemma handleRequest_catch_any (e : exn) (w : World) :
  exists r w' tr,
    handleRequest_catch e w = (r, w') /\
    w_trace w' = w_trace w ++ tr /\
    Forall is_request_event tr /\
    (e = thread_interrupted /\ r = Throw thread_interrupted /\ tr = [] \/
     e <> thread_interrupted /\ r = Ok true /\ exists msg, tr = [EvLog msg]).
Proof.
  destruct e; cbn [handleRequest_catch is_tracable is_std_exception];
    try (eexists; eexists; eexists; split; [reflexivity|]; split; [reflexivity|];
         split; [repeat constructor|]; right; split; [discriminate|]; split; [reflexivity|];
         eexists; reflexivity).
  exists (Throw thread_interrupted), w, []. rewrite app_nil_r.
  repeat apply conj; auto.
Qed.

Section HandleRequestAny.

Context {P : Type} {parser_ops : ScgiRequestParser.ops P}.
Context {E : Type} {extractor_ops : HttpStatusExtractor.ops E}.
Variable env : Env.

(** The [try] block of [handleRequest] with its [catch] clauses: it returns,
    or lets [thread_interrupted] through. *)
Lemma handleRequest_try_any (parser : P) (body : bytes) (w : World) :
  zlen body < ULONG_MODULUS ->
  exists r w' tr,
    try_catch (handleRequest_try env parser body) handleRequest_catch w = (r, w') /\
    w_trace w' = w_trace w ++ tr /\
    Forall is_request_event tr /\
    ((exists b, r = Ok b) \/ r = Throw thread_interrupted).
Proof.
  intros Hbody.
  destruct (canonicalizePath env (app_root_path parser)) as [e | root] eqn:Hroot.
  - destruct (handleRequest_catch_any e (emit (EvCanonicalize (app_root_path parser)) w))
      as (r & w' & tr & Ec & Htr & Hall & Hres).
    exists r, w', (EvCanonicalize (app_root_path parser) :: tr). repeat apply conj.
    + unfold try_catch at 1, handleRequest_try, bind at 1, call_canonicalizePath.
      rewrite Hroot. exact Ec.
    + rewrite Htr. cbn [w_trace emit]. rewrite <- app_assoc. reflexivity.
    + constructor; [exact I | exact Hall].
    + destruct Hres as [(_ & -> & _) | (_ & -> & _)]; [right | left; exists true]; reflexivity.
  - destruct (pool_get env (options_of parser root)) as [e | stream] eqn:Hpool.
    + set (w2 := emit (EvPoolGet (options_of parser root))
                   (emit (EvCanonicalize (app_root_path parser)) w)).
      assert (Hlead : forall se, e = Spawn se ->
                try_catch (handleRequest_try env parser body) handleRequest_catch w =
                match handleSpawnException se w2 with
                | (Ok _, w') => (Ok false, w')
                | (Throw e', w') => handleRequest_catch e' w'
                | (OutOfFuel, w') => (OutOfFuel, w')
                end).
      { intros se ->.
        unfold try_catch at 1, handleRequest_try, bind at 1, call_canonicalizePath.
        rewrite Hroot. unfold bind at 1, try_catch at 1, bind at 1, call_pool_get.
        rewrite Hpool. fold w2. destruct (handleSpawnException se w2) as [[[]| |] ?]; reflexivity. }
      assert (Hother : (forall se, e <> Spawn se) ->
                try_catch (handleRequest_try env parser body) handleRequest_catch w =
                handleRequest_catch e w2).
      { intros Hns.
        unfold try_catch at 1, handleRequest_try, bind at 1, call_canonicalizePath.
        rewrite Hroot. unfold bind at 1, try_catch at 1, bind at 1, call_pool_get.
        rewrite Hpool. fold w2. destruct e; try reflexivity. elim (Hns e). reflexivity. }
      assert (Ht2 : w_trace w2 = w_trace w ++ [EvCanonicalize (app_root_path parser);
                                               EvPoolGet (options_of parser root)]).
      { unfold w2. cbn [w_trace emit]. rewrite <- app_assoc. reflexivity. }
      assert (Hreq2 : Forall is_request_event [EvCanonicalize (app_root_path parser);
                                                EvPoolGet (options_of parser root)])
        by repeat constructor.
      assert (Hcases : (exists se, e = Spawn se) \/ (forall se, e <> Spawn se)).
      { destruct e; try (right; discriminate). left. eexists. reflexivity. }
      destruct Hcases as [(se & He) | Hns].
      * rewrite (Hlead se He).
        destruct (handleSpawnException_events se w2) as (w' & tr & Es & Htr & Hall).
        rewrite Es. exists (Ok false), w', ([EvCanonicalize (app_root_path parser); EvPoolGet (options_of parser root)] ++ tr). repeat apply conj.
        -- reflexivity.
        -- rewrite Htr, Ht2, <- app_assoc. reflexivity.
        -- apply Forall_app. split; [exact Hreq2 | exact Hall].
        -- left. exists false. reflexivity.
      * rewrite (Hother Hns).
        destruct (handleRequest_catch_any e w2) as (r & w' & tr & Ec & Htr & Hall & Hres).
        exists r, w', ([EvCanonicalize (app_root_path parser); EvPoolGet (options_of parser root)] ++ tr). repeat apply conj.
        -- exact Ec.
        -- rewrite Htr, Ht2, <- app_assoc. reflexivity.
        -- apply Forall_app. split; [exact Hreq2 | exact Hall].
        -- destruct Hres as [(_ & -> & _) | (_ & -> & _)]; [right | left; exists true]; reflexivity.
    + destruct (handleRequest_try_session env parser body root stream w Hbody Hroot Hpool)
        as (w' & trb & trr & chunks & ex' & rest & found & Erun & Htr & Hallb & _ & Hallr & _).
      eexists. exists w'. eexists. split; [exact Erun|]. split; [exact Htr|]. split.
      * apply Forall_app. split; [repeat constructor|].
        apply Forall_app. split; [apply body_events_are_request_events; exact Hallb|].
        apply Forall_app. split.
        -- destruct (read_up_to _ _ _); try constructor; try exact I.
           apply response_events_are_request_events; exact Hallr.
        -- destruct (match read_up_to _ _ _ with Ok _ => _ | _ => _ end); repeat constructor.
      * left. eexists. reflexivity.
Qed.

(** [handleRequest] on any connection, with any pool and any parser: it
    returns, or throws one of four exceptions; what it adds to the trace are
    events of the request. *)
Lemma handleRequest_any (password : bytes) (w : World) :
  exists r w' tr,
    handleRequest env password w = (r, w') /\
    w_trace w' = w_trace w ++ tr /\
    Forall is_request_event tr /\
    match r with
    | Ok _ => True
    | Throw e => escapes_handleRequest e
    | OutOfFuel => False
    end.
Proof.
  unfold handleRequest, bind at 1.
  destruct (readAndCheckPassword_any password w) as (r1 & w1 & tr1 & E1 & Htr1 & Hall1 & Hres1).
  apply client_reads_are_request_events in Hall1.
  rewrite E1. destruct Hres1 as [(b & ->) | (code & ->)].
  2:{ eexists. exists w1, tr1. split; [reflexivity|]. repeat apply conj; auto.
      right. left. exists code. reflexivity. }
  destruct b; cbn [negb].
  2:{ eexists. eexists. exists (tr1 ++ [EvLog "Client did not send a correct password."]).
      split; [reflexivity|]. repeat apply conj; auto.
      - cbn [w_trace emit]. rewrite Htr1, app_assoc. reflexivity.
      - apply Forall_app. split; [exact Hall1 | repeat constructor]. }
  unfold handleRequest_authenticated, bind at 1.
  destruct (readAndParseRequestHeaders_any ScgiRequestParser.init [] w1)
    as (r2 & w2 & tr2 & E2 & Htr2 & Hall2 & _ & Hres2).
  rewrite E2. destruct r2 as [[[ok parser] body] | e |]; [| | contradiction].
  2:{ eexists. exists w2, (tr1 ++ tr2). split; [reflexivity|]. repeat apply conj.
      - rewrite Htr2, Htr1, app_assoc. reflexivity.
      - apply Forall_app. split; assumption.
      - destruct Hres2 as [(code & ->) | ->].
        + right. right. left. exists code. reflexivity.
        + right. right. right. reflexivity. }
  destruct ok; cbn [negb].
  2:{ eexists. exists w2, (tr1 ++ tr2). split; [reflexivity|]. repeat apply conj; auto.
      - rewrite Htr2, Htr1, app_assoc. reflexivity.
      - apply Forall_app. split; assumption. }
  specialize (Hres2 eq_refl).
  destruct (handleRequest_try_any parser body w2) as (r3 & w3 & tr3 & E3 & Htr3 & Hall3 & Hres3).
  { unfold HEADER_BUF_SIZE, ULONG_MODULUS in *. lia. }
  exists r3, w3, (tr1 ++ tr2 ++ tr3). repeat apply conj.
  - exact E3.
  - rewrite Htr3, Htr2, Htr1, <- !app_assoc. reflexivity.
  - repeat (apply Forall_app; split); assumption.
  - destruct Hres3 as [(b & ->) | ->]; [exact I | left; reflexivity].
Qed.

End HandleRequestAny.


(** ** What becomes of a request *)

Section Outcomes.

Context {P : Type} {parser_ops : ScgiRequestParser.ops P}.
Context {E : Type} {extractor_ops : HttpStatusExtractor.ops E}.
Variable env : Env.
Variable password : bytes.

(** After the password and a valid header block, [handleRequest] is its
    [try] block; the two steps have written nothing to the client. *)
Lemma handleRequest_to_try (w w1 w2 : World) (parser : P) (body : bytes) :
  readAndCheckPassword password w = (Ok true, w1) ->
  readAndParseRequestHeaders ScgiRequestParser.init [] w1 = (Ok (true, parser, body), w2) ->
  handleRequest env password w =
    try_catch (handleRequest_try env parser body) handleRequest_catch w2 /\
  zlen body < ULONG_MODULUS /\
  exists tr, w_trace w2 = w_trace w ++ tr /\ Forall is_quiet_event tr.
Proof.
  intros Hpw Hparse. repeat apply conj.
  - unfold handleRequest, bind at 1. rewrite Hpw. cbn [negb].
    unfold handleRequest_authenticated, bind at 1. rewrite Hparse. reflexivity.
  - destruct (readAndParseRequestHeaders_any ScgiRequestParser.init [] w1)
      as (r2 & w2' & tr2 & E2 & _ & _ & _ & Hres2).
    rewrite Hparse in E2. injection E2 as <- <-. specialize (Hres2 eq_refl).
    unfold HEADER_BUF_SIZE, ULONG_MODULUS in *. lia.
  - destruct (readAndCheckPassword_trace _ _ _ _ Hpw) as (tr1 & Htr1 & Hq1).
    destruct (readAndParseRequestHeaders_trace _ _ _ _ _ Hparse) as (tr2 & Htr2 & Hq2).
    exists (tr1 ++ tr2). split.
    + rewrite Htr2, Htr1, app_assoc. reflexivity.
    + apply Forall_app. split; assumption.
Qed.

End Outcomes.

(** X4. The order of a request that goes through. Once the password and
    the header block have been read, and when no read of the client or of the
    session fails: the path is canonicalized, the session is taken from the
    pool, it is sent the header block; then come the reads of the client and
    the body blocks, and nothing else; then the writer is shut down; only
    then is the session's stream read and the client written to.
    [handleRequest] returns false. *)
Theorem handleRequest_exchange_order :
  forall {P : Type} {parser_ops : ScgiRequestParser.ops P}
         {E : Type} {extractor_ops : HttpStatusExtractor.ops E}
         (env : Env) (password : bytes) (w w1 w2 : World)
         (parser : P) (body root : bytes) (stream : instream),
    readAndCheckPassword password w = (Ok true, w1) ->
    readAndParseRequestHeaders ScgiRequestParser.init [] w1 = (Ok (true, parser, body), w2) ->
    canonicalizePath env (app_root_path parser) = inr root ->
    pool_get env (options_of parser root) = inr stream ->
    first_error (w_client w2) = None ->
    first_error stream = None ->
    exists w3 trb trr,
      handleRequest env password w = (Ok false, w3) /\
      w_trace w3 =
        w_trace w2 ++
        [EvCanonicalize (app_root_path parser); EvPoolGet (options_of parser root);
         EvSendHeaders (ScgiRequestParser.getHeaderData parser)] ++
        trb ++ EvShutdownWriter :: trr /\
      Forall is_buffered_body_event trb /\
      session_body trb =
        body ++ firstn (Z.to_nat (to_ulong (contentLength_of parser - zlen body)))
                       (stream_bytes (w_client w2)) /\
      Forall is_response_event trr /\
      exists chunks ex' rest found,
        fed HttpStatusExtractor.init chunks ex' found /\
        stream_bytes stream = List.concat chunks ++ rest /\
        client_output (w_trace w3) =
          client_output (w_trace w) ++
          (if found then
             lit "HTTP/1.1 " ++ HttpStatusExtractor.getStatusLine ex' ++
             HttpStatusExtractor.getBuffer ex' ++ rest
           else []).
Proof.
  intros P parser_ops E extractor_ops env password w w1 w2 parser body root stream
         Hpw Hparse Hroot Hpool Hc Hs.
  destruct (handleRequest_to_try env password w w1 w2 parser body Hpw Hparse)
    as (Hrun & Hbody & tr0 & Htr0 & Hq0).
  destruct (handleRequest_try_session env parser body root stream w2 Hbody Hroot Hpool)
    as (w3 & trb & trr & chunks & ex' & rest & found & Etry & Htr & Hallb & Hsb & Hallr & Hresp).
  assert (Hsent : read_up_to "Cannot read request body"
                    (Z.to_nat (to_ulong (contentLength_of parser - zlen body)))
                    (w_client w2) = Ok tt).
  { unfold read_up_to, read_to_end. rewrite Hc. destruct (Nat.leb _ _); reflexivity. }
  assert (Hans : read_to_end "Cannot read response from backend process" stream = Ok tt).
  { unfold read_to_end. rewrite Hs. reflexivity. }
  rewrite Hsent, Hans in Etry, Htr. cbn [negb] in Etry. rewrite app_nil_r in Htr.
  destruct (Hresp Hsent) as (Hfed & Hst & Hout).
  exists w3, trb, trr. rewrite Hrun. repeat apply conj; auto.
  exists chunks, ex', rest, found. repeat apply conj; auto.
  rewrite Htr, Htr0, !client_output_app.
  destruct (quiet_trace _ Hq0) as (-> & _).
  destruct (body_events_no_output _ Hallb) as (-> & _).
  change (client_output (EvShutdownWriter :: trr)) with (client_output trr).
  change (client_output [_; _; _]) with (@nil byte).
  rewrite !app_nil_r. cbn [app]. f_equal.
  destruct found; [exact Hout | exact (proj1 Hout)].
Qed.

Lemma handleRequest_exchange_order_witness :
  exists w3 trb trr,
    handleRequest (P := SpecParser.t) (E := SpecExtractor.t) env_ok secretA happy_post_world =
      (Ok false, w3) /\
    w_trace w3 =
      w_trace happy_post_world2 ++
      [EvCanonicalize (app_root_path parser_post);
       EvPoolGet (options_of parser_post (lit "/r/.."));
       EvSendHeaders (ScgiRequestParser.getHeaderData parser_post)] ++
      trb ++ EvShutdownWriter :: trr /\
    Forall is_buffered_body_event trb /\
    session_body trb = lit "hello world" /\
    Forall is_response_event trr.
Proof.
  assert (H1 : readAndCheckPassword secretA happy_post_world = (Ok true, happy_post_world1))
    by (vm_compute; reflexivity).
  assert (H2 : readAndParseRequestHeaders (P := SpecParser.t) ScgiRequestParser.init []
                 happy_post_world1 = (Ok (true, parser_post, lit "hello"), happy_post_world2))
    by (vm_compute; reflexivity).
  assert (H3 : canonicalizePath env_ok (app_root_path parser_post) = inr (lit "/r/.."))
    by (vm_compute; reflexivity).
  assert (H4 : pool_get env_ok (options_of parser_post (lit "/r/..")) =
               inr [Chunk (lit "Status: 200 OK" ++ CRLF ++ CRLF ++ lit "hi")]) by reflexivity.
  assert (H5 : first_error (w_client happy_post_world2) = None) by reflexivity.
  assert (H6 : first_error [Chunk (lit "Status: 200 OK" ++ CRLF ++ CRLF ++ lit "hi")] = None)
    by reflexivity.
  destruct (handleRequest_exchange_order (P := SpecParser.t) (E := SpecExtractor.t)
              env_ok secretA happy_post_world _ _ parser_post (lit "hello") (lit "/r/..") _
              H1 H2 H3 H4 H5 H6)
    as (w3 & trb & trr & Hrun & Htr & Hallb & Hsb & Hallr & _).
  exists w3, trb, trr. repeat apply conj; auto.
Defined.

(** X5. A failing read of the request body, after the session has been
    taken from the pool and before the body is complete, does not leave
    [handleRequest]: the exception is logged and [handleRequest] returns
    true. The session has received the header block and the body bytes that
    came before the failure; its writer is not shut down, its stream is not
    read, and nothing is written to the client. *)
Theorem handleRequest_body_read_failure :
  forall {P : Type} {parser_ops : ScgiRequestParser.ops P}
         {E : Type} {extractor_ops : HttpStatusExtractor.ops E}
         (env : Env) (password : bytes) (w w1 w2 : World)
         (parser : P) (body root : bytes) (stream : instream) (e : Z),
    readAndCheckPassword password w = (Ok true, w1) ->
    readAndParseRequestHeaders ScgiRequestParser.init [] w1 = (Ok (true, parser, body), w2) ->
    canonicalizePath env (app_root_path parser) = inr root ->
    pool_get env (options_of parser root) = inr stream ->
    first_error (w_client w2) = Some e ->
    zlen (stream_bytes (w_client w2)) < to_ulong (contentLength_of parser - zlen body) ->
    exists w3 trb,
      handleRequest env password w = (Ok true, w3) /\
      w_trace w3 =
        w_trace w2 ++
        [EvCanonicalize (app_root_path parser); EvPoolGet (options_of parser root);
         EvSendHeaders (ScgiRequestParser.getHeaderData parser)] ++
        trb ++ [EvLog "Uncaught exception in PassengerServer client thread"] /\
      Forall is_buffered_body_event trb /\
      session_body trb = body ++ stream_bytes (w_client w2) /\
      client_output (w_trace w3) = client_output (w_trace w).
Proof.
  intros P parser_ops E extractor_ops env password w w1 w2 parser body root stream e
         Hpw Hparse Hroot Hpool Hc Hshort.
  destruct (handleRequest_to_try env password w w1 w2 parser body Hpw Hparse)
    as (Hrun & Hbody & tr0 & Htr0 & Hq0).
  destruct (handleRequest_try_session env parser body root stream w2 Hbody Hroot Hpool)
    as (w3 & trb & trr & chunks & ex' & rest & found & Etry & Htr & Hallb & Hsb & _).
  assert (Hlt : (List.length (stream_bytes (w_client w2)) <
                 Z.to_nat (to_ulong (contentLength_of parser - zlen body)))%nat).
  { unfold zlen in Hshort at 1. lia. }
  assert (Hsent : read_up_to "Cannot read request body"
                    (Z.to_nat (to_ulong (contentLength_of parser - zlen body)))
                    (w_client w2) = Throw (SystemException "Cannot read request body" e)).
  { unfold read_up_to, read_to_end. rewrite Hc.
    apply Nat.leb_gt in Hlt. rewrite Hlt. reflexivity. }
  rewrite Hsent in Etry, Htr. cbn [negb app] in Etry, Htr.
  rewrite firstn_all2 in Hsb by lia.
  exists w3, trb. rewrite Hrun. repeat apply conj; auto.
  rewrite Htr, Htr0, !client_output_app.
  destruct (quiet_trace _ Hq0) as (-> & _).
  destruct (body_events_no_output _ Hallb) as (Hb & _).
  change (client_output (?a :: ?b :: ?c :: trb ++ ?l)) with (client_output (trb ++ l)).
  rewrite client_output_app, Hb. rewrite !app_nil_r. reflexivity.
Qed.

Lemma handleRequest_body_read_failure_witness :
  exists w3 trb,
    handleRequest (P := SpecParser.t) (E := SpecExtractor.t) env_ok secretA reset_post_world =
      (Ok true, w3) /\
    w_trace w3 =
      w_trace reset_post_world2 ++
      [EvCanonicalize (app_root_path parser_post);
       EvPoolGet (options_of parser_post (lit "/r/.."));
       EvSendHeaders (ScgiRequestParser.getHeaderData parser_post)] ++
      trb ++ [EvLog "Uncaught exception in PassengerServer client thread"] /\
    Forall is_buffered_body_event trb /\
    session_body trb = lit "hello wor" /\
    client_output (w_trace w3) = [].
Proof.
  assert (H1 : readAndCheckPassword secretA reset_post_world = (Ok true, reset_post_world1))
    by (vm_compute; reflexivity).
  assert (H2 : readAndParseRequestHeaders (P := SpecParser.t) ScgiRequestParser.init []
                 reset_post_world1 = (Ok (true, parser_post, lit "hello"), reset_post_world2))
    by (vm_compute; reflexivity).
  assert (H3 : canonicalizePath env_ok (app_root_path parser_post) = inr (lit "/r/.."))
    by (vm_compute; reflexivity).
  assert (H4 : pool_get env_ok (options_of parser_post (lit "/r/..")) =
               inr [Chunk (lit "Status: 200 OK" ++ CRLF ++ CRLF ++ lit "hi")]) by reflexivity.
  assert (H5 : first_error (w_client reset_post_world2) = Some 104) by reflexivity.
  assert (H6 : zlen (stream_bytes (w_client reset_post_world2)) <
               to_ulong (contentLength_of parser_post - zlen (lit "hello")))
    by (vm_compute; reflexivity).
  exact (handleRequest_body_read_failure (P := SpecParser.t) (E := SpecExtractor.t)
           env_ok secretA reset_post_world _ _ parser_post (lit "hello") (lit "/r/..") _ 104
           H1 H2 H3 H4 H5 H6).
Defined.


(** X6. A failing read of the session's stream does not leave
    [handleRequest] either: it is logged and [handleRequest] returns true.
    The request had been sent and the writer shut down; the client keeps
    what was forwarded before the failure, and nothing is added to it. *)
Theorem handleRequest_response_read_failure :
  forall {P : Type} {parser_ops : ScgiRequestParser.ops P}
         {E : Type} {extractor_ops : HttpStatusExtractor.ops E}
         (env : Env) (password : bytes) (w w1 w2 : World)
         (parser : P) (body root : bytes) (stream : instream) (e : Z),
    readAndCheckPassword password w = (Ok true, w1) ->
    readAndParseRequestHeaders ScgiRequestParser.init [] w1 = (Ok (true, parser, body), w2) ->
    canonicalizePath env (app_root_path parser) = inr root ->
    pool_get env (options_of parser root) = inr stream ->
    first_error (w_client w2) = None ->
    first_error stream = Some e ->
    exists w3 trb trr chunks ex' rest found,
      handleRequest env password w = (Ok true, w3) /\
      w_trace w3 =
        w_trace w2 ++
        [EvCanonicalize (app_root_path parser); EvPoolGet (options_of parser root);
         EvSendHeaders (ScgiRequestParser.getHeaderData parser)] ++
        trb ++ EvShutdownWriter :: trr ++
        [EvLog "Uncaught exception in PassengerServer client thread"] /\
      Forall is_buffered_body_event trb /\
      Forall is_response_event trr /\
      fed HttpStatusExtractor.init chunks ex' found /\
      stream_bytes stream = List.concat chunks ++ rest /\
      client_output (w_trace w3) =
        client_output (w_trace w) ++
        (if found then
           lit "HTTP/1.1 " ++ HttpStatusExtractor.getStatusLine ex' ++
           HttpStatusExtractor.getBuffer ex' ++ rest
         else []).
Proof.
  intros P parser_ops E extractor_ops env password w w1 w2 parser body root stream e
         Hpw Hparse Hroot Hpool Hc Hs.
  destruct (handleRequest_to_try env password w w1 w2 parser body Hpw Hparse)
    as (Hrun & Hbody & tr0 & Htr0 & Hq0).
  destruct (handleRequest_try_session env parser body root stream w2 Hbody Hroot Hpool)
    as (w3 & trb & trr & chunks & ex' & rest & found & Etry & Htr & Hallb & Hsb & Hallr & Hresp).
  assert (Hsent : read_up_to "Cannot read request body"
                    (Z.to_nat (to_ulong (contentLength_of parser - zlen body)))
                    (w_client w2) = Ok tt).
  { unfold read_up_to, read_to_end. rewrite Hc. destruct (Nat.leb _ _); reflexivity. }
  assert (Hans : read_to_end "Cannot read response from backend process" stream =
                 Throw (SystemException "Cannot read response from backend process" e)).
  { unfold read_to_end. rewrite Hs. reflexivity. }
  rewrite Hsent, Hans in Etry, Htr. cbn [negb] in Etry.
  destruct (Hresp Hsent) as (Hfed & Hst & Hout).
  exists w3, trb, trr, chunks, ex', rest, found. rewrite Hrun. repeat apply conj; auto.
  rewrite Htr, Htr0, !client_output_app.
  destruct (quiet_trace _ Hq0) as (-> & _).
  destruct (body_events_no_output _ Hallb) as (-> & _).
  change (client_output (EvShutdownWriter :: trr)) with (client_output trr).
  change (client_output [_; _; _]) with (@nil byte).
  change (client_output [EvLog _]) with (@nil byte).
  rewrite !app_nil_r. cbn [app]. f_equal.
  destruct found; [exact Hout | exact (proj1 Hout)].
Qed.

Lemma handleRequest_response_read_failure_witness :
  exists w3,
    handleRequest (P := SpecParser.t) (E := SpecExtractor.t)
      env_reset_response secretA happy_get_world = (Ok true, w3) /\
    exists chunks ex' rest found,
      fed (E := SpecExtractor.t) HttpStatusExtractor.init chunks ex' found /\
      stream_bytes (w_session reset_response_world) = List.concat chunks ++ rest /\
      client_output (w_trace w3) =
        client_output (w_trace happy_get_world) ++
        (if found then
           lit "HTTP/1.1 " ++ HttpStatusExtractor.getStatusLine ex' ++
           HttpStatusExtractor.getBuffer ex' ++ rest
         else []).
Proof.
  assert (H1 : readAndCheckPassword secretA happy_get_world = (Ok true, happy_get_world1))
    by (vm_compute; reflexivity).
  assert (H2 : readAndParseRequestHeaders (P := SpecParser.t) ScgiRequestParser.init []
                 happy_get_world1 = (Ok (true, parser_root, []), happy_get_world2))
    by (vm_compute; reflexivity).
  assert (H3 : canonicalizePath env_reset_response (app_root_path parser_root) =
               inr (lit "/r/..")) by (vm_compute; reflexivity).
  assert (H4 : pool_get env_reset_response (options_of parser_root (lit "/r/..")) =
               inr (w_session reset_response_world)) by reflexivity.
  assert (H5 : first_error (w_client happy_get_world2) = None) by reflexivity.
  assert (H6 : first_error (w_session reset_response_world) = Some 104) by reflexivity.
  destruct (handleRequest_response_read_failure (P := SpecParser.t) (E := SpecExtractor.t)
              env_reset_response secretA happy_get_world _ _ parser_root [] (lit "/r/..") _ 104
              H1 H2 H3 H4 H5 H6)
    as (w3 & trb & trr & chunks & ex' & rest & found & Hrun & _ & _ & _ & Hfed & Hst & Hout).
  exists w3. split; [exact Hrun|]. exists chunks, ex', rest, found. auto.
Defined.

(** The run of that request: the client is left with the start of the
    page. *)
Example response_reset_round :
  let '(r, w') := threadMain (P := SpecParser.t) (E := SpecExtractor.t)
                    env_reset_response secretA
                    [Connection (w_client happy_get_world) (0, 0); AcceptInterrupted]
                    happy_get_world in
  r = ThreadReturned /\
  client_output (w_trace w') =
    lit "HTTP/1.1 404 Not Found" ++ lit "Status: 404 Not Found" ++ CRLF ++ CRLF ++
    lit "par" /\
  filter is_connection_event (w_trace w') = [EvAccept; EvClose ClientFd; EvAccept].
Proof. vm_compute. repeat split. Qed.

(** X7. When [canonicalizePath] throws, whatever it throws but
    [thread_interrupted], also a [SpawnException], or when [pool->get]
    throws something that is neither a [SpawnException] nor
    [thread_interrupted]: the exception is logged and [handleRequest]
    returns true. The pool is not asked in the first case; in both the
    session is sent nothing and the client receives nothing, no error page
    either. *)
Theorem handleRequest_lookup_failure :
  forall {P : Type} {parser_ops : ScgiRequestParser.ops P}
         {E : Type} {extractor_ops : HttpStatusExtractor.ops E}
         (env : Env) (password : bytes) (w w1 w2 : World) (parser : P) (body : bytes),
    readAndCheckPassword password w = (Ok true, w1) ->
    readAndParseRequestHeaders ScgiRequestParser.init [] w1 = (Ok (true, parser, body), w2) ->
    (forall e,
       canonicalizePath env (app_root_path parser) = inl e ->
       e <> thread_interrupted ->
       exists msg w3,
         handleRequest env password w = (Ok true, w3) /\
         w_trace w3 = w_trace w2 ++ [EvCanonicalize (app_root_path parser); EvLog msg] /\
         pool_gets (w_trace w3) = pool_gets (w_trace w) /\
         client_output (w_trace w3) = client_output (w_trace w)) /\
    (forall root e,
       canonicalizePath env (app_root_path parser) = inr root ->
       pool_get env (options_of parser root) = inl e ->
       e <> thread_interrupted ->
       (forall se, e <> Spawn se) ->
       exists msg w3,
         handleRequest env password w = (Ok true, w3) /\
         w_trace w3 =
           w_trace w2 ++
           [EvCanonicalize (app_root_path parser); EvPoolGet (options_of parser root);
            EvLog msg] /\
         client_output (w_trace w3) = client_output (w_trace w)).
Proof.
  intros P parser_ops E extractor_ops env password w w1 w2 parser body Hpw Hparse.
  destruct (handleRequest_to_try env password w w1 w2 parser body Hpw Hparse)
    as (Hrun & _ & tr0 & Htr0 & Hq0).
  destruct (quiet_trace _ Hq0) as (Hc0 & Hg0 & _).
  split.
  - intros e Hroot Hne.
    destruct (handleRequest_catch_any e (emit (EvCanonicalize (app_root_path parser)) w2))
      as (r & w3 & tr & Ec & Htr & _ & [(He & _) | (_ & -> & msg & ->)]); [contradiction|].
    exists msg, w3. rewrite Hrun.
    assert (Ht3 : w_trace w3 = w_trace w2 ++ [EvCanonicalize (app_root_path parser); EvLog msg]).
    { rewrite Htr. cbn [w_trace emit]. rewrite <- app_assoc. reflexivity. }
    repeat apply conj.
    + unfold try_catch at 1, handleRequest_try, bind at 1, call_canonicalizePath.
      rewrite Hroot. exact Ec.
    + exact Ht3.
    + rewrite Ht3, Htr0, !pool_gets_app, Hg0. unfold pool_gets at 2. simpl. lia.
    + rewrite Ht3, Htr0, !client_output_app, Hc0. rewrite !app_nil_r. reflexivity.
  - intros root e Hroot Hpool Hne Hns.
    set (w2' := emit (EvPoolGet (options_of parser root))
                  (emit (EvCanonicalize (app_root_path parser)) w2)).
    destruct (handleRequest_catch_any e w2')
      as (r & w3 & tr & Ec & Htr & _ & [(He & _) | (_ & -> & msg & ->)]); [contradiction|].
    exists msg, w3. rewrite Hrun.
    assert (Ht3 : w_trace w3 =
                  w_trace w2 ++
                  [EvCanonicalize (app_root_path parser); EvPoolGet (options_of parser root);
                   EvLog msg]).
    { rewrite Htr. unfold w2'. cbn [w_trace emit]. rewrite <- !app_assoc. reflexivity. }
    repeat apply conj.
    + unfold try_catch at 1, handleRequest_try, bind at 1, call_canonicalizePath.
      rewrite Hroot. unfold bind at 1, try_catch at 1, bind at 1, call_pool_get.
      rewrite Hpool. fold w2'. destruct e; try exact Ec. elim (Hns e). reflexivity.
    + exact Ht3.
    + rewrite Ht3, Htr0, !client_output_app, Hc0. rewrite !app_nil_r. reflexivity.
Qed.

Lemma handleRequest_lookup_failure_witness :
  (exists msg w3,
     handleRequest (P := SpecParser.t) (E := SpecExtractor.t)
       env_no_such_root secretA happy_get_world = (Ok true, w3) /\
     w_trace w3 =
       w_trace happy_get_world2 ++ [EvCanonicalize (app_root_path parser_root); EvLog msg] /\
     pool_gets (w_trace w3) = pool_gets (w_trace happy_get_world) /\
     client_output (w_trace w3) = client_output (w_trace happy_get_world)) /\
  (exists msg w3,
     handleRequest (P := SpecParser.t) (E := SpecExtractor.t)
       env_pool_unreachable secretA happy_get_world = (Ok true, w3) /\
     w_trace w3 =
       w_trace happy_get_world2 ++
       [EvCanonicalize (app_root_path parser_root);
        EvPoolGet (options_of parser_root (lit "/r/.."));
        EvLog msg] /\
     client_output (w_trace w3) = client_output (w_trace happy_get_world)).
Proof.
  assert (H1 : readAndCheckPassword secretA happy_get_world = (Ok true, happy_get_world1))
    by (vm_compute; reflexivity).
  assert (H2 : readAndParseRequestHeaders (P := SpecParser.t) ScgiRequestParser.init []
                 happy_get_world1 = (Ok (true, parser_root, []), happy_get_world2))
    by (vm_compute; reflexivity).
  split.
  - assert (H3 : canonicalizePath env_no_such_root (app_root_path parser_root) =
                 inl (SystemException "Cannot canonicalize path" 2)) by reflexivity.
    assert (H4 : SystemException "Cannot canonicalize path" 2 <> thread_interrupted)
      by discriminate.
    exact (proj1 (handleRequest_lookup_failure (P := SpecParser.t) (E := SpecExtractor.t)
                    env_no_such_root secretA happy_get_world _ _ parser_root [] H1 H2)
                 _ H3 H4).
  - assert (H3 : canonicalizePath env_pool_unreachable (app_root_path parser_root) =
                 inr (lit "/r/..")) by (vm_compute; reflexivity).
    assert (H4 : pool_get env_pool_unreachable (options_of parser_root (lit "/r/..")) =
                 inl (IOException "Cannot connect to the spawn server")) by reflexivity.
    assert (H5 : IOException "Cannot connect to the spawn server" <> thread_interrupted)
      by discriminate.
    assert (H6 : forall se, IOException "Cannot connect to the spawn server" <> Spawn se)
      by discriminate.
    exact (proj2 (handleRequest_lookup_failure (P := SpecParser.t) (E := SpecExtractor.t)
                    env_pool_unreachable secretA happy_get_world _ _ parser_root [] H1 H2)
                 _ _ H3 H4 H5 H6).
Defined.

(** X8. [thread_interrupted] is the one exception of [canonicalizePath] and
    [pool->get] that [handleRequest] lets through. [threadMain] then closes
    the connection, while the stack is unwound. When [close] succeeds,
    [threadMain] catches the interruption and returns: the thread ends, and
    nothing is logged or written to the client. When [close] fails, the
    destructor of the descriptor throws during the unwinding and the process
    is terminated. *)
Theorem handleRequest_interrupted :
  forall {P : Type} {parser_ops : ScgiRequestParser.ops P}
         {E : Type} {extractor_ops : HttpStatusExtractor.ops E}
         (env : Env) (password : bytes) (w0 w1 w2 : World) (parser : P) (body : bytes),
    readAndCheckPassword password (emit EvAccept w0) = (Ok true, w1) ->
    readAndParseRequestHeaders ScgiRequestParser.init [] w1 = (Ok (true, parser, body), w2) ->
    canonicalizePath env (app_root_path parser) = inl thread_interrupted \/
    (exists root,
       canonicalizePath env (app_root_path parser) = inr root /\
       pool_get env (options_of parser root) = inl thread_interrupted) ->
    exists w3 tr,
      handleRequest env password (emit EvAccept w0) = (Throw thread_interrupted, w3) /\
      (forall fd answers,
         fst fd <> -1 ->
         threadMain env password (Connection (w_client w0) fd :: answers) w0 =
           (ThreadReturned, emit (EvClose ClientFd) w3)) /\
      (forall fd answers,
         fst fd = -1 ->
         threadMain env password (Connection (w_client w0) fd :: answers) w0 =
           (ThreadTerminated, emit (EvClose ClientFd) (set_errno (snd fd) w3))) /\
      w_trace w3 = w_trace w2 ++ tr /\
      (tr = [EvCanonicalize (app_root_path parser)] \/
       exists root,
         tr = [EvCanonicalize (app_root_path parser); EvPoolGet (options_of parser root)]).
Proof.
  intros P parser_ops E extractor_ops env password w0 w1 w2 parser body Hpw Hparse Hcase.
  destruct (handleRequest_to_try env password _ w1 w2 parser body Hpw Hparse) as (Hrun & _).
  assert (Hthrow : exists w3 tr,
            try_catch (handleRequest_try env parser body) handleRequest_catch w2 =
              (Throw thread_interrupted, w3) /\
            w_trace w3 = w_trace w2 ++ tr /\
            (tr = [EvCanonicalize (app_root_path parser)] \/
             exists root,
               tr = [EvCanonicalize (app_root_path parser);
                     EvPoolGet (options_of parser root)])).
  { destruct Hcase as [Hroot | (root & Hroot & Hpool)].
    - eexists. eexists. split; [|split; [|left; reflexivity]].
      + unfold try_catch at 1, handleRequest_try, bind at 1, call_canonicalizePath.
        rewrite Hroot. reflexivity.
      + reflexivity.
    - eexists. eexists. split; [|split; [|right; exists root; reflexivity]].
      + unfold try_catch at 1, handleRequest_try, bind at 1, call_canonicalizePath.
        rewrite Hroot. unfold bind at 1, try_catch at 1, bind at 1, call_pool_get.
        rewrite Hpool. reflexivity.
      + cbn [w_trace emit]. rewrite <- app_assoc. reflexivity. }
  destruct Hthrow as (w3 & tr & Etry & Htr & Hshape).
  rewrite <- Hrun in Etry.
  exists w3, tr. repeat apply conj; auto.
  - intros fd answers Hc. rewrite (threadMain_connection _ _ fd answers _ _ _ Etry).
    apply Z.eqb_neq in Hc. rewrite Hc. reflexivity.
  - intros fd answers Hc. rewrite (threadMain_connection _ _ fd answers _ _ _ Etry).
    apply Z.eqb_eq in Hc. rewrite Hc. reflexivity.
Qed.

Lemma handleRequest_interrupted_witness :
  exists w3 tr,
    handleRequest (P := SpecParser.t) (E := SpecExtractor.t)
      env_interrupted secretA (emit EvAccept happy_get_world) = (Throw thread_interrupted, w3) /\
    threadMain (P := SpecParser.t) (E := SpecExtractor.t) env_interrupted secretA
      [Connection (w_client happy_get_world) (0, 0)] happy_get_world =
      (ThreadReturned, emit (EvClose ClientFd) w3) /\
    w_trace w3 = [EvAccept; EvRead ClientFd 64 64; EvRead ClientFd 16384 21] ++ tr /\
    (tr = [EvCanonicalize (app_root_path parser_root)] \/
     exists root,
       tr = [EvCanonicalize (app_root_path parser_root);
             EvPoolGet (options_of parser_root root)]).
Proof.
  assert (H1 : readAndCheckPassword secretA (emit EvAccept happy_get_world) =
               (Ok true, mkWorld [Chunk frame_root] [] [] 0 [EvAccept; EvRead ClientFd 64 64]))
    by (vm_compute; reflexivity).
  assert (H2 : readAndParseRequestHeaders (P := SpecParser.t) ScgiRequestParser.init []
                 (mkWorld [Chunk frame_root] [] [] 0 [EvAccept; EvRead ClientFd 64 64]) =
               (Ok (true, parser_root, []),
                mkWorld [] [] [] 0 [EvAccept; EvRead ClientFd 64 64; EvRead ClientFd 16384 21]))
    by (vm_compute; reflexivity).
  assert (H3 : canonicalizePath env_interrupted (app_root_path parser_root) =
                 inl thread_interrupted \/
               (exists root,
                  canonicalizePath env_interrupted (app_root_path parser_root) = inr root /\
                  pool_get env_interrupted (options_of parser_root root) =
                    inl thread_interrupted)).
  { right. exists (lit "/r/.."). split; [vm_compute; reflexivity | reflexivity]. }
  assert (H4 : fst (0, 0) <> -1) by discriminate.
  destruct (handleRequest_interrupted (P := SpecParser.t) (E := SpecExtractor.t)
              env_interrupted secretA happy_get_world _ _ parser_root [] H1 H2 H3)
    as (w3 & tr & Hrun & Hret & _ & Htr & Hshape).
  exists w3, tr. repeat apply conj; auto.
Defined.


(** ** The thread of a client *)

Lemma request_events_no_connection_event (tr : list event) :
  Forall is_request_event tr -> filter is_connection_event tr = [].
Proof.
  induction 1 as [|ev tr Hev _ IH]; [reflexivity|].
  destruct ev; try contradiction; try (destruct fd; try contradiction); simpl; exact IH.
Qed.

Section ThreadAny.

Context {P : Type} {parser_ops : ScgiRequestParser.ops P}.
Context {E : Type} {extractor_ops : HttpStatusExtractor.ops E}.
Variable env : Env.
Variable password : bytes.


Lemma threadMain_catch_escaped (e : exn) (w : World) :
  escapes_handleRequest e ->
  exists r log,
    threadMain_catch e w = (r, mkWorld (w_client w) (w_session w) (w_admin w) (w_errno w)
                                        (w_trace w ++ log)) /\
    filter is_connection_event log = [] /\
    (r = ThreadReturned \/ r = ThreadAborted).
Proof.
  intros [-> | [(code & ->) | [(code & ->) | ->]]];
    cbn [threadMain_catch is_std_exception is_tracable].
  - exists ThreadReturned, []. rewrite app_nil_r. destruct w. auto.
  - eexists. eexists. split; [reflexivity|]. auto.
  - eexists. eexists. split; [reflexivity|]. auto.
  - eexists. eexists. split; [reflexivity|]. auto.
Qed.

(** [threadMain] on any sequence of answers of [accept]. The first [n]
    answers are connections, and their rounds run to the end, each with its
    [accept] and its [close]; what follows is at most one more [accept],
    which gives no connection. *)
Lemma threadMain_any (answers : list accept_answer) :
  forall w : World,
  exists r w' tr n tail,
    threadMain env password answers w = (r, w') /\
    w_trace w' = w_trace w ++ tr /\
    (n <= List.length answers)%nat /\
    Forall is_connection (firstn n answers) /\
    filter is_connection_event tr = rounds n ++ tail /\
    (tail = [] /\ (0 < n)%nat \/
     tail = [EvAccept] /\ forall a, nth_error answers n = Some a -> ~ is_connection a) /\
    (r = ThreadReturned \/ r = ThreadAborted \/
     r = ThreadTerminated /\ tail = [] /\
       (exists input close, In (Connection input close) answers /\ fst close = -1) \/
     r = ThreadWaiting /\ tail = [EvAccept] /\ n = List.length answers /\
       Forall closes answers).
Proof.
  induction answers as [|a answers IH]; intros w.
  - exists ThreadWaiting, (emit EvAccept w), [EvAccept], O, [EvAccept].
    repeat apply conj; auto.
    + right. split; [reflexivity|]. intros a Ha. discriminate Ha.
    + right. right. right. auto.
  - cbn [threadMain]. destruct a as [input close | e |].
    + unfold acceptConnection, bind at 1, sys_accept.
      unfold ret.
      set (w1 := emit EvAccept (set_pending ClientFd input w)).
      destruct (handleRequest_any env password w1) as (r1 & w2 & tr1 & Erun & Htr1 & Hall1 & Hres1).
      rewrite Erun.
      pose proof (request_events_no_connection_event _ Hall1) as Hf1.
      assert (Ht1 : w_trace w1 = w_trace w ++ [EvAccept]) by (destruct w; reflexivity).
      assert (Hone : Forall is_connection (firstn 1 (Connection input close :: answers)))
        by (repeat constructor).
      destruct r1 as [b | e |]; [| | contradiction].
      * destruct (SharedData_delete_cases close w2) as [(Hcl & ->) | (Hcl & ->)].
        -- destruct (IH (emit (EvClose ClientFd) w2))
             as (r & w' & tr & n & tail & Et & Htr & Hn & Hconn & Hf & Htail & Hr).
           exists r, w', (EvAccept :: tr1 ++ EvClose ClientFd :: tr), (S n), tail.
           repeat apply conj; auto.
           ++ rewrite Htr. cbn [w_trace emit]. rewrite Htr1, Ht1, <- !app_assoc. reflexivity.
           ++ cbn [List.length]. lia.
           ++ cbn [firstn]. constructor; [exact I | exact Hconn].
           ++ cbn [filter is_connection_event]. rewrite filter_app, Hf1.
              cbn [app filter is_connection_event]. rewrite Hf. reflexivity.
           ++ destruct Htail as [(-> & _) | (-> & Hnth)];
                [left; split; [reflexivity | lia] | right; split; [reflexivity | exact Hnth]].
           ++ destruct Hr as [-> | [-> | [(-> & Ht & input' & close' & Hin & Hc)
                                         | (-> & Ht & Hlen & Hall)]]]; auto.
              ** right. right. left. repeat split; auto.
                 exists input', close'. split; [right; exact Hin | exact Hc].
              ** right. right. right. split; [reflexivity|]. split; [exact Ht|].
                 split; [cbn [List.length]; lia|]. constructor; [exact Hcl | exact Hall].
        -- exists ThreadAborted. eexists.
           exists (EvAccept :: tr1 ++ [EvClose ClientFd;
                     EvLog "Uncaught exception in PassengerServer client thread"]), 1%nat, [].
           split; [reflexivity|]. repeat apply conj; auto.
           ++ cbn [w_trace emit set_errno]. rewrite Htr1, Ht1, <- !app_assoc. reflexivity.
           ++ cbn [List.length]. lia.
           ++ cbn [filter is_connection_event]. rewrite filter_app, Hf1. reflexivity.
      * destruct (SharedData_delete_cases close w2) as [(Hcl & ->) | (Hcl & ->)].
        -- destruct (threadMain_catch_escaped e (emit (EvClose ClientFd) w2) Hres1)
             as (r & log & Ec & Hfl & Hr).
           exists r. eexists. exists (EvAccept :: tr1 ++ EvClose ClientFd :: log), 1%nat, [].
           repeat apply conj.
           ++ exact Ec.
           ++ cbn [w_trace emit]. rewrite Htr1, Ht1, <- !app_assoc. reflexivity.
           ++ cbn [List.length]. lia.
           ++ exact Hone.
           ++ cbn [filter is_connection_event]. rewrite filter_app, Hf1.
              cbn [app filter is_connection_event]. rewrite Hfl. reflexivity.
           ++ left. split; [reflexivity | lia].
           ++ destruct Hr as [-> | ->]; auto.
        -- exists ThreadTerminated. eexists. exists (EvAccept :: tr1 ++ [EvClose ClientFd]), 1%nat, [].
           split; [reflexivity|]. repeat apply conj; auto.
           ++ cbn [w_trace emit set_errno]. rewrite Htr1, Ht1, <- !app_assoc. reflexivity.
           ++ cbn [List.length]. lia.
           ++ cbn [filter is_connection_event]. rewrite filter_app, Hf1. reflexivity.
           ++ right. right. left. repeat split; auto.
              exists input, close. split; [left; reflexivity | exact Hcl].
    + exists ThreadAborted. eexists.
      exists [EvAccept; EvLog "Uncaught exception in PassengerServer client thread"], O, [EvAccept].
      split; [reflexivity|]. repeat apply conj; auto.
      * cbn [w_trace emit set_errno]. rewrite <- !app_assoc. reflexivity.
      * cbn [List.length]. lia.
      * right. split; [reflexivity|]. intros a Ha. injection Ha as <-. intros [].
    + exists ThreadReturned. eexists. exists [EvAccept], O, [EvAccept].
      split; [reflexivity|]. repeat apply conj; auto.
      * cbn [List.length]. lia.
      * right. split; [reflexivity|]. intros a Ha. injection Ha as <-. intros [].
Qed.

End ThreadAny.



(** X10. The connections of a thread, for every sequence of answers of
    [accept]. The thread uses the first [n] answers, all of them
    connections, and for each the thread has one [accept] and then one
    [close]: among the events of the thread, these come in pairs, so every
    accepted connection is closed before the next [accept] and before the
    thread ends, however its request ends, and none is closed twice. After
    the pairs there is either nothing, the thread having ended with the
    close of connection [n], or one more [accept], the call that gave no
    connection: it failed, was interrupted, or has no answer yet. *)
Theorem threadMain_connections_closed :
  forall {P : Type} {parser_ops : ScgiRequestParser.ops P}
         {E : Type} {extractor_ops : HttpStatusExtractor.ops E}
         (env : Env) (password : bytes) (answers : list accept_answer) (w : World),
    exists r w' tr n,
      threadMain env password answers w = (r, w') /\
      w_trace w' = w_trace w ++ tr /\
      (n <= List.length answers)%nat /\
      Forall is_connection (firstn n answers) /\
      (filter is_connection_event tr = rounds n /\ (0 < n)%nat /\ r <> ThreadWaiting \/
       filter is_connection_event tr = rounds n ++ [EvAccept] /\
       forall a, nth_error answers n = Some a -> ~ is_connection a).
Proof.
  intros P parser_ops E extractor_ops env password answers w.
  destruct (threadMain_any env password answers w)
    as (r & w' & tr & n & tail & Erun & Htr & Hn & Hconn & Hf & Htail & Hr).
  exists r, w', tr, n. repeat apply conj; auto.
  destruct Htail as [(-> & Hpos) | (-> & Hnth)].
  - left. rewrite Hf, app_nil_r. repeat apply conj; auto.
    destruct Hr as [-> | [-> | [(-> & _) | (-> & Ht & _)]]]; try discriminate.
  - right. auto.
Qed.

(** X11. How a thread ends, for every sequence of answers of [accept]:
    [threadMain] returns (on an interruption), or the process is aborted, or
    terminated, or the thread waits in [accept]. The last [catch] clause of
    [threadMain], which rethrows, is never reached. The process is
    terminated only when the [close] of a connection fails, and the thread
    comes to wait only when every answer was a connection whose [close]
    succeeded. *)
Theorem threadMain_end :
  forall {P : Type} {parser_ops : ScgiRequestParser.ops P}
         {E : Type} {extractor_ops : HttpStatusExtractor.ops E}
         (env : Env) (password : bytes) (answers : list accept_answer) (w : World),
    let r := fst (threadMain env password answers w) in
    r <> ThreadNoFuel /\
    (forall e, r <> ThreadRethrown e) /\
    (r = ThreadTerminated ->
     exists input close, In (Connection input close) answers /\ fst close = -1) /\
    (r = ThreadWaiting -> Forall closes answers).
Proof.
  intros P parser_ops E extractor_ops env password answers w.
  destruct (threadMain_any env password answers w)
    as (r & w' & tr & n & tail & Erun & _ & _ & _ & _ & _ & Hr).
  rewrite Erun. cbn [fst].
  destruct Hr as [-> | [-> | [(-> & _ & Hex) | (-> & _ & _ & Hall)]]];
    repeat apply conj; try discriminate; auto.
Qed.

(** X12. A connection whose input fails before the 64 bytes of the
    password have arrived ends the process: the exception of [readRaw]
    leaves [handleRequest], the connection is closed, and [threadMain] logs
    and calls [abort()]. The answers of [accept] that follow are not
    used. *)
Theorem threadMain_password_read_failure_aborts :
  forall {P : Type} {parser_ops : ScgiRequestParser.ops P}
         {E : Type} {extractor_ops : HttpStatusExtractor.ops E}
         (env : Env) (password : bytes) (input : instream) (close : Z * Z)
         (answers : list accept_answer) (w : World) (e : Z),
    zlen (stream_bytes input) < 64 ->
    first_error input = Some e ->
    fst close <> -1 ->
    exists w' tr,
      threadMain env password (Connection input close :: answers) w = (ThreadAborted, w') /\
      w_trace w' =
        w_trace w ++
        EvAccept :: tr ++
        [EvClose ClientFd; EvLog "Uncaught exception in PassengerServer client thread"] /\
      Forall (is_read_event ClientFd) tr.
Proof.
  intros P parser_ops E extractor_ops env password input close answers w e Hshort Herr Hcl.
  set (w1 := emit EvAccept (set_pending ClientFd input w)).
  assert (Hc1 : w_client w1 = input) by reflexivity.
  assert (Ht1 : w_trace w1 = w_trace w ++ [EvAccept]) by (destruct w; reflexivity).
  destruct (readAndCheckPassword_short password w1) as (r & w2 & tr & Epw & Htr & Hall & Hres).
  { rewrite Hc1. exact Hshort. }
  destruct Hres as [(Hne & _) | (_ & code & ->)].
  { rewrite Hc1 in Hne. apply first_error_none in Hne. congruence. }
  assert (Hrun : handleRequest env password w1 =
                 (Throw (SystemException "Cannot read data from socket" code), w2)).
  { unfold handleRequest, bind at 1. rewrite Epw. reflexivity. }
  cbn [threadMain]. unfold acceptConnection, bind at 1, sys_accept, ret. fold w1.
  rewrite Hrun.
  destruct (SharedData_delete_cases close w2) as [(_ & ->) | (Hcl' & _)]; [|contradiction].
  eexists. exists tr. split; [reflexivity|]. split; [|exact Hall].
  cbn [w_trace emit]. rewrite Htr, Ht1, <- !app_assoc. reflexivity.
Qed.

Lemma threadMain_password_read_failure_aborts_witness :
  exists w' tr,
    threadMain (P := SpecParser.t) (E := SpecExtractor.t) env_ok secretA
      [Connection [Chunk (firstn 10 secretA); ReadError 104] (0, 0); AcceptInterrupted]
      (mkWorld [] [] [] 0 []) = (ThreadAborted, w') /\
    w_trace w' =
      EvAccept :: tr ++
      [EvClose ClientFd; EvLog "Uncaught exception in PassengerServer client thread"] /\
    Forall (is_read_event ClientFd) tr.
Proof.
  assert (H1 : zlen (stream_bytes [Chunk (firstn 10 secretA); ReadError 104]) < 64)
    by (vm_compute; reflexivity).
  assert (H2 : first_error [Chunk (firstn 10 secretA); ReadError 104] = Some 104)
    by reflexivity.
  assert (H3 : fst (0, 0) <> -1) by discriminate.
  exact (threadMain_password_read_failure_aborts (P := SpecParser.t) (E := SpecExtractor.t)
           env_ok secretA [Chunk (firstn 10 secretA); ReadError 104] (0, 0)
           [AcceptInterrupted] (mkWorld [] [] [] 0 []) 104 H1 H2 H3).
Defined.

(** A thread that serves three connections: the third ends the process,
    and the interruption that was to follow is never seen. *)
Example three_connections_run :
  let '(r, w') := threadMain (P := SpecParser.t) (E := SpecExtractor.t) env_ok secretA
                    three_connections (mkWorld [] [] [] 0 []) in
  r = ThreadAborted /\
  filter is_connection_event (w_trace w') = rounds 3 /\
  pool_gets (w_trace w') = 1%nat.
Proof. vm_compute. repeat split. Qed.


(** ** The clients of a server *)

Section ClientThreadsAny.

Variable senv : StartupEnv.

(** The loop of [startClientHandlerThreads], whether or not the threads can
    be started: it constructs clients [i + 1], [i + 2], ... for this server,
    and stops at the first whose thread cannot be started, with the
    exception of that thread. [new] are the clients constructed, the one
    that failed included. *)
Lemma startClientHandlerThreads_loop_any (todo : nat) :
  forall (i : Z) (s : Server) (w : World),
    0 <= i -> i + Z.of_nat todo < UINT_MODULUS ->
    exists new w' r,
      startClientHandlerThreads_loop senv todo i s w = (r, w') /\
      w_trace w' = w_trace w ++ map EvNewClient new /\
      w_admin w' = w_admin w /\
      Forall (client_of s) new /\
      map client_number new = map (fun k => i + Z.of_nat k) (seq 1 (List.length new)) /\
      (List.length new <= todo)%nat /\
      (r = Ok (mkServer (server_password s) (server_adminPipe s) (serverSocket s)
                        (numberOfThreads s) (clients s ++ new) (server_pool s)) /\
       List.length new = todo /\
       (forall k, i < k <= i + Z.of_nat todo -> new_thread senv k = None) \/
       exists e,
         r = Throw e /\
         new_thread senv (i + Z.of_nat (List.length new)) = Some e /\
         (0 < List.length new)%nat /\
         (forall k, i < k < i + Z.of_nat (List.length new) -> new_thread senv k = None)).
Proof.
  induction todo as [|todo IH]; intros i s w Hi Hmax.
  - exists [], w. eexists. split; [reflexivity|]. cbn [map List.length seq].
    rewrite !app_nil_r. repeat apply conj; auto.
    left. destruct s. repeat split. intros k Hk. lia.
  - cbn [startClientHandlerThreads_loop].
    assert (Hnum : to_uint (i + 1) = i + 1).
    { unfold to_uint. apply Z.mod_small. unfold UINT_MODULUS in *. lia. }
    rewrite Hnum.
    unfold bind at 1, Client_new, bind at 1, call.
    set (c := {| client_number := i + 1; client_pool := server_pool s;
                 client_password := server_password s;
                 client_serverSocket := serverSocket s |}).
    assert (Hc : client_of s c) by (repeat split).
    destruct (new_thread senv (i + 1)) as [e|] eqn:Hth.
    + exists [c], (emit (EvNewClient c) w). eexists. split; [reflexivity|].
      cbn [map List.length seq]. repeat apply conj; auto.
      * lia.
      * right. exists e. split; [reflexivity|]. split; [exact Hth|]. split; [lia|].
        intros k Hk. lia.
    + set (s1 := {| server_password := server_password s;
                    server_adminPipe := server_adminPipe s;
                    serverSocket := serverSocket s;
                    numberOfThreads := numberOfThreads s;
                    clients := clients s ++ [c];
                    server_pool := server_pool s |}).
      destruct (IH (i + 1) s1 (emit (EvNewClient c) w))
        as (new & w' & r & Erun & Htr & Hadm & Hall & Hnums & Hlen & Hres); [lia | lia |].
      exists (c :: new), w', r. unfold ret. cbv beta iota. fold c. fold s1.
      assert (Hshift : map (fun k => i + Z.of_nat k) (seq 2 (List.length new)) =
                       map (fun k => i + 1 + Z.of_nat k) (seq 1 (List.length new))).
      { rewrite <- (seq_shift (List.length new) 1), map_map. apply map_ext. intros k. lia. }
      repeat apply conj; auto.
      * rewrite Htr. cbn [w_trace emit map]. rewrite <- app_assoc. reflexivity.
      * cbn [map List.length seq]. rewrite Hshift, <- Hnums. f_equal.
      * cbn [List.length]. lia.
      * destruct Hres as [(-> & Hl & Hok) | (e & -> & Hth' & Hpos & Hok)].
        -- left. split; [|split].
           ++ unfold s1. cbn [server_password server_adminPipe serverSocket numberOfThreads
                                clients server_pool]. rewrite <- app_assoc. reflexivity.
           ++ cbn [List.length]. lia.
           ++ intros k Hk. destruct (Z.eq_dec k (i + 1)) as [-> | Hne]; [exact Hth|].
              apply Hok. lia.
        -- right. exists e. split; [reflexivity|]. split; [|split].
           ++ rewrite <- Hth'. f_equal. cbn [List.length]. lia.
           ++ cbn [List.length]. lia.
           ++ intros k Hk. destruct (Z.eq_dec k (i + 1)) as [-> | Hne]; [exact Hth|].
              apply Hok. cbn [List.length] in Hk. lia.
Qed.

End ClientThreadsAny.


Lemma new_clients_app (a b : list event) :
  new_clients (a ++ b) = new_clients a ++ new_clients b.
Proof. apply flat_map_app. Qed.

Lemma new_clients_map (cs : list Client) : new_clients (map EvNewClient cs) = cs.
Proof. induction cs as [|c cs IH]; [reflexivity|]. simpl. f_equal. exact IH. Qed.

Lemma reads_no_new_client (fd : fdsel) (tr : list event) :
  Forall (is_read_event fd) tr -> new_clients tr = [].
Proof.
  induction 1 as [|ev tr Hev _ IH]; [reflexivity|].
  destruct ev; try (destruct fd; discriminate Hev). exact IH.
Qed.

(** [Server::start] for any server: the clients, then the status reporter
    and the read of the admin pipe, unless a constructor throws. *)
Lemma Server_start_any (senv : StartupEnv) (s : Server) (w : World) :
  0 <= numberOfThreads s < UINT_MODULUS ->
  exists new tail r w',
    Server_start senv s w = (r, w') /\
    w_trace w' = w_trace w ++ map EvNewClient new ++ tail /\
    new_clients tail = [] /\
    Forall (client_of s) new /\
    map client_number new = map Z.of_nat (seq 1 (List.length new)) /\
    (List.length new <= Z.to_nat (numberOfThreads s))%nat /\
    match r with
    | Ok _ =>
        List.length new = Z.to_nat (numberOfThreads s) /\
        (forall k, 1 <= k <= numberOfThreads s -> new_thread senv k = None) /\
        new_StatusReporter senv = None /\
        exists size, tail = [EvNewStatusReporter; EvRead AdminPipe 1 size]
    | Throw e =>
        (new_thread senv (Z.of_nat (List.length new)) = Some e /\
         (0 < List.length new)%nat /\
         (forall k, 1 <= k < Z.of_nat (List.length new) -> new_thread senv k = None) /\
         tail = [] /\ w_admin w' = w_admin w) \/
        (List.length new = Z.to_nat (numberOfThreads s) /\
         (forall k, 1 <= k <= numberOfThreads s -> new_thread senv k = None) /\
         new_StatusReporter senv = Some e /\ tail = [EvNewStatusReporter])
    | OutOfFuel => False
    end.
Proof.
  intros Hn.
  destruct (startClientHandlerThreads_loop_any senv (Z.to_nat (numberOfThreads s)) 0 s w)
    as (new & w1 & r1 & Eloop & Htr & Hadm & Hall & Hnums & Hlen & Hres); [lia | lia |].
  assert (Hnums' : map client_number new = map Z.of_nat (seq 1 (List.length new))).
  { rewrite Hnums. apply map_ext. intros k. lia. }
  unfold Server_start, bind at 1, startClientHandlerThreads. rewrite Eloop.
  destruct Hres as [(-> & Hl & Hok) | (e & -> & Hth & Hpos & Hok)].
  - unfold bind at 1, call.
    destruct (new_StatusReporter senv) as [e|] eqn:Hrep.
    + exists new, [EvNewStatusReporter]. eexists. eexists. split; [reflexivity|].
      repeat apply conj; auto.
      * cbn [w_trace emit]. rewrite Htr, <- app_assoc. reflexivity.
      * right. repeat apply conj; auto. intros k Hk. apply Hok. lia.
    + unfold bind at 1, try_catch, bind at 1, read_fd.
      destruct (sys_read 1 (pending AdminPipe (emit EvNewStatusReporter w1)))
        as [[[size data] code] rest].
      exists new, [EvNewStatusReporter; EvRead AdminPipe 1 size]. eexists. eexists.
      split; [reflexivity|]. repeat apply conj; auto.
      * destruct (size =? -1); cbn [w_trace emit set_errno set_pending];
          rewrite Htr, <- !app_assoc; reflexivity.
      * intros k Hk. apply Hok. lia.
      * exists size. reflexivity.
  - exists new, []. eexists. eexists. split; [reflexivity|]. rewrite app_nil_r.
    repeat apply conj; auto.
    left. repeat apply conj; auto. intros k Hk. apply Hok. lia.
Qed.

(** X14. When the thread of a client cannot be started, [Server::start]
    stops there: the clients before it, numbered from 1, have their threads;
    the exception of the constructor leaves [start]; no later client is
    constructed, no status reporter is made, and the admin pipe is not
    read. *)
Theorem Server_start_thread_failure :
  forall (senv : StartupEnv) (s : Server) (w : World) (k : Z) (e : exn),
    0 <= numberOfThreads s < UINT_MODULUS ->
    1 <= k <= numberOfThreads s ->
    new_thread senv k = Some e ->
    (forall j, 1 <= j < k -> new_thread senv j = None) ->
    exists new w',
      Server_start senv s w = (Throw e, w') /\
      w_trace w' = w_trace w ++ map EvNewClient new /\
      Forall (client_of s) new /\
      map client_number new = map Z.of_nat (seq 1 (Z.to_nat k)) /\
      w_admin w' = w_admin w.
Proof.
  intros senv s w k e Hn Hk Hth Hbefore.
  destruct (Server_start_any senv s w Hn)
    as (new & tail & r & w' & Erun & Htr & _ & Hall & Hnums & Hlen & Hres).
  destruct r as [s' | e' |]; [| | contradiction].
  - destruct Hres as (_ & Hok & _). rewrite (Hok k Hk) in Hth. discriminate.
  - destruct Hres as [(Hth' & Hpos & Hok & -> & Hadm) | Hres'].
    + assert (Hkn : Z.of_nat (List.length new) = k).
      { destruct (Z.lt_trichotomy (Z.of_nat (List.length new)) k) as [Hlt | [Heq | Hgt]].
        - rewrite (Hbefore (Z.of_nat (List.length new))) in Hth' by lia. discriminate.
        - exact Heq.
        - rewrite (Hok k) in Hth by lia. discriminate. }
      rewrite Hkn in Hth'. rewrite Hth in Hth'. injection Hth' as <-.
      exists new, w'. rewrite app_nil_r in Htr. repeat apply conj; auto.
      rewrite Hnums. f_equal. f_equal. lia.
    + destruct Hres' as (_ & Hok & _). rewrite (Hok k Hk) in Hth. discriminate.
Qed.


Lemma Server_start_thread_failure_witness :
  exists new w',
    Server_start senv_third_thread_fails
      (mkServer secretA 3 4 8 [] (pool_of_args (args_with "2"))) clean_shutdown_world =
      (Throw (StdException "boost::thread_resource_error"), w') /\
    w_trace w' = w_trace clean_shutdown_world ++ map EvNewClient new /\
    map client_number new = [1; 2; 3] /\
    w_admin w' = w_admin clean_shutdown_world.
Proof.
  assert (H1 : 0 <= numberOfThreads (mkServer secretA 3 4 8 [] (pool_of_args (args_with "2")))
               < UINT_MODULUS) by (unfold UINT_MODULUS; simpl; lia).
  assert (H2 : 1 <= 3 <= numberOfThreads (mkServer secretA 3 4 8 []
                                            (pool_of_args (args_with "2"))))
    by (simpl; lia).
  assert (H3 : new_thread senv_third_thread_fails 3 =
               Some (StdException "boost::thread_resource_error")) by reflexivity.
  assert (H4 : forall j, 1 <= j < 3 -> new_thread senv_third_thread_fails j = None).
  { intros j Hj. assert (Hc : j = 1 \/ j = 2) by lia. destruct Hc as [-> | ->]; reflexivity. }
  destruct (Server_start_thread_failure senv_third_thread_fails
              (mkServer secretA 3 4 8 [] (pool_of_args (args_with "2")))
              clean_shutdown_world 3 _ H1 H2 H3 H4)
    as (new & w' & Erun & Htr & _ & Hnums & Hadm).
  exists new, w'. repeat apply conj; auto.
Defined.

(** ** [main], from the password to the exit code *)

Lemma to_uint_range (z : Z) : 0 <= to_uint z < UINT_MODULUS.
Proof. unfold to_uint, UINT_MODULUS. apply Z.mod_pos_bound. lia. Qed.

Lemma receivePassword_trace (w : World) r w1 :
  receivePassword w = (r, w1) ->
  exists tr, w_trace w1 = w_trace w ++ tr /\ Forall (is_read_event AdminPipe) tr.
Proof.
  unfold receivePassword, readRaw, bind. intros Hrun.
  destruct (readRaw_loop (Z.to_nat HELPER_SERVER_PASSWORD_SIZE) AdminPipe
              HELPER_SERVER_PASSWORD_SIZE [] w) as [r0 w0] eqn:El.
  destruct (readRaw_loop_trace _ _ _ _ _ _ _ El) as (tr & Htr & Hall).
  exists tr. split; [|exact Hall].
  destruct r0 as [[ok buf] | e |]; [destruct ok|..]; injection Hrun as _ <-; exact Htr.
Qed.

(** The password that [main] receives is the first 64 bytes of the admin
    pipe. *)
Lemma receivePassword_value (w : World) password w1 :
  receivePassword w = (Ok password, w1) ->
  password = firstn 64 (stream_bytes (w_admin w)).
Proof.
  intros Hrun.
  destruct (Z_lt_le_dec (zlen (stream_bytes (w_admin w))) 64) as [Hshort | Hlong].
  - destruct (receivePassword_short w Hshort) as (e & w' & E & _). congruence.
  - destruct (receivePassword_enough w Hlong) as (w' & E). congruence.
Qed.

(** The constructor of [Server]: the fields of the server it makes, and
    what it does on the way; it constructs no client. *)
Lemma Server_new_any (senv : StartupEnv) (password rootDir ruby : bytes)
      (adminPipe maxPoolSize maxInstancesPerApp poolIdleTime : Z) (w : World) :
  exists r w' tr,
    Server_new senv password rootDir ruby adminPipe maxPoolSize maxInstancesPerApp
               poolIdleTime w = (r, w') /\
    w_trace w' = w_trace w ++ tr /\
    new_clients tr = [] /\
    match r with
    | Ok s =>
        s = mkServer password adminPipe (fst (sys_socket senv)) (to_uint (maxPoolSize * 4)) []
                     {| spawnServerCommand := rootDir ++ lit "/bin/passenger-spawn-server";
                        pool_ruby := ruby;
                        pool_max := maxPoolSize;
                        pool_maxPerApp := maxInstancesPerApp;
                        pool_maxIdleTime := poolIdleTime |}
    | Throw _ => True
    | OutOfFuel => False
    end.
Proof.
  unfold Server_new, bind at 1, call.
  destruct (createPassengerTempDir senv).
  { eexists. eexists. exists [EvCreateTempDir]. repeat split. }
  unfold bind at 1.
  destruct (new_StandardApplicationPool senv).
  { eexists. eexists. eexists. split; [reflexivity|]. split.
    - cbn [w_trace emit]. rewrite <- !app_assoc. reflexivity.
    - split; reflexivity. }
  unfold bind at 1, startListening, syscall, bind, get_errno, trace_event, throw, ret.
  cbv beta iota.
  destruct (fst (sys_socket senv) =? -1).
  { eexists. eexists. eexists. split; [reflexivity|]. split.
    - cbn [w_trace emit set_errno]. rewrite <- !app_assoc. reflexivity.
    - split; reflexivity. }
  destruct (fst (sys_bind senv) =? -1).
  { eexists. eexists. eexists. split; [reflexivity|]. split.
    - cbn [w_trace emit set_errno]. rewrite <- !app_assoc. reflexivity.
    - split; reflexivity. }
  destruct (fst (sys_listen senv) =? -1).
  { eexists. eexists. eexists. split; [reflexivity|]. split.
    - cbn [w_trace emit set_errno]. rewrite <- !app_assoc. reflexivity.
    - split; reflexivity. }
  eexists. eexists. eexists. split; [reflexivity|]. split.
  - destruct (fst (sys_chmod senv) =? -1); cbn [w_trace emit set_errno];
      rewrite <- !app_assoc; reflexivity.
  - split; reflexivity.
Qed.

(** X13. The clients that [main] starts, in every run: each has the
    password that came over the admin pipe, its first 64 bytes, the socket
    that [startListening] made and the pool set up from the arguments; they
    are numbered 1, 2, 3, ... in the order of their construction; there are
    at most [4 * max_pool_size] of them, modulo [2^32], and exactly that
    many when [main] returns 0. *)
Theorem main_clients :
  forall (senv : StartupEnv) (args : Args) (w : World),
    exists tr,
      w_trace (snd (main senv args w)) = w_trace w ++ tr /\
      Forall (fun c => client_password c = firstn 64 (stream_bytes (w_admin w)) /\
                       client_serverSocket c = fst (sys_socket senv) /\
                       client_pool c = pool_of_args args) (new_clients tr) /\
      map client_number (new_clients tr) =
        map Z.of_nat (seq 1 (List.length (new_clients tr))) /\
      Z.of_nat (List.length (new_clients tr)) <=
        to_uint (to_uint (atoi (arg_maxPoolSize args)) * 4) /\
      (fst (main senv args w) = Exit 0 ->
       Z.of_nat (List.length (new_clients tr)) =
         to_uint (to_uint (atoi (arg_maxPoolSize args)) * 4)).
Proof.
  intros senv args w.
  pose proof (to_uint_range (to_uint (atoi (arg_maxPoolSize args)) * 4)) as Hrange.
  assert (Hnone : forall tr,
            new_clients tr = [] ->
            Forall (fun c => client_password c = firstn 64 (stream_bytes (w_admin w)) /\
                             client_serverSocket c = fst (sys_socket senv) /\
                             client_pool c = pool_of_args args) (new_clients tr) /\
            map client_number (new_clients tr) =
              map Z.of_nat (seq 1 (List.length (new_clients tr))) /\
            Z.of_nat (List.length (new_clients tr)) <=
              to_uint (to_uint (atoi (arg_maxPoolSize args)) * 4)).
  { intros tr ->. repeat split; [constructor | simpl; lia]. }
  assert (Hlog : forall e w' tr,
            w_trace w' = w_trace w ++ tr ->
            exists msg,
              w_trace (snd (if is_tracable e
                            then (Exit 1, emit (EvLog "exception with backtrace") w')
                            else if is_std_exception e
                                 then (Exit 1, emit (EvLog "exception") w')
                                 else (Terminated e,
                                       emit (EvLog "Unknown exception thrown in main thread.")
                                            w'))) = w_trace w ++ tr ++ [EvLog msg] /\
              fst (if is_tracable e
                   then (Exit 1, emit (EvLog "exception with backtrace") w')
                   else if is_std_exception e
                        then (Exit 1, emit (EvLog "exception") w')
                        else (Terminated e,
                              emit (EvLog "Unknown exception thrown in main thread.") w'))
              <> Exit 0).
  { intros e w' tr Htr.
    destruct (is_tracable e); [|destruct (is_std_exception e)];
      eexists; (split; [cbn [snd w_trace emit]; rewrite Htr, <- app_assoc; reflexivity
                       | discriminate]). }
  unfold main. rewrite main_try_eq.
  destruct (receivePassword w) as [r1 w1] eqn:Epw.
  destruct (receivePassword_trace _ _ _ Epw) as (tr1 & Htr1 & Hall1).
  pose proof (reads_no_new_client _ _ Hall1) as Hn1.
  destruct r1 as [password | e |].
  - pose proof (receivePassword_value _ _ _ Epw) as Hpw.
    unfold Server_of_args.
    destruct (Server_new_any senv password (arg_rootDir args) (arg_ruby args)
                (atoi (arg_adminPipe args)) (to_uint (atoi (arg_maxPoolSize args)))
                (to_uint (atoi (arg_maxInstancesPerApp args)))
                (to_uint (atoi (arg_poolIdleTime args))) w1)
      as (r2 & w2 & tr2 & Enew & Htr2 & Hn2 & Hres2).
    rewrite Enew.
    assert (Ht2 : w_trace w2 = w_trace w ++ tr1 ++ tr2).
    { rewrite Htr2, Htr1, app_assoc. reflexivity. }
    destruct r2 as [server | e |]; [| | contradiction].
    + assert (Hnt : 0 <= numberOfThreads server < UINT_MODULUS).
      { rewrite Hres2. cbn [numberOfThreads]. exact Hrange. }
      destruct (Server_start_any senv server w2 Hnt)
        as (new & tail & r3 & w3 & Est & Htr3 & Hn3 & Hall3 & Hnums3 & Hlen3 & Hres3).
      rewrite Est.
      assert (Ht3 : w_trace w3 = w_trace w ++ tr1 ++ tr2 ++ map EvNewClient new ++ tail).
      { rewrite Htr3, Ht2, <- !app_assoc. reflexivity. }
      assert (Hcs : forall rest, new_clients rest = [] ->
                new_clients (tr1 ++ tr2 ++ map EvNewClient new ++ tail ++ rest) = new).
      { intros rest Hrest.
        rewrite !new_clients_app, Hn1, Hn2, Hn3, Hrest, new_clients_map, app_nil_r.
        reflexivity. }
      assert (Hprops : Forall (fun c => client_password c = firstn 64 (stream_bytes (w_admin w)) /\
                                        client_serverSocket c = fst (sys_socket senv) /\
                                        client_pool c = pool_of_args args) new).
      { eapply Forall_impl; [|exact Hall3].
        intros c (Hp & Hw & Hs). rewrite Hp, Hw, Hs, Hres2, <- Hpw. repeat split. }
      assert (Hcount : Z.of_nat (List.length new) <=
                       to_uint (to_uint (atoi (arg_maxPoolSize args)) * 4)).
      { rewrite Hres2 in Hlen3. cbn [numberOfThreads] in Hlen3. lia. }
      destruct r3 as [server' | e |]; [| | contradiction].
      * exists (tr1 ++ tr2 ++ map EvNewClient new ++ tail ++
                [EvClearClients; EvCloseSocket (serverSocket server); EvClose AdminPipe]).
        rewrite (Hcs [EvClearClients; EvCloseSocket (serverSocket server); EvClose AdminPipe]
                     eq_refl).
        repeat apply conj; auto.
        -- unfold Server_delete, P_DEBUG, P_TRACE, bind, ret, trace_event.
           cbn [snd w_trace emit]. rewrite Ht3, <- !app_assoc. reflexivity.
        -- intros _. destruct Hres3 as (Hl & _). rewrite Hl, Hres2. cbn [numberOfThreads]. lia.
      * destruct (Hlog e (snd (Server_delete server w3))
                    (tr1 ++ tr2 ++ map EvNewClient new ++ tail ++
                     [EvClearClients; EvCloseSocket (serverSocket server); EvClose AdminPipe]))
          as (msg & Hw & Hne).
        { unfold Server_delete, P_DEBUG, P_TRACE, bind, ret, trace_event.
          cbn [snd w_trace emit]. rewrite Ht3, <- !app_assoc. reflexivity. }
        cbn [fst snd] in *.
        exists ((tr1 ++ tr2 ++ map EvNewClient new ++ tail ++
                 [EvClearClients; EvCloseSocket (serverSocket server); EvClose AdminPipe]) ++
                [EvLog msg]).
        rewrite <- !app_assoc. rewrite <- !app_assoc in Hw.
        rewrite (Hcs ([EvClearClients; EvCloseSocket (serverSocket server); EvClose AdminPipe] ++
                      [EvLog msg]) eq_refl).
        repeat apply conj; auto.
        intros H0. elim (Hne H0).
    + destruct (Hlog e w2 (tr1 ++ tr2) Ht2) as (msg & Hw & Hne).
      exists ((tr1 ++ tr2) ++ [EvLog msg]). split; [exact Hw|].
      destruct (Hnone ((tr1 ++ tr2) ++ [EvLog msg])) as (H1 & H2 & H3).
      { rewrite !new_clients_app, Hn1, Hn2. reflexivity. }
      repeat apply conj; auto. intros H0. elim (Hne H0).
  - destruct (Hlog e w1 tr1 Htr1) as (msg & Hw & Hne).
    exists (tr1 ++ [EvLog msg]). split; [exact Hw|].
    destruct (Hnone (tr1 ++ [EvLog msg])) as (H1 & H2 & H3).
    { rewrite !new_clients_app, Hn1. reflexivity. }
    repeat apply conj; auto. intros H0. elim (Hne H0).
  - exists tr1. split; [exact Htr1|].
    destruct (Hnone tr1 Hn1) as (H1 & H2 & H3).
    repeat apply conj; auto. discriminate.
Qed.


(** X15. The server that [main] constructs is destroyed when [start]
    returns and also when [start] throws: the clients are cleared, the
    socket and the admin pipe are closed, before the exception is logged.
    When the constructor itself throws, there is no server to destroy:
    [main] only logs. *)
Theorem main_destroys_server :
  forall (senv : StartupEnv) (args : Args) (w w1 : World) (password : bytes),
    receivePassword w = (Ok password, w1) ->
    (forall server w2,
       Server_of_args senv args password w1 = (Ok server, w2) ->
       exists log,
         w_trace (snd (main senv args w)) =
           w_trace (snd (Server_start senv server w2)) ++
           [EvClearClients; EvCloseSocket (serverSocket server); EvClose AdminPipe] ++ log /\
         (fst (main senv args w) = Exit 0 /\ log = [] \/
          fst (main senv args w) <> Exit 0 /\ exists msg, log = [EvLog msg])) /\
    (forall e w2,
       Server_of_args senv args password w1 = (Throw e, w2) ->
       exists msg,
         snd (main senv args w) = emit (EvLog msg) w2 /\
         fst (main senv args w) <> Exit 0).
Proof.
  intros senv args w w1 password Hpw.
  unfold main. rewrite main_try_eq, Hpw. split.
  - intros server w2 Hnew. rewrite Hnew.
    pose proof (Server_start_returns senv server w2) as Hret.
    destruct (Server_start senv server w2) as [[server' | e |] w3]; [| | contradiction].
    + exists []. split; [|left; split; reflexivity].
      unfold Server_delete, P_DEBUG, P_TRACE, bind, ret, trace_event.
      cbn [snd w_trace emit]. rewrite <- !app_assoc. reflexivity.
    + destruct (is_tracable e); [|destruct (is_std_exception e)];
        (eexists; split;
         [unfold Server_delete, P_DEBUG, P_TRACE, bind, ret, trace_event;
          cbn [snd w_trace emit]; rewrite <- !app_assoc; reflexivity
         | right; split; [discriminate | eexists; reflexivity]]).
  - intros e w2 Hnew. rewrite Hnew.
    destruct (is_tracable e); [|destruct (is_std_exception e)];
      (eexists; split; [reflexivity | discriminate]).
Qed.

Lemma main_destroys_server_witness :
  exists server w2 log,
    Server_of_args senv_third_thread_fails (args_with "2") secretA
      (mkWorld [] [] [] 0 [EvRead AdminPipe 64 64]) = (Ok server, w2) /\
    w_trace (snd (main senv_third_thread_fails (args_with "2") clean_shutdown_world)) =
      w_trace (snd (Server_start senv_third_thread_fails server w2)) ++
      [EvClearClients; EvCloseSocket (serverSocket server); EvClose AdminPipe] ++ log /\
    (fst (main senv_third_thread_fails (args_with "2") clean_shutdown_world) = Exit 0 /\
     log = [] \/
     fst (main senv_third_thread_fails (args_with "2") clean_shutdown_world) <> Exit 0 /\
     exists msg, log = [EvLog msg]).
Proof.
  assert (H1 : receivePassword clean_shutdown_world =
               (Ok secretA, mkWorld [] [] [] 0 [EvRead AdminPipe 64 64]))
    by (vm_compute; reflexivity).
  destruct (Server_of_args senv_third_thread_fails (args_with "2") secretA
              (mkWorld [] [] [] 0 [EvRead AdminPipe 64 64])) as [r w2] eqn:Hnew.
  destruct r as [server | e |]; try (vm_compute in Hnew; discriminate Hnew).
  destruct (proj1 (main_destroys_server senv_third_thread_fails (args_with "2")
                     clean_shutdown_world _ secretA H1) server w2 Hnew) as (log & Htr & Hlog).
  exists server, w2, log. split; [reflexivity|]. split; [exact Htr | exact Hlog].
Defined.

(** The run with the thread that cannot be started: two threads run, the
    third fails; the server is destroyed and [main] returns 1. *)
Example third_thread_fails_run :
  let '(r, w') := main senv_third_thread_fails (args_with "2") clean_shutdown_world in
  r = Exit 1 /\
  map client_number (new_clients (w_trace w')) = [1; 2; 3] /\
  skipn 10 (w_trace w') =
    [EvClearClients; EvCloseSocket 4; EvClose AdminPipe; EvLog "exception"].
Proof. vm_compute. repeat split. Qed.

(** X16. When [bind] or [listen] fails, once the password has been read
    and the pool made: [startListening] closes the socket it had created,
    the constructor of [Server] throws, and [main] logs and returns 1. No
    [chmod] is made, no client is constructed, and the admin pipe is not
    closed. *)
Theorem main_listen_failure :
  forall (senv : StartupEnv) (args : Args) (w : World),
    64 <= zlen (stream_bytes (w_admin w)) ->
    createPassengerTempDir senv = None ->
    new_StandardApplicationPool senv = None ->
    fst (sys_socket senv) <> -1 ->
    fst (sys_bind senv) = -1 \/ fst (sys_listen senv) = -1 ->
    let fd := fst (sys_socket senv) in
    let path := firstn 107 (c_string (getPassengerTempDir senv ++ lit "/helper_server.sock")) in
    exists w1 tr,
      receivePassword w = (Ok (firstn 64 (stream_bytes (w_admin w))), w1) /\
      fst (main senv args w) = Exit 1 /\
      w_trace (snd (main senv args w)) =
        w_trace w1 ++
        [EvCreateTempDir; EvNewPool (pool_of_args args); EvSocket] ++ tr ++
        [EvCloseSocket fd; EvLog "exception with backtrace"] /\
      (fst (sys_bind senv) = -1 /\ tr = [EvBind fd path] \/
       fst (sys_bind senv) <> -1 /\ tr = [EvBind fd path; EvListen fd BACKLOG_SIZE]).
Proof.
  intros senv args w Hlong Hdir Hpool Hsock Hfail fd path.
  destruct (receivePassword_enough w Hlong) as (w1 & Epw).
  exists w1.
  unfold main. rewrite main_try_eq, Epw.
  unfold Server_of_args, Server_new, bind at 1, call. rewrite Hdir.
  unfold bind at 1. rewrite Hpool.
  unfold bind at 1, startListening, syscall, bind, get_errno, trace_event, throw, ret.
  cbv beta iota. fold fd.
  change (Z.to_nat (SUN_PATH_SIZE - 1)) with 107%nat. fold path.
  apply Z.eqb_neq in Hsock. fold fd in Hsock. rewrite Hsock.
  destruct (fst (sys_bind senv) =? -1) eqn:Eb.
  - apply Z.eqb_eq in Eb. exists [EvBind fd path].
    split; [reflexivity|]. split; [reflexivity|]. split; [|left; auto].
    cbn [snd is_tracable w_trace emit set_errno]. rewrite <- !app_assoc. reflexivity.
  - apply Z.eqb_neq in Eb. destruct Hfail as [Hb | Hl]; [contradiction|].
    apply Z.eqb_eq in Hl. rewrite Hl.
    exists [EvBind fd path; EvListen fd BACKLOG_SIZE].
    split; [reflexivity|]. split; [reflexivity|]. split; [|right; auto].
    cbn [snd is_tracable w_trace emit set_errno]. rewrite <- !app_assoc. reflexivity.
Qed.

Lemma main_listen_failure_witness :
  exists w1 tr,
    receivePassword clean_shutdown_world =
      (Ok (firstn 64 (stream_bytes (w_admin clean_shutdown_world))), w1) /\
    fst (main senv_listen_fails (args_with "2") clean_shutdown_world) = Exit 1 /\
    w_trace (snd (main senv_listen_fails (args_with "2") clean_shutdown_world)) =
      w_trace w1 ++
      [EvCreateTempDir; EvNewPool (pool_of_args (args_with "2")); EvSocket] ++ tr ++
      [EvCloseSocket 4; EvLog "exception with backtrace"] /\
    (fst (sys_bind senv_listen_fails) = -1 /\
     tr = [EvBind 4 (lit "/tmp/passenger.1234/helper_server.sock")] \/
     fst (sys_bind senv_listen_fails) <> -1 /\
     tr = [EvBind 4 (lit "/tmp/passenger.1234/helper_server.sock"); EvListen 4 BACKLOG_SIZE]).
Proof.
  assert (H1 : 64 <= zlen (stream_bytes (w_admin clean_shutdown_world)))
    by (vm_compute; discriminate).
  assert (H2 : createPassengerTempDir senv_listen_fails = None) by reflexivity.
  assert (H3 : new_StandardApplicationPool senv_listen_fails = None) by reflexivity.
  assert (H4 : fst (sys_socket senv_listen_fails) <> -1) by discriminate.
  assert (H5 : fst (sys_bind senv_listen_fails) = -1 \/ fst (sys_listen senv_listen_fails) = -1)
    by (right; reflexivity).
  exact (main_listen_failure senv_listen_fails (args_with "2") clean_shutdown_world
           H1 H2 H3 H4 H5).
Defined.


(** ** The exit code of [main] *)






